(** * WallpaperBot: a shallow embedding of the wallpaper library manager

    The development follows the Python packages of the repository, one
    module per source file:

    - [Py]           the fragment of Python the sources rely on: exceptions,
                     [int] and [float] (IEEE 754 binary64) arithmetic,
                     true division, [str.replace], [format(x, ".1f")];
    - [ImageOps]     [image_ops.py]: [evaluate_suitability];
    - [Models]       [models.py]: [Candidate] and [DownloadInfo];
    - [Fs]           the files and directories the program writes, and
                     how [mkdir] and the writes of [pathlib] can fail;
    - [Dedup]        [dedup.py]: [compute_phash], [is_duplicate];
    - [Utils]        [utils.py]: [human_size], [merge_dicts];
    - [Config]       [config.py]: [Config] and its target resolution;
    - [Db]           [db.py]: the [images] table, [record_download],
                     [existing_hashes], [list_recent], [count],
                     [suitability_counts];
    - [Robots]       [robots.py]: [can_fetch];
    - [AdapterBase]  [adapters/base.py]: [note_unsupported];
    - [StubSources]  [adapters/stub_sources.py]: [DisallowedAdapter];
    - [Unsplash]     [adapters/unsplash.py]: the adapter, and how the
                     answer of the search is read into candidates;
    - [Cli]          [cli.py]: [build_adapters], [candidate_filename],
                     [download_candidate], the loop of [fetch], and the
                     choice of the picture in [set].

    Integers are [Z] (Python integers are unbounded), floats are the
    [spec_float] values of the Standard Library at precision 53 and maximal
    exponent 1024, sets of hashes are [gset string], dicts are [gmap],
    text is [string].  What the libraries compute (digests, HTTP, image
    decoding, robots.txt, the splitting of paths and URLs, the refusals of
    the operating system) is a parameter of the development, the class
    [Externals].

    After the definitions come the notions used in the statements
    ([Spec]), a small concrete world ([Demo]), and the properties. *)

From Stdlib Require Import ZArith Bool String Ascii List Lia.
From Stdlib Require Import Floats.SpecFloat Sorting.Sorted.
From stdpp Require Import gmap strings pretty.

Open Scope Z_scope.

(* ===================================================================== *)
(** * The Python fragment *)
(* ===================================================================== *)

Module Py.

(** Exceptions that the modelled code can raise.  [HTTPError] stands for
    every failure of the HTTP client ([raise_for_status] included) and
    [ImageError] for every failure of the imaging library while opening or
    decoding a picture.  [FileNotFoundError], [FileExistsError],
    [NotADirectoryError] and [IsADirectoryError] are the subclasses of
    [OSError] that the tree of files decides; [OSError] itself stands for
    every other refusal of the operating system. *)
Inductive exn : Set :=
| ZeroDivisionError
| OverflowError
| ValueError (msg : string)
| HTTPError (msg : string)
| ImageError (msg : string)
| FileNotFoundError (path : string)
| FileExistsError (path : string)
| NotADirectoryError (path : string)
| IsADirectoryError (path : string)
| OSError (msg : string).

(** A computation either returns a value or raises. *)
Inductive result (A : Type) : Type :=
| Ok (a : A)
| Raise (e : exn).
Arguments Ok {A} a.
Arguments Raise {A} e.

Definition bind {A B} (c : result A) (k : A -> result B) : result B :=
  match c with
  | Ok a => k a
  | Raise e => Raise e
  end.

(** ** binary64 *)

Definition float := spec_float.
Definition prec : Z := 53.
Definition emax : Z := 1024.

Definition fsub : float -> float -> float := SFsub prec emax.
Definition fmul : float -> float -> float := SFmul prec emax.
Definition fdiv : float -> float -> float := SFdiv prec emax.
Definition fabs : float -> float := SFabs.
Definition fle : float -> float -> bool := SFleb.
Definition flt : float -> float -> bool := SFltb.

(** The float literals of the sources, as mantissa and exponent. *)
Definition f0_0 : float := S754_zero false.
Definition f1_0 : float := S754_finite false 4503599627370496 (-52).
Definition f0_8 : float := S754_finite false 7205759403792794 (-53).
Definition f0_4 : float := S754_finite false 7205759403792794 (-54).
Definition f0_2 : float := S754_finite false 7205759403792794 (-55).
Definition f0_1 : float := S754_finite false 7205759403792794 (-56).
Definition f1024_0 : float := S754_finite false 4503599627370496 (-42).

(** An integer as an unrounded finite float (exponent zero). *)
Definition raw_of_int (n : Z) : float :=
  match n with
  | Z0 => S754_zero false
  | Zpos p => S754_finite false p 0
  | Zneg p => S754_finite true p 0
  end.

(** [float(n)]: the nearest binary64 value (ties to even); an integer
    beyond the binary64 range raises [OverflowError]. *)
Definition float_of_int (n : Z) : result float :=
  match binary_normalize prec emax n 0 false with
  | S754_infinity _ => Raise OverflowError
  | x => Ok x
  end.

(** [a / b] on two integers: the correctly rounded quotient.  A zero
    divisor raises [ZeroDivisionError], a quotient beyond the binary64
    range raises [OverflowError]. *)
Definition int_truediv (a b : Z) : result float :=
  if b =? 0 then Raise ZeroDivisionError
  else
    match fdiv (raw_of_int a) (raw_of_int b) with
    | S754_infinity _ => Raise OverflowError
    | q => Ok q
    end.

(** [x / y] on two floats. *)
Definition float_truediv (x y : float) : result float :=
  match y with
  | S754_zero _ => Raise ZeroDivisionError
  | _ => Ok (fdiv x y)
  end.

(** ** Text *)

(** [s.replace(old, new)] for one-character [old] and [new]: every
    occurrence is replaced.  Text is kept as its UTF-8 bytes; the space
    and the hyphen are single bytes that occur in no longer sequence. *)
Fixpoint str_replace (old new : ascii) (s : string) : string :=
  match s with
  | EmptyString => EmptyString
  | String c rest =>
      String (if Ascii.eqb c old then new else c) (str_replace old new rest)
  end.

(** Truth value of a string and of an optional string. *)
Definition str_truthy (s : string) : bool :=
  match s with EmptyString => false | _ => true end.

Definition opt_truthy (o : option string) : bool :=
  match o with Some s => str_truthy s | None => false end.

(** ** Formatting with [.1f] *)

(** The integer nearest to [num / den], ties to even ([0 < den]). *)
Definition round_half_even (num den : Z) : Z :=
  let q := num / den in
  match 2 * (num mod den) ?= den with
  | Lt => q
  | Eq => if Z.even q then q else q + 1
  | Gt => q + 1
  end.

(** The non-negative rational [num / den] with one digit after the point,
    correctly rounded. *)
Definition decimal1 (num den : Z) : string :=
  let t := round_half_even (10 * num) den in
  pretty (t / 10) +:+ "." +:+ pretty (t mod 10).

Definition sign_str (s : bool) : string := if s then "-" else "".

(** [format(x, ".1f")] on a float: the exact binary value is rounded to
    one decimal. *)
Definition format_1f (x : float) : string :=
  match x with
  | S754_zero s => sign_str s +:+ "0.0"
  | S754_infinity s => sign_str s +:+ "inf"
  | S754_nan => "nan"
  | S754_finite s m e =>
      sign_str s +:+
      (if 0 <=? e then decimal1 (Zpos m * 2 ^ e) 1
       else decimal1 (Zpos m) (2 ^ (- e)))
  end.

End Py.

Import Py.

(** [result] is a monad; stdpp's [x ← c; k] notation sequences the calls
    and propagates the first exception. *)
#[export] Instance result_ret : MRet result := fun _ a => Ok a.
#[export] Instance result_bind : MBind result := fun _ _ k c => Py.bind c k.

(* ===================================================================== *)
(** * image_ops.py *)
(* ===================================================================== *)

Module ImageOps.

Record SuitabilityResult : Type := mkSuitabilityResult {
  category : string;
  score : float;
  reason : string
}.

Definition aspect_ratio (width height : Z) : result float :=
  int_truediv width height.

Definition within_tolerance (value target tolerance : float) : bool :=
  fle (fabs (fsub value target)) (fmul target tolerance).

Definition evaluate_suitability
    (img_size target_size : Z * Z) (tolerance : float)
    (allow_crop allow_upscale : bool) : result SuitabilityResult :=
  let '(iw, ih) := img_size in
  let '(tw, th) := target_size in
  if (iw <=? 0) || (ih <=? 0) then
    Ok (mkSuitabilityResult "reject" f0_0 "Invalid dimensions")
  else
    image_ar ← aspect_ratio iw ih;
    target_ar ← aspect_ratio tw th;
    if (iw >=? tw) && (ih >=? th)
       && within_tolerance image_ar target_ar tolerance then
      Ok (mkSuitabilityResult "perfect" f1_0
            "Matches target within tolerance")
    else if (iw >=? tw) && (ih >=? th) && allow_crop then
      Ok (mkSuitabilityResult "croppable" f0_8
            "Larger than target; center-crop possible")
    else if allow_upscale
            && within_tolerance image_ar target_ar tolerance then
      Ok (mkSuitabilityResult "upscalable" f0_4
            "Below target but aspect ratio matches")
    else
      Ok (mkSuitabilityResult "reject" f0_0
            "Insufficient resolution or mismatched ratio").

End ImageOps.


(* ===================================================================== *)
(** * models.py *)
(* ===================================================================== *)

Module Models.

(** [datetime] values are kept as microseconds since the epoch and
    [Path] values as their text.  The fields [width] and [height] of
    [DownloadInfo] are [info_width] and [info_height] here, the plain
    names being those of [Candidate]. *)
Definition datetime := Z.
Definition Path := string.

Record Candidate : Type := mkCandidate {
  id : string;
  source : string;
  title : string;
  source_page_url : string;
  direct_url : option string;
  author : option string;
  license : option string;
  width : option Z;
  height : option Z;
  tags : list string;
  unsupported_reason : option string
}.

Record DownloadInfo : Type := mkDownloadInfo {
  candidate : Candidate;
  file_path : Path;
  sha256 : string;
  phash : option string;
  info_width : Z;
  info_height : Z;
  file_size : Z;
  suitability : string;
  suitability_reason : string;
  downloaded_at : datetime
}.

End Models.

(* ===================================================================== *)
(** * What the program takes from its libraries *)
(* ===================================================================== *)

Definition bytes := list Byte.byte.

(** The library calls whose results the program only passes along.  Each
    field is one call of the sources:
    - [hexdigest_sha256 data] is [hashlib.sha256(data).hexdigest()];
    - [http_get url] is [client.get(url)], [raise_for_status()] and
      [.content] together;
    - [image_size data] is [Image.open(...).size] on an image file with
      these bytes;
    - [image_phash data] is [str(imagehash.phash(Image.open(...)))] on an
      image file with these bytes: opening and decoding may raise;
    - [urlsplit url] is the scheme and the network location that
      [urlparse(url)] gives when it returns, and [urlparse_error url] the
      message of the [ValueError] it raises on [url], if it raises one;
    - [robots_allows robots_url agent url] is the [try] block of
      [robots.can_fetch]: the file at [robots_url] is fetched, read and
      asked whether [agent] may fetch [url]; any exception in the block
      counts as [False], as the [except] of the source has it;
    - [joinpath], [with_suffix] are the [pathlib] operations, and
      [parents path] is [path.parents]: the directories above [path], the
      nearest first;
    - [os_error path] is the error with which the operating system refuses
      to create or to open for writing the entry [path] for a reason that
      the tree of files does not show (a name too long, a missing
      permission, a read-only medium), if it does refuse;
    - [isoformat] is [datetime.isoformat];
    - [sidecar_json] is the [json.dumps] call of [download_candidate]. *)
Class Externals : Type := {
  hexdigest_sha256 : bytes -> string;
  http_get : string -> result bytes;
  image_size : bytes -> result (Z * Z);
  image_phash : bytes -> result string;
  urlsplit : string -> string * string;
  urlparse_error : string -> option string;
  robots_allows : string -> string -> string -> bool;
  joinpath : string -> string -> string;
  with_suffix : string -> string -> string;
  parents : string -> list string;
  os_error : string -> option exn;
  isoformat : Z -> string;
  sidecar_json : Models.Candidate -> Z -> Z -> string -> string -> string
}.

(* ===================================================================== *)
(** * The file system *)
(* ===================================================================== *)

Module Fs.

(** The regular files with their bytes, and the directories. *)
Record FileSystem : Type := mkFileSystem {
  files : gmap string bytes;
  directories : gset string
}.

Definition is_file (path : string) (fs : FileSystem) : bool :=
  bool_decide (is_Some (files fs !! path)).

Definition is_dir (path : string) (fs : FileSystem) : bool :=
  bool_decide (path ∈ directories fs).

Definition add_directory (path : string) (fs : FileSystem) : FileSystem :=
  mkFileSystem (files fs) ({[ path ]} ∪ directories fs).

(** Opening a path: a missing file raises. *)
Definition read_bytes (path : string) (fs : FileSystem) : result bytes :=
  match files fs !! path with
  | Some data => Ok data
  | None => Raise (FileNotFoundError path)
  end.

Section WithExternals.
Context `{Externals}.

(** An operation on the file system changes it and then returns or
    raises; what was made before an exception stays.

    The directories above a path, the topmost first, are made in turn
    where they are missing: the recursion of [mkdir(parents=True)].  A
    regular file in the place of one of them stops it, and so does a
    refusal of the operating system. *)
Fixpoint make_parents (ancestors : list string) (fs : FileSystem)
  : FileSystem * result unit :=
  match ancestors with
  | [] => (fs, Ok tt)
  | d :: rest =>
      if is_dir d fs then make_parents rest fs
      else if is_file d fs then (fs, Raise (NotADirectoryError d))
      else
        match os_error d with
        | Some e => (fs, Raise e)
        | None => make_parents rest (add_directory d fs)
        end
  end.

(** [path.mkdir(parents=True, exist_ok=True)]: a directory that is there
    is left alone, a regular file in its place raises [FileExistsError],
    and otherwise the missing directories above it are made and then the
    directory itself. *)
Definition mkdir (path : string) (fs : FileSystem)
  : FileSystem * result unit :=
  if is_dir path fs then (fs, Ok tt)
  else if is_file path fs then (fs, Raise (FileExistsError path))
  else
    match make_parents (rev (parents path)) fs with
    | (fs', Raise e) => (fs', Raise e)
    | (fs', Ok _) =>
        match os_error path with
        | Some e => (fs', Raise e)
        | None => (add_directory path fs', Ok tt)
        end
    end.

(** [path.write_bytes(data)]: the file is made, or written over, in a
    directory that is there.  It raises when [path] is a directory, when
    a regular file stands where a directory above it should be, when the
    directory it should go in is missing, or when the operating system
    refuses; nothing is written then. *)
Definition write_bytes (path : string) (data : bytes) (fs : FileSystem)
  : FileSystem * result unit :=
  if is_dir path fs then (fs, Raise (IsADirectoryError path))
  else
    match parents path with
    | [] => (fs, Raise (IsADirectoryError path))
    | parent :: _ =>
        if existsb (fun d => is_file d fs) (parents path) then
          (fs, Raise (NotADirectoryError path))
        else if negb (is_dir parent fs) then
          (fs, Raise (FileNotFoundError path))
        else
          match os_error path with
          | Some e => (fs, Raise e)
          | None =>
              (mkFileSystem (<[ path := data ]> (files fs)) (directories fs),
               Ok tt)
          end
    end.

Definition write_text (path : string) (text : string) (fs : FileSystem)
  : FileSystem * result unit :=
  write_bytes path (list_byte_of_string text) fs.

End WithExternals.

End Fs.

(* ===================================================================== *)
(** * dedup.py *)
(* ===================================================================== *)

Module Dedup.
Section WithExternals.
Context `{Externals}.

Definition compute_sha256 (data : bytes) : string := hexdigest_sha256 data.

(** [Image.open(path)] followed by [str(imagehash.phash(img))]. *)
Definition phash_of_file (fs : Fs.FileSystem) (path : string)
  : result string :=
  data ← Fs.read_bytes path fs;
  image_phash data.

(** The [try] of [compute_phash]: every exception becomes [None]. *)
Definition compute_phash (fs : Fs.FileSystem) (path : string)
  : option string :=
  match phash_of_file fs path with
  | Ok h => Some h
  | Raise _ => None
  end.

End WithExternals.

Definition is_duplicate (existing_hashes : gset string) (sha256 : string)
    (phash : option string) : bool :=
  if bool_decide (sha256 ∈ existing_hashes) then true
  else
    match phash with
    | Some p => bool_decide (p ∈ existing_hashes)
    | None => false
    end.

End Dedup.

(* ===================================================================== *)
(** * utils.py *)
(* ===================================================================== *)

Module Utils.

(** [num_bytes] is an [int] until the first division and a [float]
    afterwards. *)
Inductive number : Type :=
| Int (n : Z)
| Float (x : float).

Definition step : float := f1024_0.

(** [num_bytes < step]; an [int] is compared with [1024.0] exactly. *)
Definition lt_step (num_bytes : number) : bool :=
  match num_bytes with
  | Int n => n <? 1024
  | Float x => flt x step
  end.

(** [num_bytes /= step]. *)
Definition div_step (num_bytes : number) : result float :=
  match num_bytes with
  | Int n => x ← float_of_int n; float_truediv x step
  | Float x => float_truediv x step
  end.

(** [f"{num_bytes:.1f}"]; an [int] is converted to [float] first. *)
Definition fmt_1f (num_bytes : number) : result string :=
  match num_bytes with
  | Int n => x ← float_of_int n; Ok (format_1f x)
  | Float x => Ok (format_1f x)
  end.

(** The [for] loop over the remaining units, then the final [return]. *)
Fixpoint human_size_loop (units : list string) (num_bytes : number)
  : result string :=
  match units with
  | [] => s ← fmt_1f num_bytes; Ok (s +:+ " TB")
  | unit :: rest =>
      if lt_step num_bytes then
        s ← fmt_1f num_bytes; Ok (s +:+ " " +:+ unit)
      else
        x ← div_step num_bytes;
        human_size_loop rest (Float x)
  end.

Definition human_size (num_bytes : Z) : result string :=
  human_size_loop ["B"; "KB"; "MB"; "GB"] (Int num_bytes).

(** A [Dict[str, Any]] is a finite map from text keys to values, of which
    only [None] is told apart from the rest.  Two dicts are equal when
    they hold the same entries, in whatever order. *)

(** [d.update(e)]: the entries of [e] are written over those of [d]. *)
Definition dict_update {V : Type} (d e : gmap string (option V))
  : gmap string (option V) := e ∪ d.

(** The dict comprehension of [merge_dicts]: the entries of [override]
    whose value is not [None]. *)
Definition not_none_items {V : Type} (override : gmap string (option V))
  : gmap string (option V) :=
  filter (fun kv => is_Some (snd kv)) override.

Definition merge_dicts {V : Type} (base override : gmap string (option V))
  : gmap string (option V) :=
  let merged := base in
  dict_update merged (not_none_items override).

End Utils.

(* ===================================================================== *)
(** * config.py *)
(* ===================================================================== *)

Module Config.

Record Config : Type := mkConfig {
  monitor_count : Z;
  monitor_width : Z;
  monitor_height : Z;
  tolerance : float;
  allow_crop : bool;
  allow_upscale : bool;
  output_dir : Models.Path;
  page_limit : Z
}.

Definition target_resolution (self : Config) : Z * Z :=
  (monitor_width self * monitor_count self, monitor_height self).

(** The whole of the class [Config]: the fields above, which are those
    that the download pipeline reads, and the remaining ones. *)
Record Settings : Type := mkSettings {
  pipeline : Config;
  database_path : Models.Path;
  rate_limit_rps : float;
  concurrency : Z;
  unsplash_access_key : option string;
  allow_playwright : bool
}.

End Config.

(* ===================================================================== *)
(** * db.py *)
(* ===================================================================== *)

Module Db.

(** One row of the [images] table of [SCHEMA]; a column without
    [NOT NULL] holds an optional value. *)
Record Row : Type := mkRow {
  id : Z;
  source : string;
  source_page_url : string;
  direct_url : option string;
  title : option string;
  author : option string;
  license : option string;
  width : option Z;
  height : option Z;
  file_size : option Z;
  sha256 : string;
  phash : option string;
  file_path : string;
  suitability : option string;
  suitability_reason : option string;
  downloaded_at : option string;
  query : option string
}.

(** The database: the rows of [images] in insertion order and the
    largest row id ever handed out ([AUTOINCREMENT]). *)
Record Database : Type := mkDatabase {
  images : list Row;
  sqlite_sequence : Z
}.

(** The database made by [Database.__init__] on a new file. *)
Definition empty : Database := mkDatabase [] 0.

Definition max_rowid (rows : list Row) : Z :=
  fold_right (fun r acc => Z.max (id r) acc) 0 rows.

(** Does a row of the table already carry this content hash
    ([sha256 TEXT NOT NULL UNIQUE])? *)
Definition sha256_present (h : string) (rows : list Row) : bool :=
  existsb (fun r => String.eqb (sha256 r) h) rows.

(** [INSERT OR IGNORE INTO images (...) VALUES (...)]: a row id is drawn,
    then the row is added unless it breaks the uniqueness of [sha256],
    in which case the statement does nothing to the table (the id drawn
    is not handed out again). *)
Definition insert_or_ignore (values : Z -> Row) (db : Database)
  : Database :=
  let rowid := Z.max (sqlite_sequence db) (max_rowid (images db)) + 1 in
  let row := values rowid in
  if sha256_present (sha256 row) (images db) then
    mkDatabase (images db) rowid
  else
    mkDatabase (images db ++ [row]) rowid.

(** A Python [int] given as a parameter of a statement: SQLite keeps
    integers in 64 bits, and [sqlite3] raises [OverflowError] for any
    other, before the statement is run. *)
Definition int64 (n : Z) : bool := (- 2 ^ 63 <=? n) && (n <? 2 ^ 63).

Definition bind_int (n : Z) : result Z :=
  if int64 n then Ok n else Raise OverflowError.

Section WithExternals.
Context `{Externals}.

(** The parameters are bound in the order of the tuple; the three
    integers are the only ones that can fail to bind.  When one does, the
    statement is not run and the database is as before. *)
Definition record_download (self : Database) (info : Models.DownloadInfo)
    (query : option string) : result Database :=
  let c := Models.candidate info in
  width ← bind_int (Models.info_width info);
  height ← bind_int (Models.info_height info);
  file_size ← bind_int (Models.file_size info);
  Ok (insert_or_ignore
        (fun rowid =>
           mkRow rowid
             (Models.source c)
             (Models.source_page_url c)
             (Models.direct_url c)
             (Some (Models.title c))
             (Models.author c)
             (Models.license c)
             (Some width)
             (Some height)
             (Some file_size)
             (Models.sha256 info)
             (Models.phash info)
             (Models.file_path info)
             (Some (Models.suitability info))
             (Some (Models.suitability_reason info))
             (Some (isoformat (Models.downloaded_at info)))
             query)
        self).

End WithExternals.

(** [existing_hashes]: every truthy [sha256] and every truthy [phash]. *)
Definition existing_hashes (self : Database) : gset string :=
  fold_right
    (fun r (hashes : gset string) =>
       let hashes :=
         match phash r with
         | Some ph => if str_truthy ph then {[ ph ]} ∪ hashes else hashes
         | None => hashes
         end in
       if str_truthy (sha256 r) then {[ sha256 r ]} ∪ hashes else hashes)
    ∅ (images self).

Definition count (self : Database) : Z := Z.of_nat (length (images self)).

(** The order SQLite gives to the values of a [TEXT] column: [NULL]
    before every text, and texts byte by byte. *)
Definition compare_text (a b : option string) : comparison :=
  match a, b with
  | None, None => Eq
  | None, Some _ => Lt
  | Some _, None => Gt
  | Some x, Some y => String.compare x y
  end.

(** One more row with the value [g] in a list of groups kept in that
    order. *)
Fixpoint count_into (g : option string) (groups : list (option string * Z))
  : list (option string * Z) :=
  match groups with
  | [] => [(g, 1)]
  | (g', n) :: rest =>
      match compare_text g g' with
      | Eq => (g', n + 1) :: rest
      | Lt => (g, 1) :: (g', n) :: rest
      | Gt => (g', n) :: count_into g rest
      end
  end.

(** [SELECT suitability, COUNT(...) FROM images GROUP BY suitability]: one
    answer per distinct value of the column, [NULL] being a value of its
    own, with the number of rows that carry it; the answers come in the
    order of the sort that SQLite groups with. *)
Definition group_by_suitability (rows : list Row)
  : list (option string * Z) :=
  fold_right (fun r groups => count_into (suitability r) groups) [] rows.

(** [row[0] or "unknown"]. *)
Definition suitability_key (g : option string) : string :=
  match g with
  | Some s => if str_truthy s then s else "unknown"
  | None => "unknown"
  end.

(** The dict comprehension of [suitability_counts]: a key that comes
    again takes the later count. *)
Definition suitability_counts (self : Database) : gmap string Z :=
  fold_left (fun d gn => <[ suitability_key (fst gn) := snd gn ]> d)
    (group_by_suitability (images self)) ∅.

(** One more row in a list kept by [downloaded_at], latest first, [NULL]
    last; a row goes before the rows of the list that have its value. *)
Fixpoint insert_recent (r : Row) (sorted : list Row) : list Row :=
  match sorted with
  | [] => [r]
  | r' :: rest =>
      match compare_text (downloaded_at r') (downloaded_at r) with
      | Gt => r' :: insert_recent r rest
      | _ => r :: sorted
      end
  end.

(** [ORDER BY downloaded_at DESC]; rows with the same value are left in
    the order of the table. *)
Definition order_by_downloaded_at_desc (rows : list Row) : list Row :=
  fold_right insert_recent [] rows.

(** [list_recent(limit)]: [LIMIT ?] with a negative value puts no bound,
    and a value that is not a 64-bit integer cannot be bound to the
    statement. *)
Definition list_recent (self : Database) (limit : Z)
  : result (list (string * option string)) :=
  if (limit <? - 2 ^ 63) || (2 ^ 63 <=? limit) then Raise OverflowError
  else
    let rows := order_by_downloaded_at_desc (images self) in
    let rows := if limit <? 0 then rows else firstn (Z.to_nat limit) rows in
    Ok (List.map (fun r => (file_path r, downloaded_at r)) rows).

End Db.

(* ===================================================================== *)
(** * robots.py *)
(* ===================================================================== *)

Module Robots.

(** A character of ASCII other than a square bracket, and a text of such
    characters.  [urlparse] raises on a network location with an
    unmatched or ill-formed bracketed host, or with characters outside
    ASCII that normalise to a separator; it raises on no text of this
    kind. *)
Definition plain_char (c : ascii) : bool :=
  (N_of_ascii c <? 128)%N && negb (Ascii.eqb c "[") && negb (Ascii.eqb c "]").

Definition plain_url (url : string) : bool :=
  forallb plain_char (list_ascii_of_string url).

Section WithExternals.
Context `{Externals}.

(** [urlparse(url)], as far as [can_fetch] reads it: the scheme and the
    network location, or the [ValueError]. *)
Definition urlparse (url : string) : result (string * string) :=
  match (if plain_url url then None else urlparse_error url) with
  | Some msg => Raise (ValueError msg)
  | None => Ok (urlsplit url)
  end.

(** [can_fetch(url)] with its default user agent.  The call of
    [urlparse] stands before the [try]: its exception is not caught. *)
Definition can_fetch (url : string) : result bool :=
  '(scheme, netloc) ← urlparse url;
  let robots_url := scheme +:+ "://" +:+ netloc +:+ "/robots.txt" in
  Ok (robots_allows robots_url "wallpaperbot" url).

End WithExternals.
End Robots.

(* ===================================================================== *)
(** * adapters/base.py *)
(* ===================================================================== *)

Module AdapterBase.


End AdapterBase.

(* ===================================================================== *)
(** * adapters/stub_sources.py *)
(* ===================================================================== *)

Module StubSources.

Record DisallowedAdapter : Type := mkDisallowedAdapter {
  name : string;
  homepage : string;
  reason : string
}.

Section WithExternals.
Context `{Externals}.

Definition discover (self : DisallowedAdapter) (query : string)
    (page_limit : Z) : result (list Models.Candidate) :=
  allowed ← Robots.can_fetch (homepage self);
  let reason := if negb allowed then reason self else reason self in
  Ok [ Models.mkCandidate
         (name self +:+ "-unsupported")
         (name self)
         (name self +:+ " unsupported")
         (homepage self)
         None None None None None []
         (Some reason) ].

Definition resolve (self : DisallowedAdapter)
    (candidate : Models.Candidate) : Models.Candidate :=
  candidate.

End WithExternals.

Definition build_default_stub_adapters : list DisallowedAdapter :=
  [ mkDisallowedAdapter "ultrawidewallpapers"
      "https://ultrawidewallpapers.net"
      "Terms restrict automated tools/bots; manual downloads required";
    mkDisallowedAdapter "4kwallpapers"
      "https://4kwallpapers.com"
      "ToS prohibits automated access and hotlinking";
    mkDisallowedAdapter "wallpapers.com"
      "https://wallpapers.com"
      "Site uses aggressive anti-bot and fair-use limits; automation skipped";
    mkDisallowedAdapter "wallpapersafari"
      "https://wallpapersafari.com"
      "ToS forbids automated scripts; only human browsing allowed";
    mkDisallowedAdapter "wallpaperfusion"
      "https://www.wallpaperfusion.com"
      "Requires account and ToS discourages scraping; use apps instead";
    mkDisallowedAdapter "wallpaperswide"
      "https://wallpaperswide.com"
      "ToS blocks automated downloads/hotlinking";
    mkDisallowedAdapter "triplemonitorbackgrounds"
      "https://triplemonitorbackgrounds.com"
      "Community site without API; scraping would violate fair use" ].

End StubSources.

(* ===================================================================== *)
(** * adapters/unsplash.py *)
(* ===================================================================== *)

Module Unsplash.

(** An adapter object; its HTTP client is left out. *)
Record UnsplashAdapter : Type := mkUnsplashAdapter {
  config : Config.Settings
}.

Inductive ValueError : Type :=
| mkValueError (msg : string).

(** [UnsplashAdapter.__init__]. *)
Definition init (config : Config.Settings) : ValueError + UnsplashAdapter :=
  if negb (opt_truthy (Config.unsplash_access_key config)) then
    inl (mkValueError "UNSPLASH_ACCESS_KEY is required for Unsplash adapter")
  else inr (mkUnsplashAdapter config).

(** ** The answer of the search API *)

(** The values that [response.json()] gives.  The entries of a [JDict]
    have distinct keys. *)
#[local] Unset Elimination Schemes.
Inductive json : Type :=
| JNull
| JBool (b : bool)
| JInt (n : Z)
| JFloat (x : float)
| JStr (s : string)
| JList (items : list json)
| JDict (entries : list (string * json)).
#[local] Set Elimination Schemes.

(** What reading the answer can raise, and [RequestFailed] for what
    [_get] and [json()] end with when the request or the decoding fails
    ([RetryError] after the third attempt, a decoding error). *)
Inductive error : Type :=
| KeyError (key : string)
| AttributeError
| TypeError
| RequestFailed (msg : string).

Inductive outcome (A : Type) : Type :=
| Returns (a : A)
| Raises (e : error).
Arguments Returns {A} a.
Arguments Raises {A} e.

#[export] Instance outcome_ret : MRet outcome := fun _ a => Returns a.
#[export] Instance outcome_bind : MBind outcome := fun _ _ k c =>
  match c with
  | Returns a => k a
  | Raises e => Raises e
  end.

Fixpoint lookup_key (key : string) (entries : list (string * json))
  : option json :=
  match entries with
  | [] => None
  | (k, v) :: rest => if String.eqb k key then Some v else lookup_key key rest
  end.

(** [v.get(key, default)]: only a dict has the method. *)
Definition get (v : json) (key : string) (default : json) : outcome json :=
  match v with
  | JDict entries =>
      Returns (match lookup_key key entries with
               | Some x => x
               | None => default
               end)
  | _ => Raises AttributeError
  end.

(** [v[key]] with a text key. *)
Definition getitem (v : json) (key : string) : outcome json :=
  match v with
  | JDict entries =>
      match lookup_key key entries with
      | Some x => Returns x
      | None => Raises (KeyError key)
      end
  | _ => Raises TypeError
  end.

(** The truth value of a value. *)
Definition truthy (v : json) : bool :=
  match v with
  | JNull => false
  | JBool b => b
  | JInt n => negb (n =? 0)
  | JFloat (S754_zero _) => false
  | JFloat _ => true
  | JStr s => str_truthy s
  | JList [] => false
  | JList _ => true
  | JDict [] => false
  | JDict _ => true
  end.

(** The items that a [for] loop over a value goes through: the elements
    of a list, the keys of a dict, the characters of a text (here its
    bytes: every loop below fails on the first item of a text, whatever
    it is). *)
Definition iterate (v : json) : outcome (list json) :=
  match v with
  | JList items => Returns items
  | JDict entries => Returns (List.map (fun kv => JStr (fst kv)) entries)
  | JStr s =>
      Returns (List.map (fun c => JStr (String c EmptyString))
                 (list_ascii_of_string s))
  | _ => Raises TypeError
  end.

(** A [Candidate] as the adapter builds it: the dataclass checks no type,
    so the fields read from the answer hold whatever the answer held. *)
Record RawCandidate : Type := mkRawCandidate {
  raw_id : json;
  raw_source : string;
  raw_title : json;
  raw_source_page_url : json;
  raw_direct_url : json;
  raw_author : json;
  raw_license : string;
  raw_width : json;
  raw_height : json;
  raw_tags : list json
}.

(** [tuple(t.get("title", "") for t in ... if t.get("title"))]. *)
Fixpoint tag_titles (tags : list json) : outcome (list json) :=
  match tags with
  | [] => Returns []
  | t :: rest =>
      shown ← get t "title" JNull;
      if truthy shown then
        title ← get t "title" (JStr "");
        titles ← tag_titles rest;
        Returns (title :: titles)
      else tag_titles rest
  end.

(** The [Candidate(...)] call of [_fetch_page], its arguments in the
    order they are written. *)
Definition candidate_of_item (item : json) : outcome RawCandidate :=
  id ← getitem item "id";
  alt ← get item "alt_description" JNull;
  title ←
    (if truthy alt then Returns alt
     else
       description ← get item "description" JNull;
       Returns (if truthy description then description
                else JStr "unsplash"));
  links ← get item "links" (JDict []);
  source_page_url ← get links "html" (JStr "https://unsplash.com");
  urls ← get item "urls" (JDict []);
  direct_url ← get urls "raw" JNull;
  user ← get item "user" JNull;
  author ← get (if truthy user then user else JDict []) "name" JNull;
  width ← get item "width" JNull;
  height ← get item "height" JNull;
  tags ← get item "tags" (JList []);
  tags ← iterate tags;
  titles ← tag_titles tags;
  Returns (mkRawCandidate id "unsplash" title source_page_url direct_url
             author "Unsplash License" width height titles).

Fixpoint candidates_of_items (items : list json)
  : outcome (list RawCandidate) :=
  match items with
  | [] => Returns []
  | item :: rest =>
      candidate ← candidate_of_item item;
      candidates ← candidates_of_items rest;
      Returns (candidate :: candidates)
  end.

(** The part of [_fetch_page] that follows the request: [data] is the
    decoded answer. *)
Definition candidates_of_answer (data : json)
  : outcome (list RawCandidate) :=
  results ← get data "results" (JList []);
  items ← iterate results;
  candidates_of_items items.

Section Search.

(** The decoded answer of the search request for a query and a page, or
    what the request ends with when it fails. *)
Variable search_photos : string -> Z -> outcome json.

Definition _fetch_page (query : string) (page : Z)
  : outcome (list RawCandidate) :=
  data ← search_photos query page;
  candidates_of_answer data.

(** [range(1, page_limit + 1)]. *)
Definition pages (page_limit : Z) : list Z :=
  List.map Z.of_nat (seq 1 (Z.to_nat page_limit)).

(** [discover]: the pages are asked for together and their candidates
    put end to end in the order of the pages.  When a page fails,
    [gather] raises; which exception it is depends on which page fails
    first in time, so only the failure is kept here. *)
Definition discover (query : string) (page_limit : Z)
  : option (list RawCandidate) :=
  results ←
    mapM (fun page =>
            match _fetch_page query page with
            | Returns candidates => Some candidates
            | Raises _ => None
            end)
         (pages page_limit);
  Some (concat results).

End Search.

End Unsplash.

(* ===================================================================== *)
(** * cli.py *)
(* ===================================================================== *)

Module Cli.

(** What a run of the download pipeline can change or read: the file
    system, the set object [existing_hashes] that [fetch] shares with
    every call, and the clock. *)
Record World : Type := mkWorld {
  fs : Fs.FileSystem;
  hashes : gset string;
  clock : Models.datetime
}.

(** A step changes the world and then returns or raises; what was
    changed before an exception stays changed. *)
Definition M (A : Type) : Type := World -> World * result A.

#[export] Instance M_ret : MRet M := fun _ a w => (w, Ok a).
#[export] Instance M_bind : MBind M := fun _ _ k c w =>
  match c w with
  | (w', Ok a) => k a w'
  | (w', Raise e) => (w', Raise e)
  end.

Definition lift {A} (c : result A) : M A := fun w => (w, c).
Definition get_world : M World := fun w => (w, Ok w).
Definition with_fs (fs' : Fs.FileSystem) (w : World) : World :=
  mkWorld fs' (hashes w) (clock w).
Definition fs_step (op : Fs.FileSystem -> Fs.FileSystem * result unit)
  : M unit :=
  fun w => let '(fs', r) := op (fs w) in (with_fs fs' w, r).
Definition add_hash (h : string) : M unit :=
  fun w => (mkWorld (fs w) ({[ h ]} ∪ hashes w) (clock w), Ok tt).

(** The objects that [build_adapters] puts in its list. *)
Inductive Adapter : Type :=
| UnsplashSource (a : Unsplash.UnsplashAdapter)
| StubSource (a : StubSources.DisallowedAdapter).

Definition build_adapters (config : Config.Settings)
    (source : option string) : list Adapter :=
  let adapters := [] in
  let adapters :=
    if match source with
       | None => true
       | Some s => String.eqb s "unsplash"
       end
       && opt_truthy (Config.unsplash_access_key config)
    then
      match Unsplash.init config with
      | inr a => adapters ++ [UnsplashSource a]
      | inl (Unsplash.mkValueError _) => adapters
      end
    else adapters in
  match source with
  | None =>
      adapters ++ List.map StubSource StubSources.build_default_stub_adapters
  | Some _ => adapters
  end.

(** The part of [set] that chooses the picture: the path given, or else
    with [latest] the first answer of [list_recent(1)].  [None] is the
    case in which [set] prints that no image is found and exits with
    code 1. *)
Definition set_target (latest : bool) (path : option Models.Path)
    (db : Db.Database) : result (option Models.Path) :=
  let target := path in
  if latest && negb (bool_decide (is_Some target)) then
    recents ← Db.list_recent db 1;
    match recents with
    | first :: _ => Ok (Some (fst first))
    | [] => Ok target
    end
  else Ok target.

Definition candidate_filename (candidate : Models.Candidate) : string :=
  let stem :=
    if str_truthy (Models.title candidate)
    then str_replace " " "-" (Models.title candidate)
    else Models.id candidate in
  Models.id candidate +:+ "-" +:+ stem +:+ ".jpg".

Section WithExternals.
Context `{Externals}.

(** The part of [download_candidate] after the duplicate check: decode
    the size, score, write the image, hash it, write the sidecar, and
    remember the hashes. *)
Definition store_candidate (candidate : Models.Candidate)
    (cfg : Config.Config) (output_dir : Models.Path)
    (data : bytes) (sha256 : string) : M (option Models.DownloadInfo) :=
  '(width, height) ← lift (image_size data);
  suitability ← lift (ImageOps.evaluate_suitability
                        (width, height)
                        (Config.target_resolution cfg)
                        (Config.tolerance cfg)
                        (Config.allow_crop cfg)
                        (Config.allow_upscale cfg));
  if String.eqb (ImageOps.category suitability) "reject" then mret None
  else
    let target_dir := joinpath output_dir (Models.source candidate) in
    fs_step (Fs.mkdir target_dir);;
    let file_path := joinpath target_dir (candidate_filename candidate) in
    fs_step (Fs.write_bytes file_path data);;
    w ← get_world;
    phash_value ← lift (Dedup.phash_of_file (fs w) file_path);
    let info :=
      Models.mkDownloadInfo candidate file_path sha256 (Some phash_value)
        width height (Z.of_nat (length data))
        (ImageOps.category suitability) (ImageOps.reason suitability)
        (clock w) in
    let meta_path := with_suffix file_path ".json" in
    fs_step (Fs.write_text meta_path
               (sidecar_json candidate width height
                  (ImageOps.category suitability)
                  (ImageOps.reason suitability)));;
    add_hash sha256;;
    (if str_truthy phash_value then add_hash phash_value else mret tt);;
    mret (Some info).

Definition download_candidate (candidate : Models.Candidate)
    (cfg : Config.Config) (output_dir : Models.Path)
  : M (option Models.DownloadInfo) :=
  match Models.direct_url candidate with
  | None => mret None
  | Some url =>
      if negb (str_truthy url) then mret None
      else
        data ← lift (http_get url);
        let sha256 := Dedup.compute_sha256 data in
        w ← get_world;
        if Dedup.is_duplicate (hashes w) sha256 None then mret None
        else store_candidate candidate cfg output_dir data sha256
  end.

(** One turn of the inner loop of [fetch]'s [runner], console output
    left out: the candidate is skipped when it is unsupported or on a dry
    run; otherwise it is downloaded and recorded, and any exception of
    the download or of the recording is swallowed.  Ending the run once
    [limit] pictures are downloaded is left to whoever iterates this
    step. *)
Definition fetch_candidate (cand : Models.Candidate) (cfg : Config.Config)
    (query : string) (dry_run : bool)
    (st : World * Db.Database * list Models.DownloadInfo)
  : World * Db.Database * list Models.DownloadInfo :=
  let '(w, db, downloaded) := st in
  if opt_truthy (Models.unsupported_reason cand) then st
  else if dry_run then st
  else
    match download_candidate cand cfg (Config.output_dir cfg) w with
    | (w', Ok (Some info)) =>
        match Db.record_download db info (Some query) with
        | Ok db' => (w', db', downloaded ++ [info])
        | Raise _ => (w', db, downloaded)
        end
    | (w', Ok None) => (w', db, downloaded)
    | (w', Raise _) => (w', db, downloaded)
    end.

Section Runner.

(** What [UnsplashAdapter.discover] answers for a query and a page limit.
    It depends on the network alone; how the candidates are read from
    the answer of the search is [Unsplash.discover], and they are taken
    here with the types that [Candidate] declares. *)
Variable unsplash_discover :
  Unsplash.UnsplashAdapter -> string -> Z -> result (list Models.Candidate).

(** [adapter.discover(query, page_limit)], by the class of the adapter. *)
Definition adapter_discover (adapter : Adapter) (query : string)
    (page_limit : Z) : result (list Models.Candidate) :=
  match adapter with
  | UnsplashSource a => unsplash_discover a query page_limit
  | StubSource a => StubSources.discover a query page_limit
  end.

(** The inner loop of [runner] in [fetch].  Console output is left out,
    printing being taken not to fail, except for what building a line can
    raise: the [Saved] line formats the file size inside the [try], so
    that a failure there skips the test of [limit].  A recording that
    raises is caught by the same [try]: the picture is on disk and its
    hashes are in the set, but it is neither in the table nor in the list
    of downloads.  The flag tells that [runner] has returned. *)
Fixpoint run_candidates (candidates : list Models.Candidate)
    (cfg : Config.Config) (query : string) (limit : Z) (dry_run : bool)
    (st : World * Db.Database * list Models.DownloadInfo)
  : World * Db.Database * list Models.DownloadInfo * bool :=
  match candidates with
  | [] => (st, false)
  | cand :: rest =>
      let '(w, db, downloaded) := st in
      if opt_truthy (Models.unsupported_reason cand) then
        run_candidates rest cfg query limit dry_run st
      else if dry_run then
        run_candidates rest cfg query limit dry_run st
      else
        match download_candidate cand cfg (Config.output_dir cfg) w with
        | (w', Ok (Some info)) =>
            match Db.record_download db info (Some query) with
            | Ok db' =>
                let downloaded' := downloaded ++ [info] in
                match Utils.human_size (Models.file_size info) with
                | Ok _ =>
                    if Z.of_nat (length downloaded') >=? limit then
                      (w', db', downloaded', true)
                    else
                      run_candidates rest cfg query limit dry_run
                        (w', db', downloaded')
                | Raise _ =>
                    run_candidates rest cfg query limit dry_run
                      (w', db', downloaded')
                end
            | Raise _ =>
                run_candidates rest cfg query limit dry_run
                  (w', db, downloaded)
            end
        | (w', Ok None) =>
            run_candidates rest cfg query limit dry_run (w', db, downloaded)
        | (w', Raise _) =>
            run_candidates rest cfg query limit dry_run (w', db, downloaded)
        end
  end.

(** [runner]: the adapters in turn.  An exception of [discover] is not
    caught and ends the run; what was stored before stays stored. *)
Fixpoint runner (adapters : list Adapter)
    (cfg : Config.Config) (query : string) (limit : Z) (dry_run : bool)
    (st : World * Db.Database * list Models.DownloadInfo)
  : World * Db.Database * list Models.DownloadInfo * result unit :=
  match adapters with
  | [] => (st, Ok tt)
  | adapter :: rest =>
      match adapter_discover adapter query (Config.page_limit cfg) with
      | Raise e => (st, Raise e)
      | Ok candidates =>
          let '(st', returned) :=
            run_candidates candidates cfg query limit dry_run st in
          if returned then (st', Ok tt)
          else runner rest cfg query limit dry_run st'
      end
  end.

End Runner.

End WithExternals.

End Cli.

(* ===================================================================== *)
(** * A small concrete world, to run the definitions on *)
(* ===================================================================== *)

Module Demo.

(** Toy libraries: a picture file is its width, its height and its pixel
    bytes; a file with no pixel byte has a readable header but cannot be
    decoded. *)
Definition demo_http_get (url : string) : result bytes :=
  if String.eqb url "https://img.example/full.jpg" then
    Ok [Byte.x06; Byte.x02; Byte.xff]
  else if String.eqb url "https://img.example/truncated.jpg" then
    Ok [Byte.x06; Byte.x02]
  else Raise (HTTPError "404 Not Found").

Definition demo_image_size (data : bytes) : result (Z * Z) :=
  match data with
  | w :: h :: _ => Ok (Z.of_N (Byte.to_N w), Z.of_N (Byte.to_N h))
  | _ => Raise (ImageError "cannot identify image file")
  end.

Definition demo_image_phash (data : bytes) : result string :=
  match data with
  | _ :: _ :: px :: _ => Ok ("ph" +:+ pretty (Byte.to_N px))
  | _ => Raise (ImageError "image file is truncated")
  end.

(** The text before the first [stop] and the text after it. *)
Fixpoint split_at (stop : ascii) (s : string) : string * string :=
  match s with
  | EmptyString => (EmptyString, EmptyString)
  | String c rest =>
      if Ascii.eqb c stop then (EmptyString, rest)
      else let '(before, after) := split_at stop rest in
           (String c before, after)
  end.

(** The scheme and the network location of a URL of the shape
    [scheme://netloc/...]. *)
Definition demo_urlsplit (url : string) : string * string :=
  let '(scheme, rest) := split_at ":" url in
  match rest with
  | String "/" (String "/" rest) => (scheme, fst (split_at "/" rest))
  | _ => (scheme, EmptyString)
  end.

Fixpoint has_char (c : ascii) (s : string) : bool :=
  match s with
  | EmptyString => false
  | String c' rest => Ascii.eqb c' c || has_char c rest
  end.

(** A bracket without its partner is not a host. *)
Definition demo_urlparse_error (url : string) : option string :=
  if xorb (has_char "[" url) (has_char "]" url)
  then Some "Invalid IPv6 URL" else None.

(** The texts that end before a [/] of a path, the shortest first. *)
Fixpoint directories_above (seen path : string) : list string :=
  match path with
  | EmptyString => []
  | String c rest =>
      if Ascii.eqb c "/" then
        seen :: directories_above (seen +:+ "/") rest
      else directories_above (seen +:+ String c EmptyString) rest
  end.

(** A path read backwards, without its suffix: the characters after the
    last dot of the name, a dot that opens the name being none. *)
Fixpoint drop_suffix (reversed : list ascii) : option (list ascii) :=
  match reversed with
  | [] => None
  | c :: rest =>
      if Ascii.eqb c "/" then None
      else if Ascii.eqb c "." then
        match rest with
        | [] => None
        | c' :: _ => if Ascii.eqb c' "/" then None else Some rest
        end
      else drop_suffix rest
  end.

Definition demo_with_suffix (path suffix : string) : string :=
  match drop_suffix (rev (list_ascii_of_string path)) with
  | Some stem => string_of_list_ascii (rev stem) +:+ suffix
  | None => path +:+ suffix
  end.

(** [path.parents] of a relative path: the last is the current
    directory. *)
Definition demo_parents (path : string) : list string :=
  if String.eqb path "." then []
  else rev (directories_above EmptyString path) ++ ["."].

#[export] Instance demo_externals : Externals := {|
  hexdigest_sha256 := fun data => "sha" +:+ string_of_list_byte data;
  http_get := demo_http_get;
  image_size := demo_image_size;
  image_phash := demo_image_phash;
  urlsplit := demo_urlsplit;
  urlparse_error := demo_urlparse_error;
  robots_allows := fun _ _ _ => false;
  joinpath := fun a b => a +:+ "/" +:+ b;
  with_suffix := demo_with_suffix;
  parents := demo_parents;
  os_error := fun _ => None;
  isoformat := fun t => pretty t;
  sidecar_json := fun _ _ _ _ _ => "{}"
|}.

Definition demo_candidate (url : string) : Models.Candidate :=
  Models.mkCandidate "abc123" "unsplash" "blue lake" "https://example.org/p"
    (Some url) None None None None [] None.

Definition demo_config : Config.Config :=
  Config.mkConfig 3 2 2 f0_1 true false "library" 3.

(** A world with no file yet: the current directory alone is there. *)
Definition demo_world (known : gset string) : Cli.World :=
  Cli.mkWorld (Fs.mkFileSystem ∅ {[ "." ]}) known 0.

Definition demo_info (sha : string) (path : string) : Models.DownloadInfo :=
  Models.mkDownloadInfo (demo_candidate "https://img.example/full.jpg")
    path sha None 6 2 3 "perfect" "Matches target within tolerance" 0.

(** What [download_candidate] returns for the picture at [full.jpg]. *)
Definition demo_stored_info : Models.DownloadInfo :=
  Models.mkDownloadInfo (demo_candidate "https://img.example/full.jpg")
    "library/unsplash/abc123-blue-lake.jpg"
    (hexdigest_sha256 [Byte.x06; Byte.x02; Byte.xff])
    (Some "ph255") 6 2 3 "perfect" "Matches target within tolerance" 0.

Definition demo_settings (key : option string) : Config.Settings :=
  Config.mkSettings demo_config "library/wallpaperbot.db" f1_0 4 key false.

(** A search that finds the two demo pictures, whatever is asked. *)
Definition demo_unsplash_discover (a : Unsplash.UnsplashAdapter)
    (query : string) (page_limit : Z) : result (list Models.Candidate) :=
  Ok [ demo_candidate "https://img.example/truncated.jpg";
       demo_candidate "https://img.example/full.jpg";
       demo_candidate "https://img.example/full.jpg" ].

(** The answer that the test of the adapter mocks. *)
Definition demo_answer : Unsplash.json :=
  Unsplash.JDict
    [ ("results",
       Unsplash.JList
         [ Unsplash.JDict
             [ ("id", Unsplash.JStr "abc123");
               ("alt_description", Unsplash.JStr "mountain");
               ("links",
                Unsplash.JDict
                  [("html", Unsplash.JStr
                              "https://unsplash.com/photos/abc123")]);
               ("urls",
                Unsplash.JDict
                  [("raw", Unsplash.JStr
                             "https://images.unsplash.com/photo.jpg")]);
               ("user", Unsplash.JDict [("name", Unsplash.JStr "Jane")]);
               ("width", Unsplash.JInt 6000);
               ("height", Unsplash.JInt 2000);
               ("tags",
                Unsplash.JList
                  [Unsplash.JDict [("title", Unsplash.JStr "mountain")]])
             ] ]) ].

Definition demo_search_photos (query : string) (page : Z)
  : Unsplash.outcome Unsplash.json :=
  if page =? 1 then Unsplash.Returns demo_answer
  else Unsplash.Raises (Unsplash.RequestFailed "RetryError").

End Demo.


(* ===================================================================== *)
(** * Notions used to state the properties *)
(* ===================================================================== *)

Module Spec.

(** [stem] is [text] with every space turned into a hyphen and every other
    character kept, position by position. *)
Definition spaces_as_hyphens (text stem : string) : Prop :=
  String.length stem = String.length text /\
  forall i : nat,
    String.get i stem =
    match String.get i text with
    | Some ch => Some (if Ascii.eqb ch " " then "-"%char else ch)
    | None => None
    end.


(** The exponent that binary64 gives to a number of magnitude [2 ^ e]:
    [fexp] of the Standard Library at precision 53. *)
Definition fexp64 (e : Z) : Z := Z.max (e - 53) (-1074).

(** By how many bits rounding shifts a mantissa [m] with exponent [e]. *)
Definition shift_count (m e : Z) : Z :=
  Z.max 0 (fexp64 (Zdigits2 m + e) - e).

(** The integer part of a float. *)
Definition float_to_int (x : float) : Z :=
  match x with
  | S754_finite s m e =>
      let v := if 0 <=? e then Zpos m * 2 ^ e else Zpos m / 2 ^ (- e) in
      if s then - v else v
  | _ => 0
  end.

(** The unit names of [human_size], by the number of divisions made. *)
Definition unit_name (k : Z) : string :=
  if k =? 0 then "B" else if k =? 1 then "KB" else if k =? 2 then "MB"
  else if k =? 3 then "GB" else "TB".

(** Unit [k] is the largest of the five units for which [n] divided [k]
    times by 1024 is below 1024. *)
Definition largest_unit_below (n k : Z) : Prop :=
  0 <= k <= 4 /\ n < 1024 * 1024 ^ k /\
  forall j, 0 <= j <= 4 -> n < 1024 * 1024 ^ j -> j <= k.

(** The four answers of the suitability evaluator: category and score. *)
Definition outcomes : list (string * float) :=
  [ ("perfect", f1_0); ("croppable", f0_8);
    ("upscalable", f0_4); ("reject", f0_0) ].

(** The ordered decision list of the evaluator on a picture with positive
    sides: [fits] says that the picture is at least as large as the target
    in both dimensions, [within] that its aspect ratio is within tolerance
    of the target's.  The first rule that applies gives the answer. *)
Inductive decision_list (fits within allow_crop allow_upscale : bool)
  : string -> float -> Prop :=
| rule_perfect :
    fits = true -> within = true ->
    decision_list fits within allow_crop allow_upscale "perfect" f1_0
| rule_croppable :
    fits = true -> within = false -> allow_crop = true ->
    decision_list fits within allow_crop allow_upscale "croppable" f0_8
| rule_upscalable :
    fits = false -> within = true -> allow_upscale = true ->
    decision_list fits within allow_crop allow_upscale "upscalable" f0_4
| rule_reject :
    (fits = false \/ within = false) ->
    (fits = false \/ allow_crop = false) ->
    (allow_upscale = false \/ within = false) ->
    decision_list fits within allow_crop allow_upscale "reject" f0_0.

(** A float that is zero or positive, and neither infinite nor a NaN. *)
Definition nonneg_finite (x : float) : Prop :=
  match x with
  | S754_zero _ => True
  | S754_finite false _ _ => True
  | _ => False
  end.

(** Does a text hold a space? *)
Fixpoint has_space (s : string) : bool :=
  match s with
  | EmptyString => false
  | String c rest => Ascii.eqb c " " || has_space rest
  end.

(** ** The table *)

(** The groups of an answer have their keys in strictly increasing
    order. *)
Definition groups_sorted (groups : list (option string * Z)) : Prop :=
  StronglySorted (fun x y => Db.compare_text (fst x) (fst y) = Lt) groups.

(** The rows come latest first by [downloaded_at]: none is followed by a
    row with a greater value ([NULL] being below every text). *)
Definition recent_first (rows : list Db.Row) : Prop :=
  StronglySorted
    (fun x y => Db.compare_text (Db.downloaded_at x) (Db.downloaded_at y)
                <> Lt) rows.

(** The number of rows whose [suitability] is [g]. *)
Definition rows_in_group (g : option string) (rows : list Db.Row) : Z :=
  Z.of_nat (length (List.filter
                      (fun r => bool_decide (Db.suitability r = g)) rows)).

(** The sum of the counts of the groups with key [g], and of all. *)
Definition group_count (g : option string)
    (groups : list (option string * Z)) : Z :=
  fold_right (fun x acc => if bool_decide (fst x = g) then snd x + acc
                           else acc) 0 groups.

Definition groups_total (groups : list (option string * Z)) : Z :=
  fold_right (fun x acc => snd x + acc) 0 groups.

(** The sum of the values of a dict of counts. *)
Definition dict_total (d : gmap string Z) : Z :=
  map_fold (fun _ n acc => n + acc) 0 d.


(** A download whose three integers SQLite can hold. *)
Definition bindable (info : Models.DownloadInfo) : bool :=
  Db.int64 (Models.info_width info) && Db.int64 (Models.info_height info)
  && Db.int64 (Models.file_size info).

(** The world once a picture and its sidecar are stored, the file system
    being then [fs'], and its hashes remembered. *)
Definition stored_world (fs' : Fs.FileSystem) (sha ph : string)
    (w : Cli.World) : Cli.World :=
  Cli.mkWorld fs'
    (if str_truthy ph then {[ ph ]} ∪ ({[ sha ]} ∪ Cli.hashes w)
     else {[ sha ]} ∪ Cli.hashes w)
    (Cli.clock w).

Section WithExternals.
Context `{Externals}.

(** The row that [record_download] makes of a download and a query,
    under a given row id. *)
Definition row_of (info : Models.DownloadInfo) (query : option string)
    (rowid : Z) : Db.Row :=
  let c := Models.candidate info in
  Db.mkRow rowid
    (Models.source c)
    (Models.source_page_url c)
    (Models.direct_url c)
    (Some (Models.title c))
    (Models.author c)
    (Models.license c)
    (Some (Models.info_width info))
    (Some (Models.info_height info))
    (Some (Models.file_size info))
    (Models.sha256 info)
    (Models.phash info)
    (Models.file_path info)
    (Some (Models.suitability info))
    (Some (Models.suitability_reason info))
    (Some (isoformat (Models.downloaded_at info)))
    query.

(** A sequence of recordings, each with its query, made as the loop of
    [fetch] makes them: one that raises leaves the table as it is. *)
Definition record_all (infos : list (Models.DownloadInfo * option string))
    (db : Db.Database) : Db.Database :=
  fold_left
    (fun db iq =>
       match Db.record_download db (fst iq) (snd iq) with
       | Ok db' => db'
       | Raise _ => db
       end)
    infos db.

(** The directory of a candidate's source, the path of its picture and
    the path of its sidecar under an output directory. *)
Definition target_dir (out : Models.Path) (c : Models.Candidate)
  : Models.Path :=
  joinpath out (Models.source c).

Definition picture_path (out : Models.Path) (c : Models.Candidate)
  : Models.Path :=
  joinpath (target_dir out c) (Cli.candidate_filename c).

Definition sidecar_path (out : Models.Path) (c : Models.Candidate)
  : Models.Path :=
  with_suffix (picture_path out c) ".json".

(** The candidates that the adapters of a run answer with. *)
Definition discovered
    (unsplash_discover :
       Unsplash.UnsplashAdapter -> string -> Z ->
       result (list Models.Candidate))
    (adapters : list Cli.Adapter) (query : string) (page_limit : Z)
    (c : Models.Candidate) : Prop :=
  exists a candidates,
    In a adapters /\
    Cli.adapter_discover unsplash_discover a query page_limit
      = Ok candidates /\
    In c candidates.

End WithExternals.

(** ** The state of a run of [fetch] *)

Definition run_state : Type :=
  (Cli.World * Db.Database * list Models.DownloadInfo)%type.
Definition run_world (st : run_state) : Cli.World := fst (fst st).
Definition run_db (st : run_state) : Db.Database := snd (fst st).
Definition run_downloaded (st : run_state) : list Models.DownloadInfo :=
  snd st.

(** ** Raw candidates read with the types that the dataclass declares *)

Definition is_dict (v : Unsplash.json) : bool :=
  match v with Unsplash.JDict _ => true | _ => false end.





End Spec.

(* ===================================================================== *)
(** * Properties *)
(* ===================================================================== *)

(** ** dedup.py *)

Section DedupFacts.

Lemma is_duplicate_true (E : gset string) (s : string) (p : option string) :
  Dedup.is_duplicate E s p = true <->
  s ∈ E \/ exists h, p = Some h /\ h ∈ E.
Proof.
  unfold Dedup.is_duplicate.
  destruct (bool_decide (s ∈ E)) eqn:Hs.
  - apply bool_decide_eq_true in Hs. split; auto.
  - apply bool_decide_eq_false in Hs.
    destruct p as [h|].
    + rewrite bool_decide_eq_true. split.
      * intros Hh. right. exists h. auto.
      * intros [Hin | (h' & Heq & Hin)]; [ contradiction | ].
        injection Heq as ->. exact Hin.
    + split; [ discriminate | ].
      intros [Hin | (h' & Heq & _)]; [ contradiction | discriminate ].
Qed.

(** C7.  [is_duplicate] answers true exactly when the content hash is in
    the set of known hashes, or a perceptual hash is given and is in the
    set; it answers false exactly when neither is there. *)
Theorem is_duplicate_spec (E : gset string) (s : string)
    (p : option string) :
  (Dedup.is_duplicate E s p = true <->
     s ∈ E \/ exists h, p = Some h /\ h ∈ E) /\
  (Dedup.is_duplicate E s p = false <->
     (s ∉ E) /\ (forall h, p = Some h -> h ∉ E)).
Proof.
  split; [ apply is_duplicate_true | ].
  rewrite <- not_true_iff_false, is_duplicate_true.
  split.
  - intros Hn. split.
    + intros Hs. apply Hn. left. exact Hs.
    + intros h Hp Hh. apply Hn. right. exists h. auto.
  - intros [Hs Hp] [Hin | (h & Heq & Hin)].
    + exact (Hs Hin).
    + exact (Hp h Heq Hin).
Qed.

Lemma is_duplicate_no_phash (E : gset string) (s : string) :
  Dedup.is_duplicate E s None = bool_decide (s ∈ E).
Proof.
  unfold Dedup.is_duplicate. destruct (bool_decide (s ∈ E)); reflexivity.
Qed.

End DedupFacts.

(** ** The file system *)

Section FsFacts.
Context `{Externals}.

Lemma make_parents_files (ancestors : list string) (fs : Fs.FileSystem) :
  Fs.files (fst (Fs.make_parents ancestors fs)) = Fs.files fs.
Proof.
  revert fs. induction ancestors as [| d rest IH]; intros fs; simpl.
  - reflexivity.
  - destruct (Fs.is_dir d fs); [ apply IH | ].
    destruct (Fs.is_file d fs); [ reflexivity | ].
    destruct (os_error d); [ reflexivity | ].
    rewrite IH. reflexivity.
Qed.

Lemma make_parents_directories (ancestors : list string)
    (fs : Fs.FileSystem) (d : string) :
  d ∈ Fs.directories (fst (Fs.make_parents ancestors fs)) ->
  d ∈ Fs.directories fs \/ In d ancestors.
Proof.
  revert fs. induction ancestors as [| a rest IH]; intros fs; simpl.
  - auto.
  - destruct (Fs.is_dir a fs).
    { intros Hd. destruct (IH _ Hd); auto. }
    destruct (Fs.is_file a fs); [ auto | ].
    destruct (os_error a); [ auto | ].
    intros Hd. destruct (IH _ Hd) as [Hin | Hin]; [ | auto ].
    unfold Fs.add_directory in Hin. cbn [Fs.directories] in Hin.
    apply elem_of_union in Hin. rewrite elem_of_singleton in Hin.
    destruct Hin as [-> | Hin]; auto.
Qed.

Lemma make_parents_grows (ancestors : list string) (fs : Fs.FileSystem) :
  Fs.directories fs ⊆ Fs.directories (fst (Fs.make_parents ancestors fs)).
Proof.
  revert fs. induction ancestors as [| a rest IH]; intros fs; simpl.
  - reflexivity.
  - destruct (Fs.is_dir a fs); [ apply IH | ].
    destruct (Fs.is_file a fs); [ reflexivity | ].
    destruct (os_error a); [ reflexivity | ].
    etransitivity; [ | apply IH ].
    unfold Fs.add_directory. cbn [Fs.directories]. set_solver.
Qed.

(** [mkdir] touches no regular file. *)
Lemma mkdir_files (path : string) (fs : Fs.FileSystem) :
  Fs.files (fst (Fs.mkdir path fs)) = Fs.files fs.
Proof.
  unfold Fs.mkdir.
  destruct (Fs.is_dir path fs); [ reflexivity | ].
  destruct (Fs.is_file path fs); [ reflexivity | ].
  pose proof (make_parents_files (rev (parents path)) fs) as Hf.
  destruct (Fs.make_parents (rev (parents path)) fs) as [fs' [u | e]];
    cbn [fst] in *; [ | exact Hf ].
  destruct (os_error path); exact Hf.
Qed.

(** The directories it makes are the one asked for and directories above
    it, whether it returns or raises. *)
Lemma mkdir_directories (path : string) (fs : Fs.FileSystem) (d : string) :
  d ∈ Fs.directories (fst (Fs.mkdir path fs)) ->
  d ∈ Fs.directories fs \/ d = path \/ In d (parents path).
Proof.
  unfold Fs.mkdir.
  destruct (Fs.is_dir path fs); [ auto | ].
  destruct (Fs.is_file path fs); [ auto | ].
  pose proof (make_parents_directories (rev (parents path)) fs d) as Hd.
  destruct (Fs.make_parents (rev (parents path)) fs) as [fs' [u | e]];
    cbn [fst] in *.
  - destruct (os_error path); cbn [fst].
    + intros Hin. destruct (Hd Hin) as [? | Hr]; [ auto | ].
      right. right. apply in_rev. exact Hr.
    + unfold Fs.add_directory. cbn [Fs.directories].
      rewrite elem_of_union, elem_of_singleton.
      intros [-> | Hin]; [ auto | ].
      destruct (Hd Hin) as [? | Hr]; [ auto | ].
      right. right. apply in_rev. exact Hr.
  - intros Hin. destruct (Hd Hin) as [? | Hr]; [ auto | ].
    right. right. apply in_rev. exact Hr.
Qed.

Lemma mkdir_grows (path : string) (fs : Fs.FileSystem) :
  Fs.directories fs ⊆ Fs.directories (fst (Fs.mkdir path fs)).
Proof.
  unfold Fs.mkdir.
  destruct (Fs.is_dir path fs); [ reflexivity | ].
  destruct (Fs.is_file path fs); [ reflexivity | ].
  pose proof (make_parents_grows (rev (parents path)) fs) as Hg.
  destruct (Fs.make_parents (rev (parents path)) fs) as [fs' [u | e]];
    cbn [fst] in *; [ | exact Hg ].
  destruct (os_error path); cbn [fst]; [ exact Hg | ].
  unfold Fs.add_directory. cbn [Fs.directories]. set_solver.
Qed.

(** A write that returns has put the bytes at the path and changed
    nothing else; one that raises has changed nothing. *)
Lemma write_bytes_cases (path : string) (data : bytes)
    (fs fs' : Fs.FileSystem) (r : result unit) :
  Fs.write_bytes path data fs = (fs', r) ->
  (r = Ok tt /\
   fs' = Fs.mkFileSystem (<[ path := data ]> (Fs.files fs))
           (Fs.directories fs)) \/
  ((exists e, r = Raise e) /\ fs' = fs).
Proof.
  unfold Fs.write_bytes.
  destruct (Fs.is_dir path fs); [ intros [= <- <-]; eauto | ].
  destruct (parents path) as [| parent ancestors];
    [ intros [= <- <-]; eauto | ].
  destruct (existsb _ _); [ intros [= <- <-]; eauto | ].
  destruct (negb _); [ intros [= <- <-]; eauto | ].
  destruct (os_error path); intros [= <- <-]; eauto.
Qed.

Lemma write_bytes_ok (path : string) (data : bytes)
    (fs fs' : Fs.FileSystem) (u : unit) :
  Fs.write_bytes path data fs = (fs', Ok u) ->
  fs' = Fs.mkFileSystem (<[ path := data ]> (Fs.files fs))
          (Fs.directories fs).
Proof.
  intros Hw. destruct (write_bytes_cases _ _ _ _ _ Hw)
    as [[_ Heq] | [[e He] _]]; [ exact Heq | discriminate ].
Qed.

Lemma write_bytes_raise (path : string) (data : bytes)
    (fs fs' : Fs.FileSystem) (e : exn) :
  Fs.write_bytes path data fs = (fs', Raise e) -> fs' = fs.
Proof.
  intros Hw. destruct (write_bytes_cases _ _ _ _ _ Hw)
    as [[He _] | [_ Heq]]; [ discriminate | exact Heq ].
Qed.

(** The file that was just written reads back as it was written. *)
Lemma phash_of_written_file (path : string) (data : bytes)
    (fs fs' : Fs.FileSystem) (u : unit) :
  Fs.write_bytes path data fs = (fs', Ok u) ->
  Dedup.phash_of_file fs' path = image_phash data.
Proof.
  intros Hw. rewrite (write_bytes_ok _ _ _ _ _ Hw).
  unfold Dedup.phash_of_file, Fs.read_bytes. cbn [Fs.files].
  rewrite lookup_insert_eq. reflexivity.
Qed.

End FsFacts.

(** ** cli.py: the steps of download_candidate *)

Section PipelineCases.
Context `{Externals}.

Lemma store_candidate_cases (c : Models.Candidate) (cfg : Config.Config)
    (out : Models.Path) (data : bytes) (sha : string) (w : Cli.World) :
  Cli.store_candidate c cfg out data sha w =
  match image_size data with
  | Raise e => (w, Raise e)
  | Ok (width, height) =>
      match ImageOps.evaluate_suitability (width, height)
              (Config.target_resolution cfg) (Config.tolerance cfg)
              (Config.allow_crop cfg) (Config.allow_upscale cfg) with
      | Raise e => (w, Raise e)
      | Ok s =>
          if String.eqb (ImageOps.category s) "reject" then (w, Ok None)
          else
            let file_path := Spec.picture_path out c in
            match Fs.mkdir (Spec.target_dir out c) (Cli.fs w) with
            | (fs1, Raise e) => (Cli.with_fs fs1 w, Raise e)
            | (fs1, Ok _) =>
                match Fs.write_bytes file_path data fs1 with
                | (fs2, Raise e) => (Cli.with_fs fs2 w, Raise e)
                | (fs2, Ok _) =>
                    match image_phash data with
                    | Raise e => (Cli.with_fs fs2 w, Raise e)
                    | Ok ph =>
                        match Fs.write_text (Spec.sidecar_path out c)
                                (sidecar_json c width height
                                   (ImageOps.category s) (ImageOps.reason s))
                                fs2 with
                        | (fs3, Raise e) => (Cli.with_fs fs3 w, Raise e)
                        | (fs3, Ok _) =>
                            (Spec.stored_world fs3 sha ph w,
                             Ok (Some (Models.mkDownloadInfo c file_path sha
                                         (Some ph) width height
                                         (Z.of_nat (length data))
                                         (ImageOps.category s)
                                         (ImageOps.reason s)
                                         (Cli.clock w))))
                        end
                    end
                end
            end
      end
  end.
Proof.
  unfold Cli.store_candidate.
  unfold mbind, Cli.M_bind, Cli.lift, Cli.get_world, Cli.fs_step.
  destruct (image_size data) as [[width height] | e]; [ | reflexivity ].
  cbn beta iota.
  destruct (ImageOps.evaluate_suitability _ _ _ _ _) as [s | e];
    [ | reflexivity ].
  destruct (String.eqb (ImageOps.category s) "reject"); [ reflexivity | ].
  cbn beta iota zeta.
  fold (Spec.target_dir out c). fold (Spec.picture_path out c).
  fold (Spec.sidecar_path out c).
  destruct (Fs.mkdir (Spec.target_dir out c) (Cli.fs w)) as [fs1 [u1 | e]];
    [ | reflexivity ].
  cbn [Cli.with_fs Cli.fs Cli.hashes Cli.clock].
  destruct (Fs.write_bytes (Spec.picture_path out c) data fs1)
    as [fs2 [u2 | e]] eqn:Hwrite; [ | reflexivity ].
  cbn [Cli.with_fs Cli.fs Cli.hashes Cli.clock].
  rewrite (phash_of_written_file _ _ _ _ _ Hwrite).
  destruct (image_phash data) as [ph | e]; [ | reflexivity ].
  destruct (Fs.write_text _ _ fs2) as [fs3 [u3 | e]]; [ | reflexivity ].
  unfold Spec.stored_world, Cli.add_hash.
  cbn [Cli.with_fs Cli.fs Cli.hashes Cli.clock].
  destruct (str_truthy ph); reflexivity.
Qed.

Lemma download_candidate_cases (c : Models.Candidate) (cfg : Config.Config)
    (out : Models.Path) (w : Cli.World) :
  Cli.download_candidate c cfg out w =
  match Models.direct_url c with
  | None => (w, Ok None)
  | Some url =>
      if str_truthy url then
        match http_get url with
        | Raise e => (w, Raise e)
        | Ok data =>
            if bool_decide (Dedup.compute_sha256 data ∈ Cli.hashes w)
            then (w, Ok None)
            else Cli.store_candidate c cfg out data
                   (Dedup.compute_sha256 data) w
        end
      else (w, Ok None)
  end.
Proof.
  unfold Cli.download_candidate.
  destruct (Models.direct_url c) as [url|]; [ | reflexivity ].
  destruct (str_truthy url); [ | reflexivity ].
  cbn [negb].
  unfold mbind, Cli.M_bind, Cli.lift, Cli.get_world.
  destruct (http_get url) as [data | e]; [ | reflexivity ].
  rewrite is_duplicate_no_phash.
  destruct (bool_decide _); reflexivity.
Qed.

End PipelineCases.

(** ** cli.py: the duplicate check before writing *)

Section PrewriteCheck.
Context `{Externals}.

Lemma download_candidate_unfold (c : Models.Candidate)
    (cfg : Config.Config) (out : Models.Path) (w : Cli.World)
    (url : string) (data : bytes) :
  Models.direct_url c = Some url ->
  str_truthy url = true ->
  http_get url = Ok data ->
  Cli.download_candidate c cfg out w =
    if Dedup.is_duplicate (Cli.hashes w) (Dedup.compute_sha256 data) None
    then (w, Ok None)
    else Cli.store_candidate c cfg out data (Dedup.compute_sha256 data) w.
Proof.
  intros Hurl Htruthy Hget.
  unfold Cli.download_candidate.
  rewrite Hurl, Htruthy. simpl.
  unfold mbind, Cli.M_bind, Cli.lift, Cli.get_world.
  rewrite Hget.
  destruct (Dedup.is_duplicate _ _ None); reflexivity.
Qed.

(** C9.  Once the bytes of a candidate are fetched, the check made before
    anything is written is [is_duplicate] without a perceptual hash: it
    holds exactly when the SHA-256 of the bytes is in the set.  When it
    holds the candidate is dropped and the world is untouched.  When it
    does not, the candidate is not dropped there, whatever else the set
    holds, the perceptual hash of the picture included: the bytes are
    decoded (an error of the decoder comes out), and a picture that is
    not rejected and that the file system takes is written; [None] is not
    the answer, and when the perceptual hash is computed and the sidecar
    written the answer is the [DownloadInfo] with that perceptual hash. *)
Theorem prewrite_duplicate_check (c : Models.Candidate)
    (cfg : Config.Config) (out : Models.Path) (w : Cli.World)
    (url : string) (data : bytes) :
  Models.direct_url c = Some url ->
  str_truthy url = true ->
  http_get url = Ok data ->
  let sha := Dedup.compute_sha256 data in
  let file_path := Spec.picture_path out c in
  let r := Cli.download_candidate c cfg out w in
  (Dedup.is_duplicate (Cli.hashes w) sha None = true <->
     sha ∈ Cli.hashes w) /\
  (sha ∈ Cli.hashes w -> r = (w, Ok None)) /\
  (sha ∉ Cli.hashes w ->
     (forall e, image_size data = Raise e -> r = (w, Raise e)) /\
     (forall (width height : Z) (s : ImageOps.SuitabilityResult)
             (fs1 fs2 : Fs.FileSystem),
        image_size data = Ok (width, height) ->
        ImageOps.evaluate_suitability (width, height)
          (Config.target_resolution cfg) (Config.tolerance cfg)
          (Config.allow_crop cfg) (Config.allow_upscale cfg) = Ok s ->
        ImageOps.category s <> "reject" ->
        Fs.mkdir (Spec.target_dir out c) (Cli.fs w) = (fs1, Ok tt) ->
        Fs.write_bytes file_path data fs1 = (fs2, Ok tt) ->
        snd r <> Ok None /\
        (Spec.sidecar_path out c <> file_path ->
           Fs.files (Cli.fs (fst r)) !! file_path = Some data) /\
        (forall (ph : string) (fs3 : Fs.FileSystem),
           image_phash data = Ok ph ->
           Fs.write_text (Spec.sidecar_path out c)
             (sidecar_json c width height
                (ImageOps.category s) (ImageOps.reason s)) fs2
             = (fs3, Ok tt) ->
           exists info,
             r = (Spec.stored_world fs3 sha ph w, Ok (Some info)) /\
             Models.sha256 info = sha /\
             Models.phash info = Some ph))).
Proof.
  intros Hurl Htruthy Hget sha file_path r.
  pose proof (download_candidate_unfold c cfg out w url data
                Hurl Htruthy Hget) as Hstep.
  fold sha in Hstep. fold r in Hstep.
  rewrite is_duplicate_no_phash in *.
  split; [ apply bool_decide_eq_true | ].
  split; intros Hin; rewrite Hstep.
  - rewrite bool_decide_eq_true_2 by exact Hin. reflexivity.
  - rewrite bool_decide_eq_false_2 by exact Hin.
    rewrite store_candidate_cases. split.
    + intros e ->. reflexivity.
    + intros width height s fs1 fs2 Hsize Hs Hcat Hmk Hwr.
      rewrite Hsize, Hs. apply String.eqb_neq in Hcat. rewrite Hcat.
      cbn zeta. fold file_path. rewrite Hmk, Hwr.
      pose proof (write_bytes_ok _ _ _ _ _ Hwr) as Hfs2.
      assert (Fs.files fs2 !! file_path = Some data) as Hfile.
      { rewrite Hfs2. cbn [Fs.files]. apply lookup_insert_eq. }
      destruct (image_phash data) as [ph | e].
      * destruct (Fs.write_text _ _ fs2) as [fs3 [[] | e]] eqn:Hmeta.
        -- split; [ discriminate | ]. split.
           ++ intros Hne. cbn [fst Spec.stored_world Cli.fs].
              unfold Fs.write_text in Hmeta.
              rewrite (write_bytes_ok _ _ _ _ _ Hmeta). cbn [Fs.files].
              rewrite lookup_insert_ne by exact Hne. exact Hfile.
           ++ intros ph' fs3' [= <-] [= <-].
              eexists. split; [ reflexivity | ]. split; reflexivity.
        -- split; [ discriminate | ]. split.
           ++ intros _. cbn [fst Cli.with_fs Cli.fs].
              unfold Fs.write_text in Hmeta.
              rewrite (write_bytes_raise _ _ _ _ _ Hmeta). exact Hfile.
           ++ intros ph' fs3' _ [=].
      * split; [ discriminate | ]. split.
        -- intros _. exact Hfile.
        -- intros ph' fs3' [=].
Qed.

End PrewriteCheck.

(** A picture whose perceptual hash is already known, but whose content
    hash is not, is downloaded and stored. *)
Example phash_match_alone_is_stored :
  let c := Demo.demo_candidate "https://img.example/full.jpg" in
  let w := Demo.demo_world ({[ "ph255" ]} : gset string) in
  let r := Cli.download_candidate (H := Demo.demo_externals)
             c Demo.demo_config "library" w in
  (exists info, snd r = Ok (Some info)
                /\ Models.phash info = Some "ph255") /\
  Fs.files (Cli.fs (fst r)) !! "library/unsplash/abc123-blue-lake.jpg"
    = Some ([Byte.x06; Byte.x02; Byte.xff] : bytes).
Proof.
  split.
  - eexists. split; vm_compute; reflexivity.
  - vm_compute. reflexivity.
Qed.

Lemma prewrite_duplicate_check_witness :
  let c := Demo.demo_candidate "https://img.example/full.jpg" in
  let data : bytes := [Byte.x06; Byte.x02; Byte.xff] in
  let sha := Dedup.compute_sha256 (H := Demo.demo_externals) data in
  let w := Demo.demo_world ({[ sha ]} : gset string) in
  let w' := Demo.demo_world ({[ "ph255" ]} : gset string) in
  Cli.download_candidate (H := Demo.demo_externals)
    c Demo.demo_config "library" w = (w, Ok None) /\
  snd (Cli.download_candidate (H := Demo.demo_externals)
         c Demo.demo_config "library" w') <> Ok None.
Proof.
  intros c data sha w w'. split.
  - refine (proj1 (proj2 (prewrite_duplicate_check (H := Demo.demo_externals)
                            c Demo.demo_config "library"
                            w "https://img.example/full.jpg" data
                            _ _ _)) _).
    + reflexivity.
    + reflexivity.
    + reflexivity.
    + vm_compute. reflexivity.
  - refine (proj1 (proj2 (proj2 (proj2 (prewrite_duplicate_check
                                          (H := Demo.demo_externals)
                                          c Demo.demo_config "library"
                                          w' "https://img.example/full.jpg"
                                          data _ _ _)) _)
                     6 2
                     (ImageOps.mkSuitabilityResult "perfect" f1_0
                        "Matches target within tolerance")
                     (fst (Fs.mkdir (H := Demo.demo_externals)
                             "library/unsplash" (Cli.fs w')))
                     (fst (Fs.write_bytes (H := Demo.demo_externals)
                             "library/unsplash/abc123-blue-lake.jpg" data
                             (fst (Fs.mkdir (H := Demo.demo_externals)
                                     "library/unsplash" (Cli.fs w')))))
                     _ _ _ _ _)).
    + reflexivity.
    + reflexivity.
    + reflexivity.
    + subst w'. unfold Demo.demo_world. cbn [Cli.hashes]. intros Hin.
      apply elem_of_singleton in Hin. vm_compute in Hin. discriminate.
    + reflexivity.
    + vm_compute. reflexivity.
    + discriminate.
    + vm_compute. reflexivity.
    + vm_compute. reflexivity.
Defined.

(** ** robots.py and adapters/stub_sources.py *)

Section StubFacts.
Context `{Externals}.

Lemma can_fetch_cases (url : string) :
  Robots.can_fetch url =
  match (if Robots.plain_url url then None else urlparse_error url) with
  | Some msg => Raise (ValueError msg)
  | None =>
      Ok (robots_allows
            (fst (urlsplit url) +:+ "://" +:+ snd (urlsplit url)
             +:+ "/robots.txt")
            "wallpaperbot" url)
  end.
Proof.
  unfold Robots.can_fetch, Robots.urlparse.
  destruct (if Robots.plain_url url then None else urlparse_error url);
    [ reflexivity | ].
  destruct (urlsplit url). reflexivity.
Qed.

(** [can_fetch] returns on every text of ASCII characters that has no
    square bracket. *)
Lemma can_fetch_plain (url : string) :
  Robots.plain_url url = true ->
  exists allowed, Robots.can_fetch url = Ok allowed.
Proof.
  intros Hplain. rewrite can_fetch_cases, Hplain. eauto.
Qed.

(** What it raises is the [ValueError] of [urlparse]. *)
Lemma can_fetch_raises (url : string) (e : exn) :
  Robots.can_fetch url = Raise e ->
  Robots.plain_url url = false /\
  exists msg, urlparse_error url = Some msg /\ e = ValueError msg.
Proof.
  rewrite can_fetch_cases.
  destruct (Robots.plain_url url); [ discriminate | ].
  destruct (urlparse_error url) as [msg|]; [ | discriminate ].
  intros [= <-]. eauto.
Qed.

(** Both outcomes of the robots check lead to the same list. *)
Lemma discover_unfold (self : StubSources.DisallowedAdapter)
    (query : string) (page_limit : Z) :
  StubSources.discover self query page_limit =
  match Robots.can_fetch (StubSources.homepage self) with
  | Ok _ =>
      Ok [ Models.mkCandidate
             (StubSources.name self +:+ "-unsupported")
             (StubSources.name self)
             (StubSources.name self +:+ " unsupported")
             (StubSources.homepage self)
             None None None None None []
             (Some (StubSources.reason self)) ]
  | Raise e => Raise e
  end.
Proof.
  unfold StubSources.discover.
  destruct (Robots.can_fetch (StubSources.homepage self)) as [allowed | e];
    [ | reflexivity ].
  destruct allowed; reflexivity.
Qed.

(** The homepages of the registered stub sources are plain texts. *)
Lemma default_stub_adapters_plain :
  Forall (fun a => Robots.plain_url (StubSources.homepage a) = true)
    StubSources.build_default_stub_adapters.
Proof. repeat constructor. Qed.

(** The seven registered stub sources each report their own reason. *)
Lemma default_stub_adapters_unsupported (query : string) (page_limit : Z) :
  length StubSources.build_default_stub_adapters = 7%nat /\
  Forall
    (fun a =>
       exists c, StubSources.discover a query page_limit = Ok [c] /\
                 Models.unsupported_reason c = Some (StubSources.reason a) /\
                 opt_truthy (Models.unsupported_reason c) = true)
    StubSources.build_default_stub_adapters.
Proof.
  split; [ reflexivity | ].
  unfold StubSources.build_default_stub_adapters.
  repeat (apply List.Forall_cons;
          [ rewrite discover_unfold, can_fetch_cases; eexists;
            split; [ reflexivity | split; reflexivity ] | ]).
  apply List.Forall_nil.
Qed.

(** C6, as the code has it.  [discover] on a stub adapter first asks
    [can_fetch] about the homepage, outside any [try].  When that call
    returns, whatever it answers, [discover] returns one candidate for
    every query and page limit; its unsupported reason is the reason the
    adapter was built with, it has no direct URL, and so the download
    pipeline returns nothing for it and leaves the world as it was.  When
    the call raises, which it does only with the [ValueError] of
    [urlparse] on the homepage, [discover] raises the same for every query
    and page limit.  The call returns on every homepage that is a text of
    ASCII characters without a square bracket, and the homepages of the
    registered stub adapters are such texts. *)
Theorem stub_discover_single_unsupported (self : StubSources.DisallowedAdapter)
    (query : string) (page_limit : Z) :
  (forall allowed : bool,
     Robots.can_fetch (StubSources.homepage self) = Ok allowed ->
     exists c : Models.Candidate,
       StubSources.discover self query page_limit = Ok [c] /\
       Models.unsupported_reason c = Some (StubSources.reason self) /\
       Models.direct_url c = None /\
       (forall (cfg : Config.Config) (out : Models.Path) (w : Cli.World),
           Cli.download_candidate c cfg out w = (w, Ok None)) /\
       (forall (query' : string) (page_limit' : Z),
           StubSources.discover self query' page_limit' = Ok [c])) /\
  (forall e : exn,
     Robots.can_fetch (StubSources.homepage self) = Raise e ->
     (exists msg, urlparse_error (StubSources.homepage self) = Some msg /\
                  e = ValueError msg) /\
     (forall (query' : string) (page_limit' : Z),
         StubSources.discover self query' page_limit' = Raise e)) /\
  (Robots.plain_url (StubSources.homepage self) = true ->
     exists allowed : bool,
       Robots.can_fetch (StubSources.homepage self) = Ok allowed) /\
  (In self StubSources.build_default_stub_adapters ->
     Robots.plain_url (StubSources.homepage self) = true).
Proof.
  split; [ | split; [ | split ] ].
  - intros allowed Hcan. eexists.
    split; [ rewrite discover_unfold, Hcan; reflexivity | ].
    split; [ reflexivity | ]. split; [ reflexivity | ].
    split; [ reflexivity | ].
    intros query' page_limit'. rewrite discover_unfold, Hcan. reflexivity.
  - intros e Hcan. split.
    + apply can_fetch_raises in Hcan. tauto.
    + intros query' page_limit'. rewrite discover_unfold, Hcan. reflexivity.
  - apply can_fetch_plain.
  - intros Hin.
    pose proof default_stub_adapters_plain as Hall.
    rewrite List.Forall_forall in Hall. exact (Hall self Hin).
Qed.

(** The loop of [fetch] never reaches the download for such a candidate
    when its reason is a non-empty text. *)
Lemma fetch_skips_unsupported (cand : Models.Candidate)
    (cfg : Config.Config) (query : string) (dry_run : bool)
    (st : Cli.World * Db.Database * list Models.DownloadInfo) :
  opt_truthy (Models.unsupported_reason cand) = true ->
  Cli.fetch_candidate cand cfg query dry_run st = st.
Proof.
  intros Hr. unfold Cli.fetch_candidate.
  destruct st as [[w db] downloaded]. rewrite Hr. reflexivity.
Qed.

End StubFacts.

Lemma stub_discover_single_unsupported_witness :
  let self := StubSources.mkDisallowedAdapter "4kwallpapers"
                "https://4kwallpapers.com"
                "ToS prohibits automated access and hotlinking" in
  exists c : Models.Candidate,
    StubSources.discover (H := Demo.demo_externals) self "lake" 3 = Ok [c] /\
    Models.unsupported_reason c
      = Some "ToS prohibits automated access and hotlinking" /\
    Models.direct_url c = None.
Proof.
  intros self.
  destruct (proj1 (stub_discover_single_unsupported
                     (H := Demo.demo_externals) self "lake" 3)
              false eq_refl)
    as (c & Hd & Hr & Hu & _).
  exists c. split; [ exact Hd | ]. split; [ exact Hr | exact Hu ].
Defined.

(** C6, as it is worded, fails: a stub adapter whose homepage [urlparse]
    rejects raises from [discover] and returns no candidate. *)
Lemma stub_discover_bad_homepage_counterexample :
  let self := StubSources.mkDisallowedAdapter "mirror" "http://["
                "No API; automation skipped" in
  Robots.plain_url (StubSources.homepage self) = false /\
  StubSources.discover (H := Demo.demo_externals) self "lake" 3
    = Raise (ValueError "Invalid IPv6 URL").
Proof. split; reflexivity. Qed.

(** ** db.py *)

Section DbFacts.
Context `{Externals}.

Lemma sha256_present_iff (h : string) (rows : list Db.Row) :
  Db.sha256_present h rows = true <->
  exists r, In r rows /\ Db.sha256 r = h.
Proof.
  unfold Db.sha256_present. rewrite existsb_exists.
  split; intros (r & Hin & Heq); exists r; split; auto.
  - apply String.eqb_eq. exact Heq.
  - apply String.eqb_eq. exact Heq.
Qed.


(** The statement runs exactly when the three integers can be bound. *)
Lemma record_download_cases (db : Db.Database) (info : Models.DownloadInfo)
    (q : option string) :
  Db.record_download db info q =
  if Spec.bindable info
  then Ok (Db.insert_or_ignore (Spec.row_of info q) db)
  else Raise OverflowError.
Proof.
  unfold Db.record_download, Spec.bindable, Db.bind_int.
  destruct (Db.int64 (Models.info_width info)); [ | reflexivity ].
  destruct (Db.int64 (Models.info_height info)); [ | reflexivity ].
  destruct (Db.int64 (Models.file_size info)); reflexivity.
Qed.

Lemma record_download_returns (db db' : Db.Database)
    (info : Models.DownloadInfo) (q : option string) :
  Db.record_download db info q = Ok db' ->
  Spec.bindable info = true /\
  db' = Db.insert_or_ignore (Spec.row_of info q) db.
Proof.
  rewrite record_download_cases.
  destruct (Spec.bindable info); [ | discriminate ].
  intros [= <-]. auto.
Qed.

Lemma record_download_images (db db' : Db.Database)
    (info : Models.DownloadInfo) (q : option string) :
  Db.record_download db info q = Ok db' ->
  Db.images db' =
  if Db.sha256_present (Models.sha256 info) (Db.images db)
  then Db.images db
  else Db.images db ++
         [Spec.row_of info q
            (Z.max (Db.sqlite_sequence db) (Db.max_rowid (Db.images db)) + 1)].
Proof.
  intros Hok. apply record_download_returns in Hok. destruct Hok as [_ ->].
  unfold Db.insert_or_ignore. cbn zeta.
  change (Db.sha256 (Spec.row_of info q _)) with (Models.sha256 info).
  destruct (Db.sha256_present _ _); reflexivity.
Qed.




End DbFacts.



(** ** cli.py: file names *)

Section FilenameFacts.

Lemma str_replace_length (old new : ascii) (s : string) :
  String.length (str_replace old new s) = String.length s.
Proof.
  induction s as [| c s IH]; simpl; [ reflexivity | ].
  rewrite IH. reflexivity.
Qed.

Lemma str_replace_get (old new : ascii) (s : string) (i : nat) :
  String.get i (str_replace old new s) =
  match String.get i s with
  | Some ch => Some (if Ascii.eqb ch old then new else ch)
  | None => None
  end.
Proof.
  revert i. induction s as [| c s IH]; intros i; simpl.
  - reflexivity.
  - destruct i as [| i]; [ reflexivity | apply IH ].
Qed.

Lemma str_replace_spaces (text : string) :
  Spec.spaces_as_hyphens text (str_replace " " "-" text).
Proof.
  split; [ apply str_replace_length | intros i; apply str_replace_get ].
Qed.

(** C2, as the code has it.  A candidate with an empty title is stored
    under [<id>-<id>.jpg]: the id takes the place of the title after the
    [<id>-] prefix.  A candidate with a title is stored under
    [<id>-<stem>.jpg] where the stem is the title with its spaces turned
    into hyphens. *)
Theorem candidate_filename_spec (c : Models.Candidate) :
  (Models.title c = "" ->
     Cli.candidate_filename c =
       Models.id c +:+ "-" +:+ Models.id c +:+ ".jpg") /\
  (Models.title c <> "" ->
     exists stem : string,
       Spec.spaces_as_hyphens (Models.title c) stem /\
       Cli.candidate_filename c = Models.id c +:+ "-" +:+ stem +:+ ".jpg").
Proof.
  unfold Cli.candidate_filename. split.
  - intros ->. reflexivity.
  - intros Hne. exists (str_replace " " "-" (Models.title c)).
    split; [ apply str_replace_spaces | ].
    destruct (Models.title c); [ contradiction | reflexivity ].
Qed.

End FilenameFacts.

Lemma candidate_filename_spec_witness :
  let c := Models.mkCandidate "abc123" "unsplash" "" "https://example.org/p"
             None None None None None [] None in
  Cli.candidate_filename c = "abc123-abc123.jpg".
Proof.
  intros c. exact (proj1 (candidate_filename_spec c) eq_refl).
Defined.

(** C2, as it is worded, fails: with an empty title the name is not the id
    followed by [.jpg]. *)
Lemma candidate_filename_empty_title_counterexample :
  let c := Models.mkCandidate "abc123" "unsplash" "" "https://example.org/p"
             None None None None None [] None in
  Models.title c = "" /\
  Cli.candidate_filename c = "abc123-abc123.jpg" /\
  Cli.candidate_filename c <> Models.id c +:+ ".jpg".
Proof.
  intros c. split; [ reflexivity | ]. split; [ reflexivity | ].
  vm_compute. discriminate.
Qed.

(** With a title, the spaces become hyphens. *)
Example candidate_filename_blue_lake :
  Cli.candidate_filename
    (Demo.demo_candidate "https://img.example/full.jpg")
  = "abc123-blue-lake.jpg".
Proof. reflexivity. Qed.

(** ** image_ops.py on the inputs of the specification and of the tests *)

(** C1.  On a 9000 x 1700 picture against 7680 x 1440 with tolerance 0.2
    the first rule of the decision list fires: the aspect ratios 5.29 and
    5.33 differ by less than 0.2 x 5.33, so the answer is [perfect] and not
    [croppable]. *)
Theorem evaluate_suitability_9000x1700 :
  ImageOps.evaluate_suitability (9000, 1700) (7680, 1440) f0_2 true false
  = Ok (ImageOps.mkSuitabilityResult "perfect" f1_0
          "Matches target within tolerance").
Proof. vm_compute. reflexivity. Qed.

(** The input of [test_croppable_when_larger] gets the same answer. *)
Example evaluate_suitability_7000x1300 :
  ImageOps.evaluate_suitability (7000, 1300) (5760, 1080) f0_2 true false
  = Ok (ImageOps.mkSuitabilityResult "perfect" f1_0
          "Matches target within tolerance").
Proof. vm_compute. reflexivity. Qed.

(** [test_perfect_match] and [test_reject_small_image], with the default
    tolerance 0.1. *)
Example evaluate_suitability_exact :
  ImageOps.evaluate_suitability (5760, 1080) (5760, 1080) f0_1 true false
  = Ok (ImageOps.mkSuitabilityResult "perfect" f1_0
          "Matches target within tolerance").
Proof. vm_compute. reflexivity. Qed.

Example evaluate_suitability_small :
  ImageOps.evaluate_suitability (1000, 800) (5760, 1080) f0_1 true false
  = Ok (ImageOps.mkSuitabilityResult "reject" f0_0
          "Insufficient resolution or mismatched ratio").
Proof. vm_compute. reflexivity. Qed.

(** A picture that is large enough but far too wide is [croppable]. *)
Example evaluate_suitability_wide :
  ImageOps.evaluate_suitability (12000, 1440) (7680, 1440) f0_2 true false
  = Ok (ImageOps.mkSuitabilityResult "croppable" f0_8
          "Larger than target; center-crop possible").
Proof. vm_compute. reflexivity. Qed.

(** The literals are the binary64 values nearest to the decimals. *)
Example float_literals :
  int_truediv 1 10 = Ok f0_1 /\ int_truediv 1 5 = Ok f0_2 /\
  int_truediv 2 5 = Ok f0_4 /\ int_truediv 4 5 = Ok f0_8 /\
  int_truediv 1 1 = Ok f1_0 /\ float_of_int 1024 = Ok f1024_0.
Proof. vm_compute. repeat split. Qed.

(** ** cli.py: the perceptual hash of the stored file *)

Section PhashFailure.
Context `{Externals}.

(** C3, as the code has it.  When the bytes pass the duplicate check, decode
    far enough to give a size, and are not rejected, and the directory is
    made and the picture written; if computing the perceptual hash of the
    written file then raises, so does [download_candidate]: no
    [DownloadInfo] is returned, the picture stays on disk and its content
    hash is not remembered.  On the very same file, [compute_phash] of
    [dedup.py] would have answered [None]. *)
Theorem phash_failure_propagates (c : Models.Candidate)
    (cfg : Config.Config) (out : Models.Path) (w : Cli.World)
    (url : string) (data : bytes) (width height : Z)
    (s : ImageOps.SuitabilityResult) (fs1 fs2 : Fs.FileSystem) (e : exn) :
  Models.direct_url c = Some url ->
  str_truthy url = true ->
  http_get url = Ok data ->
  Dedup.compute_sha256 data ∉ Cli.hashes w ->
  image_size data = Ok (width, height) ->
  ImageOps.evaluate_suitability (width, height)
    (Config.target_resolution cfg) (Config.tolerance cfg)
    (Config.allow_crop cfg) (Config.allow_upscale cfg) = Ok s ->
  ImageOps.category s <> "reject" ->
  Fs.mkdir (joinpath out (Models.source c)) (Cli.fs w) = (fs1, Ok tt) ->
  Fs.write_bytes
    (joinpath (joinpath out (Models.source c)) (Cli.candidate_filename c))
    data fs1 = (fs2, Ok tt) ->
  image_phash data = Raise e ->
  let file_path :=
    joinpath (joinpath out (Models.source c)) (Cli.candidate_filename c) in
  let r := Cli.download_candidate c cfg out w in
  snd r = Raise e /\
  Fs.files (Cli.fs (fst r)) !! file_path = Some data /\
  Cli.hashes (fst r) = Cli.hashes w /\
  Dedup.compute_phash (Cli.fs (fst r)) file_path = None.
Proof.
  intros Hurl Htruthy Hget Hfresh Hsize Hsuit Hcat Hmk Hwr Hphash
    file_path r.
  assert (r = (Cli.with_fs fs2 w, Raise e)) as Hr.
  { subst r.
    rewrite (download_candidate_unfold c cfg out w url data
               Hurl Htruthy Hget).
    rewrite is_duplicate_no_phash, bool_decide_eq_false_2 by exact Hfresh.
    rewrite store_candidate_cases, Hsize, Hsuit.
    apply String.eqb_neq in Hcat. rewrite Hcat. cbn zeta.
    unfold Spec.target_dir, Spec.picture_path, Spec.target_dir.
    rewrite Hmk, Hwr, Hphash. reflexivity. }
  rewrite Hr. subst file_path. cbn [fst snd Cli.with_fs Cli.fs Cli.hashes].
  split; [ reflexivity | ].
  split.
  { rewrite (write_bytes_ok _ _ _ _ _ Hwr). cbn [Fs.files].
    apply lookup_insert_eq. }
  split; [ reflexivity | ].
  unfold Dedup.compute_phash.
  rewrite (phash_of_written_file _ _ _ _ _ Hwr), Hphash. reflexivity.
Qed.

End PhashFailure.

Lemma phash_failure_propagates_witness :
  let c := Demo.demo_candidate "https://img.example/truncated.jpg" in
  let r := Cli.download_candidate (H := Demo.demo_externals)
             c Demo.demo_config "library" (Demo.demo_world ∅) in
  snd r = Raise (ImageError "image file is truncated").
Proof.
  intros c r.
  pose (fs1 := fst (Fs.mkdir (H := Demo.demo_externals) "library/unsplash"
                      (Cli.fs (Demo.demo_world ∅)))).
  pose (fs2 := fst (Fs.write_bytes (H := Demo.demo_externals)
                      "library/unsplash/abc123-blue-lake.jpg"
                      [Byte.x06; Byte.x02] fs1)).
  refine (proj1 (phash_failure_propagates (H := Demo.demo_externals)
                   c Demo.demo_config "library" (Demo.demo_world ∅)
                   "https://img.example/truncated.jpg"
                   [Byte.x06; Byte.x02] 6 2
                   (ImageOps.mkSuitabilityResult "perfect" f1_0
                      "Matches target within tolerance")
                   fs1 fs2
                   (ImageError "image file is truncated")
                   _ _ _ _ _ _ _ _ _ _)).
  - reflexivity.
  - reflexivity.
  - reflexivity.
  - apply not_elem_of_empty.
  - reflexivity.
  - vm_compute. reflexivity.
  - discriminate.
  - vm_compute. reflexivity.
  - vm_compute. reflexivity.
  - reflexivity.
Defined.

(** A title with a slash names a file in a directory that nobody makes:
    the write raises before any hash is computed, the directories of the
    source having been made. *)
Example download_slash_title :
  let c := Models.mkCandidate "abc123" "unsplash" "a/b c"
             "https://example.org/p" (Some "https://img.example/full.jpg")
             None None None None [] None in
  let r := Cli.download_candidate (H := Demo.demo_externals)
             c Demo.demo_config "library" (Demo.demo_world ∅) in
  snd r = Raise (FileNotFoundError "library/unsplash/abc123-a/b-c.jpg") /\
  Fs.files (Cli.fs (fst r)) = ∅ /\
  Fs.directories (Cli.fs (fst r))
    = {[ "."; "library"; "library/unsplash" ]} /\
  Cli.hashes (fst r) = ∅.
Proof.
  repeat split; vm_compute; reflexivity.
Qed.

(** ** image_ops.py: the decision list *)

Section SuitabilityFacts.

Lemma int_truediv_zero_division (a b : Z) :
  int_truediv a b = Raise ZeroDivisionError <-> b = 0.
Proof.
  unfold int_truediv. destruct (Z.eqb_spec b 0) as [-> | Hb].
  - split; reflexivity.
  - split; [ | contradiction ].
    destruct (fdiv (raw_of_int a) (raw_of_int b)); discriminate.
Qed.

Lemma aspect_ratio_zero_division (width height : Z) :
  ImageOps.aspect_ratio width height = Raise ZeroDivisionError <->
  height = 0.
Proof. apply int_truediv_zero_division. Qed.

(** The guard on the sides of the picture comes before any division. *)
Lemma evaluate_suitability_invalid (iw ih tw th : Z) (tol : float)
    (ac au : bool) :
  iw <= 0 \/ ih <= 0 ->
  ImageOps.evaluate_suitability (iw, ih) (tw, th) tol ac au =
  Ok (ImageOps.mkSuitabilityResult "reject" f0_0 "Invalid dimensions").
Proof.
  intros Hbad. unfold ImageOps.evaluate_suitability.
  replace ((iw <=? 0) || (ih <=? 0)) with true; [ reflexivity | ].
  symmetry. apply orb_true_iff.
  destruct Hbad; [ left | right ]; apply Z.leb_le; assumption.
Qed.

(** Past the guard, the two aspect ratios are computed in turn. *)
Lemma evaluate_suitability_valid (iw ih tw th : Z) (tol : float)
    (ac au : bool) :
  0 < iw -> 0 < ih ->
  ImageOps.evaluate_suitability (iw, ih) (tw, th) tol ac au =
  image_ar ← ImageOps.aspect_ratio iw ih;
  target_ar ← ImageOps.aspect_ratio tw th;
  let fits := (iw >=? tw) && (ih >=? th) in
  let within := ImageOps.within_tolerance image_ar target_ar tol in
  Ok (if fits && within then
        ImageOps.mkSuitabilityResult "perfect" f1_0
          "Matches target within tolerance"
      else if fits && ac then
        ImageOps.mkSuitabilityResult "croppable" f0_8
          "Larger than target; center-crop possible"
      else if au && within then
        ImageOps.mkSuitabilityResult "upscalable" f0_4
          "Below target but aspect ratio matches"
      else
        ImageOps.mkSuitabilityResult "reject" f0_0
          "Insufficient resolution or mismatched ratio").
Proof.
  intros Hw Hh. unfold ImageOps.evaluate_suitability.
  replace ((iw <=? 0) || (ih <=? 0)) with false.
  - destruct (ImageOps.aspect_ratio iw ih) as [a |]; [ | reflexivity ].
    destruct (ImageOps.aspect_ratio tw th) as [t |]; [ | reflexivity ].
    simpl.
    destruct ((iw >=? tw) && (ih >=? th)); simpl;
      destruct (ImageOps.within_tolerance a t tol); simpl;
      destruct ac; simpl; destruct au; reflexivity.
  - symmetry. apply orb_false_iff. split; apply Z.leb_gt; assumption.
Qed.

End SuitabilityFacts.

(** ** binary64: digits, shifts and rounding *)

Section Binary64Facts.

Lemma digits2_pos_size (p : positive) : digits2_pos p = Pos.size p.
Proof. induction p; simpl; congruence. Qed.

Lemma Zdigits2_bounds (p : positive) :
  2 ^ (Zdigits2 (Zpos p) - 1) <= Zpos p < 2 ^ Zdigits2 (Zpos p).
Proof.
  simpl. rewrite digits2_pos_size. split.
  - pose proof (Pos.size_le p) as Hle.
    assert (2 ^ Zpos (Pos.size p) <= 2 * Zpos p) as H2.
    { change (2 * Zpos p) with (Zpos p~0).
      rewrite <- Pos2Z.inj_pow. apply Pos2Z.pos_le_pos. exact Hle. }
    replace (Zpos (Pos.size p)) with (Z.succ (Zpos (Pos.size p) - 1)) in H2 by lia.
    rewrite Z.pow_succ_r in H2 by lia. lia.
  - pose proof (Pos.size_gt p) as Hgt.
    rewrite <- Pos2Z.inj_pow. apply Pos2Z.pos_lt_pos. exact Hgt.
Qed.

Lemma Zdigits2_pos (p : positive) : 0 < Zdigits2 (Zpos p).
Proof. simpl. lia. Qed.

Lemma Zdigits2_unique (p : positive) (d : Z) :
  2 ^ (d - 1) <= Zpos p < 2 ^ d -> Zdigits2 (Zpos p) = d.
Proof.
  intros [Hlo Hhi].
  pose proof (Zdigits2_bounds p) as [Hlo' Hhi'].
  pose proof (Zdigits2_pos p) as Hpos.
  assert (0 < d) as Hd.
  { destruct (Z_lt_le_dec 0 d) as [Hd | Hd]; [ exact Hd | ].
    exfalso. destruct (Z.eq_dec d 0) as [-> | Hd0].
    - simpl in Hhi. lia.
    - rewrite Z.pow_neg_r in Hhi by lia. lia. }
  destruct (Z.lt_trichotomy (Zdigits2 (Zpos p)) d) as [Hlt | [Heq | Hgt]].
  - exfalso.
    assert (2 ^ Zdigits2 (Zpos p) <= 2 ^ (d - 1)) by (apply Z.pow_le_mono_r; lia).
    lia.
  - exact Heq.
  - exfalso.
    assert (2 ^ d <= 2 ^ (Zdigits2 (Zpos p) - 1)) by (apply Z.pow_le_mono_r; lia).
    lia.
Qed.

Lemma iter_pos_iter {A : Type} (f : A -> A) (p : positive) (x : A) :
  SpecFloat.iter_pos f p x = Pos.iter f x p.
Proof.
  revert x. induction p as [p IH | p IH |]; intros x; simpl.
  - rewrite !IH. rewrite !Pos.iter_swap. reflexivity.
  - rewrite !IH. reflexivity.
  - reflexivity.
Qed.

Lemma shr_1_m (r : shr_record) :
  0 <= shr_m r -> shr_m (shr_1 r) = shr_m r / 2.
Proof.
  destruct r as [m rb sb]. simpl. intros Hm.
  destruct m as [| [p | p |] | p]; cbn [shr_m shr_1];
    try reflexivity; try lia.
  - apply Z.div_unique with (r := 1); lia.
  - apply Z.div_unique with (r := 0); lia.
Qed.

Lemma shr_iter_m (p : positive) (r : shr_record) :
  0 <= shr_m r -> shr_m (SpecFloat.iter_pos shr_1 p r) = shr_m r / 2 ^ Zpos p.
Proof.
  intros Hm. rewrite iter_pos_iter.
  induction p as [| p IH] using Pos.peano_ind.
  - simpl. rewrite shr_1_m by exact Hm. reflexivity.
  - rewrite Pos.iter_succ. rewrite shr_1_m.
    + rewrite IH. rewrite Pos2Z.inj_succ, Z.pow_succ_r by lia.
      rewrite Z.div_div by lia. f_equal. lia.
    + rewrite IH. apply Z.div_pos; lia.
Qed.


Lemma fexp64_eq (e : Z) : fexp prec emax e = Spec.fexp64 e.
Proof. reflexivity. Qed.

Lemma shr_record_of_loc_m (m : Z) (l : location) :
  shr_m (shr_record_of_loc m l) = m.
Proof. destruct l as [| []]; reflexivity. Qed.


Lemma shr_fexp_m (m e : Z) (l : location) :
  0 <= m ->
  shr_m (fst (shr_fexp prec emax m e l)) = m / 2 ^ Spec.shift_count m e.
Proof.
  intros Hm. unfold shr_fexp, shr, Spec.shift_count. rewrite fexp64_eq.
  destruct (Spec.fexp64 (Zdigits2 m + e) - e) as [| p | p]; cbn [fst].
  - rewrite shr_record_of_loc_m. simpl. rewrite Z.div_1_r. reflexivity.
  - rewrite shr_iter_m by (rewrite shr_record_of_loc_m; exact Hm).
    rewrite shr_record_of_loc_m. rewrite Z.max_r by lia. reflexivity.
  - rewrite shr_record_of_loc_m. rewrite Z.max_l by lia.
    simpl. rewrite Z.div_1_r. reflexivity.
Qed.

Lemma shr_fexp_e (m e : Z) (l : location) :
  snd (shr_fexp prec emax m e l) = e + Spec.shift_count m e.
Proof.
  unfold shr_fexp, shr, Spec.shift_count. rewrite fexp64_eq.
  destruct (Spec.fexp64 (Zdigits2 m + e) - e) as [| p | p]; cbn [snd]; lia.
Qed.

Lemma round_nearest_even_bounds (m : Z) (l : location) :
  m <= round_nearest_even m l <= m + 1.
Proof.
  unfold round_nearest_even.
  destruct l as [| []]; try lia. destruct (Z.even m); lia.
Qed.

Lemma binary_round_aux_eq (s : bool) (mx ex : Z) (lx : location) :
  binary_round_aux prec emax s mx ex lx =
  let r1 := fst (shr_fexp prec emax mx ex lx) in
  let e1 := snd (shr_fexp prec emax mx ex lx) in
  let m2 := round_nearest_even (shr_m r1) (loc_of_shr_record r1) in
  match shr_m (fst (shr_fexp prec emax m2 e1 loc_Exact)) with
  | Z0 => S754_zero s
  | Zpos m =>
      if snd (shr_fexp prec emax m2 e1 loc_Exact) <=? emax - prec
      then S754_finite s m (snd (shr_fexp prec emax m2 e1 loc_Exact))
      else S754_infinity s
  | Zneg _ => S754_nan
  end.
Proof.
  unfold binary_round_aux.
  destruct (shr_fexp prec emax mx ex lx) as [r1 e1]. cbn [fst snd].
  destruct (shr_fexp prec emax _ e1 loc_Exact) as [r2 e2]. reflexivity.
Qed.

Lemma Zdigits2_nonneg (m : Z) : 0 <= Zdigits2 m.
Proof. destruct m; simpl; lia. Qed.

Lemma Zdigits2_le (m d : Z) :
  0 <= m -> 0 <= d -> m < 2 ^ d -> Zdigits2 m <= d.
Proof.
  intros Hm Hd Hlt. destruct m as [| p | p]; [ simpl; lia | | lia ].
  pose proof (Zdigits2_bounds p) as [Hlo _].
  destruct (Z_le_gt_dec (Zdigits2 (Zpos p)) d) as [Hle | Hgt]; [ exact Hle | ].
  exfalso.
  assert (2 ^ d <= 2 ^ (Zdigits2 (Zpos p) - 1)) by (apply Z.pow_le_mono_r; lia).
  lia.
Qed.

Lemma Zdigits2_lt_pow (m : Z) : 0 <= m -> m < 2 ^ Zdigits2 m.
Proof.
  intros Hm. destruct m as [| p | p]; [ simpl; lia | | lia ].
  apply Zdigits2_bounds.
Qed.

(** Digits after a right shift. *)
Lemma Zdigits2_shift (m k : Z) :
  0 <= m -> 0 <= k -> Zdigits2 (m / 2 ^ k) <= Z.max 0 (Zdigits2 m - k).
Proof.
  intros Hm Hk.
  pose proof (Zdigits2_lt_pow m Hm) as Hlt.
  pose proof (Zdigits2_nonneg m) as Hd.
  assert (0 < 2 ^ k) as Hpk by (apply Z.pow_pos_nonneg; lia).
  apply Zdigits2_le.
  - apply Z.div_pos; lia.
  - lia.
  - destruct (Z_le_gt_dec k (Zdigits2 m)) as [Hle | Hgt].
    + rewrite Z.max_r by lia.
      apply Z.div_lt_upper_bound; [ lia | ].
      rewrite <- Z.pow_add_r by lia.
      replace (k + (Zdigits2 m - k)) with (Zdigits2 m) by lia. exact Hlt.
    + rewrite Z.max_l by lia. simpl.
      assert (m / 2 ^ k = 0) as ->; [ | lia ].
      apply Z.div_small. split; [ lia | ].
      assert (2 ^ Zdigits2 m <= 2 ^ k) by (apply Z.pow_le_mono_r; lia).
      lia.
Qed.

Lemma Zdigits2_succ (m : Z) : 0 <= m -> Zdigits2 (m + 1) <= Zdigits2 m + 1.
Proof.
  intros Hm. pose proof (Zdigits2_lt_pow m Hm). pose proof (Zdigits2_nonneg m).
  apply Zdigits2_le; [ lia | lia | ].
  rewrite Z.pow_add_r by lia. simpl (2 ^ 1).
  assert (0 < 2 ^ Zdigits2 m) by (apply Z.pow_pos_nonneg; lia). lia.
Qed.

Lemma Zdigits2_mono (a b : Z) : 0 <= a <= b -> Zdigits2 a <= Zdigits2 b.
Proof.
  intros [Ha Hab]. apply Zdigits2_le; [ lia | apply Zdigits2_nonneg | ].
  pose proof (Zdigits2_lt_pow b). lia.
Qed.

(** Rounding a mantissa cannot overflow when its magnitude is below
    [2 ^ 1023]. *)
Lemma binary_round_aux_finite (s : bool) (mx ex : Z) (lx : location) :
  0 <= mx -> ex <= 971 -> Zdigits2 mx + ex <= 1023 ->
  (exists z, binary_round_aux prec emax s mx ex lx = S754_zero z) \/
  (exists m e, binary_round_aux prec emax s mx ex lx = S754_finite s m e).
Proof.
  intros Hmx Hex HD. rewrite binary_round_aux_eq. cbv zeta.
  set (r1 := fst (shr_fexp prec emax mx ex lx)).
  set (e1 := snd (shr_fexp prec emax mx ex lx)).
  set (m2 := round_nearest_even (shr_m r1) (loc_of_shr_record r1)).
  assert (shr_m r1 = mx / 2 ^ Spec.shift_count mx ex) as Hm1
      by (apply shr_fexp_m; exact Hmx).
  assert (e1 = ex + Spec.shift_count mx ex) as He1 by apply shr_fexp_e.
  assert (0 <= Spec.shift_count mx ex) as Hk1 by (unfold Spec.shift_count; lia).
  assert (0 <= shr_m r1) as Hm1pos.
  { rewrite Hm1. apply Z.div_pos; [ lia | apply Z.pow_pos_nonneg; lia ]. }
  pose proof (round_nearest_even_bounds (shr_m r1) (loc_of_shr_record r1))
    as Hround. fold m2 in Hround.
  assert (0 <= m2) as Hm2 by lia.
  pose proof (shr_fexp_m m2 e1 loc_Exact Hm2) as Hm3.
  pose proof (shr_fexp_e m2 e1 loc_Exact) as He3.
  assert (0 <= shr_m (fst (shr_fexp prec emax m2 e1 loc_Exact))) as Hm3pos.
  { rewrite Hm3. apply Z.div_pos; [ lia | apply Z.pow_pos_nonneg ]; [ lia | ].
    unfold Spec.shift_count; lia. }
  assert (snd (shr_fexp prec emax m2 e1 loc_Exact) <= 971) as Hfin.
  { rewrite He3.
    pose proof (Zdigits2_shift mx (Spec.shift_count mx ex) Hmx Hk1) as Hd1.
    rewrite <- Hm1 in Hd1.
    assert (Zdigits2 m2 <= Zdigits2 (shr_m r1) + 1) as Hd2.
    { transitivity (Zdigits2 (shr_m r1 + 1)).
      - apply Zdigits2_mono. lia.
      - apply Zdigits2_succ. exact Hm1pos. }
    pose proof (Zdigits2_nonneg mx).
    unfold Spec.shift_count, Spec.fexp64 in *. lia. }
  destruct (shr_m (fst (shr_fexp prec emax m2 e1 loc_Exact))) as [| m | m].
  - left. eexists. reflexivity.
  - right. replace (_ <=? emax - prec) with true.
    + eexists. eexists. reflexivity.
    + symmetry. apply Z.leb_le. exact Hfin.
  - lia.
Qed.

Lemma div_core_bounds (ma mb : positive) :
  let '(q, e, l) := SFdiv_core_binary prec emax (Zpos ma) 0 (Zpos mb) 0 in
  0 <= q /\ e <= 0 /\ Zdigits2 q + e <= Zdigits2 (Zpos ma).
Proof.
  unfold SFdiv_core_binary.
  set (e' := Z.min (fexp prec emax (Zdigits2 (Zpos ma) + 0
                                    - (Zdigits2 (Zpos mb) + 0))) (0 - 0)).
  assert (e' <= 0) as He' by (unfold e'; lia).
  set (m' := match 0 - 0 - e' with
             | 0 => Zpos ma
             | Zpos _ => Z.shiftl (Zpos ma) (0 - 0 - e')
             | Zneg _ => 0
             end).
  assert (m' = Zpos ma * 2 ^ (- e')) as Hm'.
  { unfold m'. replace (0 - 0 - e') with (- e') by lia.
    destruct (- e') as [| p | p] eqn:Hs.
    - simpl. lia.
    - apply Z.shiftl_mul_pow2. lia.
    - lia. }
  destruct (Z.div_eucl m' (Zpos mb)) as [q r] eqn:Hdiv.
  assert (q = m' / Zpos mb) as Hq by (unfold Z.div; rewrite Hdiv; reflexivity).
  assert (0 < 2 ^ (- e')) as Hpow by (apply Z.pow_pos_nonneg; lia).
  assert (0 <= m') as Hm'pos by (rewrite Hm'; lia).
  assert (0 <= q) as Hqpos by (rewrite Hq; apply Z.div_pos; lia).
  split; [ exact Hqpos | ]. split; [ exact He' | ].
  assert (q <= m') as Hle.
  { rewrite Hq. apply Z.div_le_upper_bound; [ lia | ]. nia. }
  pose proof (Zdigits2_mono q m' (conj Hqpos Hle)) as Hmono.
  assert (Zdigits2 m' <= Zdigits2 (Zpos ma) - e') as Hsh.
  { pose proof (Zdigits2_nonneg (Zpos ma)).
    apply Zdigits2_le; [ exact Hm'pos | lia | ].
    rewrite Hm'. replace (Zdigits2 (Zpos ma) - e')
      with (Zdigits2 (Zpos ma) + - e') by lia.
    rewrite Z.pow_add_r by lia.
    pose proof (Zdigits2_lt_pow (Zpos ma)). nia. }
  lia.
Qed.

Lemma fdiv_finite (sa sb : bool) (ma mb : positive) :
  Zpos ma < 2 ^ 1023 ->
  (exists z, fdiv (S754_finite sa ma 0) (S754_finite sb mb 0) = S754_zero z) \/
  (exists m e, fdiv (S754_finite sa ma 0) (S754_finite sb mb 0)
               = S754_finite (xorb sa sb) m e).
Proof.
  intros Hbound. unfold fdiv, SFdiv.
  pose proof (div_core_bounds ma mb) as Hcore.
  destruct (SFdiv_core_binary prec emax (Zpos ma) 0 (Zpos mb) 0)
    as [[q e] l].
  destruct Hcore as (Hq & He & HD).
  apply binary_round_aux_finite; [ exact Hq | lia | ].
  assert (Zdigits2 (Zpos ma) <= 1023); [ | lia ].
  apply Zdigits2_le; lia.
Qed.

(** True division of integers returns whenever the divisor is not zero and
    the dividend is below [2 ^ 1023] in magnitude. *)
Lemma int_truediv_returns (a b : Z) :
  b <> 0 -> Z.abs a < 2 ^ 1023 -> exists q, int_truediv a b = Ok q.
Proof.
  intros Hb Ha. unfold int_truediv.
  destruct (Z.eqb_spec b 0) as [-> | _]; [ contradiction | ].
  destruct a as [| ma | ma], b as [| mb | mb]; try contradiction;
    try (eexists; reflexivity); cbn [raw_of_int].
  all: match goal with
       | |- context [fdiv (S754_finite ?sa ?ma 0) (S754_finite ?sb ?mb 0)] =>
           destruct (fdiv_finite sa sb ma mb) as [(z & ->) | (m & e & ->)];
           [ simpl in Ha; lia | eexists; reflexivity | eexists; reflexivity ]
       end.
Qed.

(** No shift: the record is the one of the location. *)
Lemma shr_fexp_noshift (m e : Z) (l : location) :
  Spec.fexp64 (Zdigits2 m + e) - e <= 0 ->
  shr_fexp prec emax m e l = (shr_record_of_loc m l, e).
Proof.
  intros Hk. unfold shr_fexp, shr. rewrite fexp64_eq.
  destruct (Spec.fexp64 (Zdigits2 m + e) - e) as [| p | p]; [ | lia | ];
    reflexivity.
Qed.

(** A mantissa of 53 bits with an exponent in range is already rounded. *)
Lemma binary_round_aux_exact (s : bool) (m : positive) (e : Z) :
  digits2_pos m = 53%positive -> -1074 <= e <= 971 ->
  binary_round_aux prec emax s (Zpos m) e loc_Exact = S754_finite s m e.
Proof.
  intros Hd He. unfold binary_round_aux.
  assert (Spec.fexp64 (Zdigits2 (Zpos m) + e) - e <= 0) as Hk.
  { simpl. rewrite Hd. unfold Spec.fexp64. lia. }
  rewrite (shr_fexp_noshift _ _ _ Hk).
  cbn [shr_record_of_loc shr_m loc_of_shr_record round_nearest_even].
  rewrite (shr_fexp_noshift _ _ _ Hk). cbn [shr_record_of_loc shr_m].
  replace (e <=? emax - prec) with true; [ reflexivity | ].
  symmetry. apply Z.leb_le. change (emax - prec) with 971. lia.
Qed.

(** The same with one spare zero bit. *)
Lemma binary_round_aux_exact_double (s : bool) (m : positive) (e : Z) :
  digits2_pos m = 53%positive -> -1074 <= e + 1 <= 971 ->
  binary_round_aux prec emax s (Zpos m~0) e loc_Exact
  = S754_finite s m (e + 1).
Proof.
  intros Hd He. unfold binary_round_aux.
  assert (shr_fexp prec emax (Zpos m~0) e loc_Exact
          = (Build_shr_record (Zpos m) false false, e + 1)) as ->.
  { unfold shr_fexp, shr. rewrite fexp64_eq.
    replace (Spec.fexp64 (Zdigits2 (Zpos m~0) + e) - e) with 1.
    - reflexivity.
    - simpl. rewrite Hd. unfold Spec.fexp64. simpl. lia. }
  cbn [shr_m loc_of_shr_record round_nearest_even].
  assert (Spec.fexp64 (Zdigits2 (Zpos m) + (e + 1)) - (e + 1) <= 0) as Hk.
  { simpl. rewrite Hd. unfold Spec.fexp64. lia. }
  rewrite (shr_fexp_noshift _ _ _ Hk). cbn [shr_record_of_loc shr_m].
  replace (e + 1 <=? emax - prec) with true; [ reflexivity | ].
  symmetry. apply Z.leb_le. change (emax - prec) with 971. lia.
Qed.

(** Dividing a normal float by 1024.0 lowers its exponent by ten. *)
Lemma fdiv_1024 (m : positive) (e : Z) :
  digits2_pos m = 53%positive -> -1063 <= e <= 971 ->
  fdiv (S754_finite false m e) f1024_0 = S754_finite false m (e - 10).
Proof.
  intros Hd He. unfold fdiv, f1024_0, SFdiv.
  assert (SFdiv_core_binary prec emax (Zpos m) e 4503599627370496 (-42)
          = (Zpos m~0, e - 11, loc_Exact)) as ->.
  { unfold SFdiv_core_binary.
    change (Zdigits2 4503599627370496) with 53.
    change (Zdigits2 (Zpos m)) with (Zpos (digits2_pos m)). rewrite Hd.
    rewrite fexp64_eq.
    replace (Z.min (Spec.fexp64 (53 + e - (53 + -42))) (e - -42)) with (e - 11)
      by (unfold Spec.fexp64; lia).
    replace (e - -42 - (e - 11)) with 53 by lia.
    rewrite Z.shiftl_mul_pow2 by lia.
    replace (Zpos m * 2 ^ 53) with (Zpos m~0 * 4503599627370496)
      by (rewrite (Pos2Z.inj_xO m); change (2 ^ 53) with (2 * 4503599627370496); lia).
    pose proof (Z.div_eucl_eq (Zpos m~0 * 4503599627370496) 4503599627370496)
      as Heq.
    pose proof (Z.mod_pos_bound (Zpos m~0 * 4503599627370496) 4503599627370496)
      as Hmod.
    unfold Z.modulo in Hmod.
    destruct (Z.div_eucl (Zpos m~0 * 4503599627370496) 4503599627370496)
      as [q r].
    assert (q = Zpos m~0 /\ r = 0) as [-> ->] by lia.
    reflexivity. }
  change (xorb false false) with false.
  replace (e - 10) with (e - 11 + 1) by lia.
  apply binary_round_aux_exact_double; [ exact Hd | lia ].
Qed.

(** Comparing a normal positive float with 1024.0 compares exponents. *)
Lemma flt_1024 (m : positive) (e : Z) :
  digits2_pos m = 53%positive ->
  flt (S754_finite false m e) f1024_0 = (e <? -42).
Proof.
  intros Hd. unfold flt, SFltb, f1024_0, SFcompare.
  destruct (Z.compare_spec e (-42)) as [-> | Hlt | Hgt].
  - replace (Pos.compare_cont Eq m 4503599627370496) with
      (Pos.compare m 4503599627370496) by reflexivity.
    destruct (Pos.compare_spec m 4503599627370496) as [_ | Hm | _];
      [ reflexivity | | reflexivity ].
    exfalso.
    pose proof (Zdigits2_bounds m) as [Hlo _].
    change (Zdigits2 (Zpos m)) with (Zpos (digits2_pos m)) in Hlo.
    rewrite Hd in Hlo.
    change (2 ^ (53 - 1)) with 4503599627370496 in Hlo.
    apply Pos2Z.pos_lt_pos in Hm. lia.
  - symmetry. apply Z.ltb_lt. exact Hlt.
  - symmetry. apply Z.ltb_ge. lia.
Qed.

Lemma iter_xO_value (m k : positive) :
  Zpos (Pos.iter xO m k) = Zpos m * 2 ^ Zpos k.
Proof.
  induction k as [| k IH] using Pos.peano_ind.
  - simpl. lia.
  - rewrite Pos.iter_succ, Pos2Z.inj_xO, IH.
    rewrite Pos2Z.inj_succ, Z.pow_succ_r by lia. lia.
Qed.

Lemma iter_xO_digits (m k : positive) :
  digits2_pos (Pos.iter xO m k) = (digits2_pos m + k)%positive.
Proof.
  induction k as [| k IH] using Pos.peano_ind.
  - simpl. lia.
  - rewrite Pos.iter_succ. cbn [digits2_pos]. rewrite IH. lia.
Qed.

(** An integer of at most 53 bits converts exactly: the mantissa is the
    integer shifted up to 53 bits. *)
Lemma float_of_int_small (n : Z) :
  0 < n < 2 ^ 53 ->
  exists m e,
    float_of_int n = Ok (S754_finite false m e) /\
    digits2_pos m = 53%positive /\
    -52 <= e <= 0 /\
    Zpos m = n * 2 ^ (- e).
Proof.
  intros [Hpos Hlt]. destruct n as [| p | p]; try lia.
  pose proof (Zdigits2_le (Zpos p) 53 ltac:(lia) ltac:(lia) Hlt) as Hd.
  pose proof (Zdigits2_pos p) as Hd0.
  unfold float_of_int, binary_normalize, binary_round.
  rewrite fexp64_eq.
  change (Zpos (digits2_pos p)) with (Zdigits2 (Zpos p)) in *.
  replace (Spec.fexp64 (Zdigits2 (Zpos p) + 0)) with (Zdigits2 (Zpos p) - 53)
    by (unfold Spec.fexp64; lia).
  unfold shl_align.
  destruct (Zdigits2 (Zpos p) - 53 - 0) as [| k | k] eqn:Hk; [ | lia | ].
  - (* already 53 bits *)
    assert (digits2_pos p = 53%positive) as Hdp.
    { change (Zdigits2 (Zpos p)) with (Zpos (digits2_pos p)) in Hk. lia. }
    rewrite binary_round_aux_exact by (try exact Hdp; lia).
    exists p, 0. split; [ reflexivity | ]. split; [ exact Hdp | ].
    split; [ lia | ]. change (2 ^ (- 0)) with 1. lia.
  - (* shifted left by [k] bits *)
    assert (digits2_pos (Pos.iter xO p k) = 53%positive) as Hdp.
    { rewrite iter_xO_digits.
      change (Zdigits2 (Zpos p)) with (Zpos (digits2_pos p)) in Hk. lia. }
    rewrite binary_round_aux_exact by (try exact Hdp; lia).
    exists (Pos.iter xO p k), (Zdigits2 (Zpos p) - 53).
    split; [ reflexivity | ]. split; [ exact Hdp | ].
    split; [ lia | ].
    rewrite iter_xO_value. f_equal. f_equal. lia.
Qed.

(** Rounding a long mantissa in the normal range gives 53 bits. *)
Lemma binary_round_aux_long (s : bool) (mx : positive) (ex : Z)
    (lx : location) :
  53 <= Zdigits2 (Zpos mx) ->
  -1074 <= Zdigits2 (Zpos mx) + ex - 53 ->
  binary_round_aux prec emax s (Zpos mx) ex lx = S754_infinity s \/
  exists m e,
    binary_round_aux prec emax s (Zpos mx) ex lx = S754_finite s m e /\
    digits2_pos m = 53%positive /\
    Zdigits2 (Zpos mx) + ex - 53 <= e <= 971.
Proof.
  intros Hlong Hnormal. rewrite binary_round_aux_eq. cbv zeta.
  set (d := Zdigits2 (Zpos mx)) in *.
  set (r1 := fst (shr_fexp prec emax (Zpos mx) ex lx)).
  set (e1 := snd (shr_fexp prec emax (Zpos mx) ex lx)).
  set (m2 := round_nearest_even (shr_m r1) (loc_of_shr_record r1)).
  assert (Spec.shift_count (Zpos mx) ex = d - 53) as Hk1.
  { unfold Spec.shift_count, Spec.fexp64. fold d. lia. }
  assert (shr_m r1 = Zpos mx / 2 ^ (d - 53)) as Hm1.
  { unfold r1. rewrite shr_fexp_m by lia. rewrite Hk1. reflexivity. }
  assert (e1 = ex + (d - 53)) as He1.
  { unfold e1. rewrite shr_fexp_e, Hk1. reflexivity. }
  pose proof (Zdigits2_bounds mx) as [Hlo Hhi]. fold d in Hlo, Hhi.
  assert (0 < 2 ^ (d - 53)) as Hpow by (apply Z.pow_pos_nonneg; lia).
  assert (2 ^ 52 <= shr_m r1 < 2 ^ 53) as Hm1b.
  { rewrite Hm1. split.
    - apply Z.div_le_lower_bound; [ exact Hpow | ].
      rewrite <- Z.pow_add_r by lia.
      replace (d - 53 + 52) with (d - 1) by lia. exact Hlo.
    - apply Z.div_lt_upper_bound; [ exact Hpow | ].
      rewrite <- Z.pow_add_r by lia.
      replace (d - 53 + 53) with d by lia. exact Hhi. }
  pose proof (round_nearest_even_bounds (shr_m r1) (loc_of_shr_record r1))
    as Hround. fold m2 in Hround.
  assert (2 ^ 52 <= m2 <= 2 ^ 53) as Hm2b by lia.
  change (2 ^ 52) with 4503599627370496 in *.
  change (2 ^ 53) with 9007199254740992 in *.
  assert (0 <= m2) as Hm2pos by lia.
  rewrite (shr_fexp_m m2 e1 loc_Exact Hm2pos).
  rewrite (shr_fexp_e m2 e1 loc_Exact).
  destruct (Z.eq_dec m2 9007199254740992) as [Hcarry | Hnocarry].
  - (* the rounding carried into a 54th bit *)
    rewrite Hcarry.
    assert (Spec.shift_count 9007199254740992 e1 = 1) as ->.
    { unfold Spec.shift_count, Spec.fexp64.
      change (Zdigits2 9007199254740992) with 54. lia. }
    change (9007199254740992 / 2 ^ 1) with (Zpos 4503599627370496).
    cbv iota beta.
    destruct (Z.leb_spec (e1 + 1) (emax - prec)) as [Hle | Hgt].
    + right. exists 4503599627370496%positive, (e1 + 1).
      split; [ reflexivity | ]. split; [ reflexivity | ].
      change (emax - prec) with 971 in Hle. lia.
    + left. reflexivity.
  - assert (Zdigits2 m2 = 53) as Hd2.
    { destruct m2 as [| p2 | p2]; try lia.
      apply Zdigits2_unique.
      change (2 ^ (53 - 1)) with 4503599627370496.
      change (2 ^ 53) with 9007199254740992. lia. }
    assert (Spec.shift_count m2 e1 = 0) as ->.
    { unfold Spec.shift_count, Spec.fexp64. rewrite Hd2. lia. }
    change (2 ^ 0) with 1. rewrite Z.div_1_r.
    destruct m2 as [| p2 | p2]; try lia.
    replace (e1 + 0) with e1 by lia.
    destruct (Z.leb_spec e1 (emax - prec)) as [Hle | Hgt].
    + right. exists p2, e1.
      split; [ reflexivity | ].
      split; [ | change (emax - prec) with 971 in Hle; lia ].
      change (Zdigits2 (Zpos p2)) with (Zpos (digits2_pos p2)) in Hd2. lia.
    + left. reflexivity.
Qed.

(** An integer of more than 53 bits either overflows or converts to a
    normal float with a positive exponent. *)
Lemma float_of_int_large (n : Z) :
  2 ^ 53 <= n ->
  float_of_int n = Raise OverflowError \/
  exists m e,
    float_of_int n = Ok (S754_finite false m e) /\
    digits2_pos m = 53%positive /\ 1 <= e <= 971.
Proof.
  intros Hn. change (2 ^ 53) with 9007199254740992 in Hn.
  destruct n as [| p | p]; try lia.
  assert (54 <= Zdigits2 (Zpos p)) as Hd.
  { pose proof (Zdigits2_lt_pow (Zpos p) ltac:(lia)) as Hlt.
    destruct (Z_le_gt_dec 54 (Zdigits2 (Zpos p))) as [Hle | Hgt];
      [ exact Hle | exfalso ].
    assert (2 ^ Zdigits2 (Zpos p) <= 2 ^ 53)
      by (apply Z.pow_le_mono_r; lia).
    change (2 ^ 53) with 9007199254740992 in *. lia. }
  unfold float_of_int, binary_normalize, binary_round.
  rewrite fexp64_eq.
  change (Zpos (digits2_pos p)) with (Zdigits2 (Zpos p)) in *.
  replace (Spec.fexp64 (Zdigits2 (Zpos p) + 0)) with (Zdigits2 (Zpos p) - 53)
    by (unfold Spec.fexp64; lia).
  unfold shl_align.
  destruct (Zdigits2 (Zpos p) - 53 - 0) as [| k | k] eqn:Hk; try lia.
  destruct (binary_round_aux_long false p 0 loc_Exact)
    as [-> | (m & e & -> & Hdm & He)]; try lia.
  - left. reflexivity.
  - right. exists m, e. split; [ reflexivity | ].
    split; [ exact Hdm | lia ].
Qed.

End Binary64Facts.

(** ** Formatting with one decimal *)

Section FormatFacts.

Lemma round_half_even_scale (num den c : Z) :
  0 < den -> 0 < c ->
  round_half_even (num * c) (den * c) = round_half_even num den.
Proof.
  intros Hden Hc. unfold round_half_even.
  rewrite Z.div_mul_cancel_r by lia.
  rewrite Zmult_mod_distr_r.
  replace (2 * (num mod den * c)) with (2 * (num mod den) * c) by lia.
  rewrite <- (Zmult_compare_compat_r (2 * (num mod den)) den c) by lia.
  reflexivity.
Qed.

Lemma decimal1_scale (num den c : Z) :
  0 < den -> 0 < c -> decimal1 (num * c) (den * c) = decimal1 num den.
Proof.
  intros Hden Hc. unfold decimal1.
  replace (10 * (num * c)) with (10 * num * c) by lia.
  rewrite round_half_even_scale by assumption. reflexivity.
Qed.

(** The text of a positive float that stands for [n / 2 ^ j]. *)
Lemma format_1f_dyadic (m : positive) (e n j : Z) :
  0 <= j -> e + j <= 0 -> Zpos m = n * 2 ^ (- (e + j)) ->
  format_1f (S754_finite false m e) = decimal1 n (2 ^ j).
Proof.
  intros Hj Hej Hm. unfold format_1f, sign_str.
  change ("" +:+ ?s) with s.
  assert (0 < 2 ^ (- (e + j))) as Hc by (apply Z.pow_pos_nonneg; lia).
  assert (0 < 2 ^ j) as Hpj by (apply Z.pow_pos_nonneg; lia).
  destruct (Z.leb_spec 0 e) as [He | He].
  - assert (e = 0) by lia. assert (j = 0) by lia. subst e j.
    change (2 ^ 0) with 1. change (2 ^ (- (0 + 0))) with 1 in Hm.
    f_equal; lia.
  - rewrite Hm.
    replace (2 ^ (- e)) with (2 ^ j * 2 ^ (- (e + j))).
    + apply decimal1_scale; assumption.
    + rewrite <- Z.pow_add_r by lia. f_equal; lia.
Qed.

(** The text of a positive float with integer value [m * 2 ^ e], scaled
    down by [2 ^ j]. *)
Lemma format_1f_scaled (m : positive) (e j : Z) :
  0 <= e -> 0 <= j ->
  format_1f (S754_finite false m (e - j)) = decimal1 (Zpos m * 2 ^ e) (2 ^ j).
Proof.
  intros He Hj. unfold format_1f, sign_str.
  change ("" +:+ ?s) with s.
  assert (0 < 2 ^ e) as Hpe by (apply Z.pow_pos_nonneg; lia).
  assert (0 < 2 ^ j) as Hpj by (apply Z.pow_pos_nonneg; lia).
  destruct (Z.leb_spec 0 (e - j)) as [Hge | Hlt].
  - replace (Zpos m * 2 ^ e) with (Zpos m * 2 ^ (e - j) * 2 ^ j).
    + rewrite <- (decimal1_scale (Zpos m * 2 ^ (e - j)) 1 (2 ^ j)) by lia.
      f_equal; lia.
    + rewrite <- Z.mul_assoc, <- Z.pow_add_r by lia. f_equal. f_equal; lia.
  - replace (2 ^ j) with (2 ^ (- (e - j)) * 2 ^ e).
    + symmetry. apply decimal1_scale; [ apply Z.pow_pos_nonneg; lia | lia ].
    + rewrite <- Z.pow_add_r by lia. f_equal; lia.
Qed.

(** Where a float that stands for the integer [n] falls with respect to a
    power of two. *)
Lemma dyadic_threshold (m : positive) (e n t : Z) :
  digits2_pos m = 53%positive -> e <= 0 -> 0 <= t ->
  Zpos m = n * 2 ^ (- e) ->
  (n < 2 ^ t <-> e + 53 <= t).
Proof.
  intros Hd He Ht Hm.
  pose proof (Zdigits2_bounds m) as [Hlo Hhi].
  change (Zdigits2 (Zpos m)) with (Zpos (digits2_pos m)) in Hlo, Hhi.
  rewrite Hd in Hlo, Hhi.
  assert (0 < 2 ^ (- e)) as Hc by (apply Z.pow_pos_nonneg; lia).
  assert (2 ^ (t - e) = 2 ^ t * 2 ^ (- e)) as Hsplit.
  { rewrite <- Z.pow_add_r by lia. f_equal; lia. }
  split.
  - intros Hn.
    destruct (Z_le_gt_dec (e + 53) t) as [Hle | Hgt]; [ exact Hle | exfalso ].
    assert (2 ^ (t - e) <= 2 ^ (53 - 1)) by (apply Z.pow_le_mono_r; lia).
    assert (Zpos m < 2 ^ (t - e)) by (rewrite Hm, Hsplit; nia).
    lia.
  - intros Hle.
    assert (2 ^ 53 <= 2 ^ (t - e)) by (apply Z.pow_le_mono_r; lia).
    assert (n * 2 ^ (- e) < 2 ^ t * 2 ^ (- e)) by (rewrite <- Hm, <- Hsplit; lia).
    nia.
Qed.

End FormatFacts.

(** ** image_ops.py: the answers of the evaluator *)

Section SuitabilityTheorems.

Lemma aspect_ratio_returns (width height : Z) :
  height <> 0 -> Z.abs width < 2 ^ 1023 ->
  exists ar, ImageOps.aspect_ratio width height = Ok ar.
Proof. apply int_truediv_returns. Qed.

(** C4, as the code has it.  A picture with a non-positive side is
    rejected with score 0.0 whatever the target.  For a picture with
    positive sides, whenever both aspect ratios are computed the evaluator
    returns, its category and score are one of the four pairs, and they are
    the ones that the ordered decision list gives.  Both aspect ratios are
    computed when the target height is not zero and the two widths are
    below [2 ^ 1023] in magnitude. *)
Theorem evaluate_suitability_outcomes (iw ih tw th : Z) (tol : float)
    (ac au : bool) :
  (iw <= 0 \/ ih <= 0 ->
     ImageOps.evaluate_suitability (iw, ih) (tw, th) tol ac au =
     Ok (ImageOps.mkSuitabilityResult "reject" f0_0 "Invalid dimensions")) /\
  (0 < iw -> 0 < ih ->
     forall image_ar target_ar,
       ImageOps.aspect_ratio iw ih = Ok image_ar ->
       ImageOps.aspect_ratio tw th = Ok target_ar ->
       exists r,
         ImageOps.evaluate_suitability (iw, ih) (tw, th) tol ac au = Ok r /\
         In (ImageOps.category r, ImageOps.score r) Spec.outcomes /\
         Spec.decision_list
           ((iw >=? tw) && (ih >=? th))
           (ImageOps.within_tolerance image_ar target_ar tol) ac au
           (ImageOps.category r) (ImageOps.score r)) /\
  (0 < iw < 2 ^ 1023 -> 0 < ih -> th <> 0 -> Z.abs tw < 2 ^ 1023 ->
     exists image_ar target_ar,
       ImageOps.aspect_ratio iw ih = Ok image_ar /\
       ImageOps.aspect_ratio tw th = Ok target_ar).
Proof.
  split; [ apply evaluate_suitability_invalid | ]. split.
  - intros Hiw Hih a t Ha Ht.
    rewrite (evaluate_suitability_valid iw ih tw th tol ac au Hiw Hih).
    rewrite Ha, Ht. cbn [mbind result_bind Py.bind].
    eexists. split; [ reflexivity | ].
    destruct ((iw >=? tw) && (ih >=? th)) eqn:Hfits;
      destruct (ImageOps.within_tolerance a t tol) eqn:Hwithin;
      destruct ac eqn:Hac; destruct au eqn:Hau;
      cbn [andb ImageOps.category ImageOps.score Spec.outcomes In];
      (split; [ tauto | ]);
      first [ apply Spec.rule_perfect; reflexivity
            | apply Spec.rule_croppable; reflexivity
            | apply Spec.rule_upscalable; reflexivity
            | apply Spec.rule_reject; tauto ].
  - intros [Hiw Hbound] Hih Hth Htw.
    destruct (aspect_ratio_returns iw ih ltac:(lia) ltac:(lia)) as [a Ha].
    destruct (aspect_ratio_returns tw th Hth Htw) as [t Ht].
    exists a, t. split; assumption.
Qed.

(** The decision list leaves one answer only. *)
Lemma decision_list_functional (fits within ac au : bool)
    (c c' : string) (s s' : float) :
  Spec.decision_list fits within ac au c s ->
  Spec.decision_list fits within ac au c' s' ->
  c = c' /\ s = s'.
Proof.
  intros H1 H2.
  destruct H1, H2; subst; try (split; reflexivity);
    try discriminate;
    repeat match goal with
           | H : _ \/ _ |- _ => destruct H
           end; discriminate.
Qed.

(** Past the guard, a target height of zero is the one way into the
    division by zero, and no result comes out of it. *)
Lemma evaluate_suitability_zero_division (iw ih tw th : Z) (tol : float)
    (ac au : bool) :
  0 < iw -> 0 < ih ->
  (ImageOps.evaluate_suitability (iw, ih) (tw, th) tol ac au
     = Raise ZeroDivisionError -> th = 0) /\
  (th = 0 ->
     forall r, ImageOps.evaluate_suitability (iw, ih) (tw, th) tol ac au
               <> Ok r) /\
  (th = 0 -> forall image_ar,
     ImageOps.aspect_ratio iw ih = Ok image_ar ->
     ImageOps.evaluate_suitability (iw, ih) (tw, th) tol ac au
       = Raise ZeroDivisionError).
Proof.
  intros Hiw Hih.
  rewrite (evaluate_suitability_valid iw ih tw th tol ac au Hiw Hih).
  destruct (ImageOps.aspect_ratio iw ih) as [a | e] eqn:Ha;
    cbn [mbind result_bind Py.bind].
  - destruct (ImageOps.aspect_ratio tw th) as [t | e] eqn:Ht;
      cbn [mbind result_bind Py.bind].
    + split; [ discriminate | ].
      split; intros ->;
        pose proof (proj2 (aspect_ratio_zero_division tw 0) eq_refl);
        congruence.
    + split; [ | split ].
      * intros Heq. injection Heq as ->.
        apply (aspect_ratio_zero_division tw th). exact Ht.
      * intros _ r. discriminate.
      * intros -> image_ar _.
        pose proof (proj2 (aspect_ratio_zero_division tw 0) eq_refl).
        congruence.
  - split; [ | split ].
    + intros Heq. injection Heq as ->.
      apply aspect_ratio_zero_division in Ha. lia.
    + intros _ r. discriminate.
    + intros _ image_ar. discriminate.
Qed.

(** C10, as the code has it.  For a picture with positive sides whose
    aspect ratio is a float, as it is for every width below [2 ^ 1023], the
    evaluator raises [ZeroDivisionError] exactly when the target height is
    zero; for any picture with positive sides it returns only when the
    target height is not zero; and for a given target the division by zero
    can be reached from some picture with positive sides exactly when the
    target height is zero.  A picture with a non-positive side never gets
    there. *)
Theorem evaluate_suitability_total_iff (tw th : Z) :
  (forall iw ih tol ac au, 0 < iw < 2 ^ 1023 -> 0 < ih ->
     (ImageOps.evaluate_suitability (iw, ih) (tw, th) tol ac au
        = Raise ZeroDivisionError <-> th = 0)) /\
  (forall iw ih tol ac au image_ar, 0 < iw -> 0 < ih ->
     ImageOps.aspect_ratio iw ih = Ok image_ar ->
     (ImageOps.evaluate_suitability (iw, ih) (tw, th) tol ac au
        = Raise ZeroDivisionError <-> th = 0)) /\
  (forall iw ih tol ac au r, 0 < iw -> 0 < ih ->
     ImageOps.evaluate_suitability (iw, ih) (tw, th) tol ac au = Ok r ->
     th <> 0) /\
  ((forall iw ih tol ac au, 0 < iw -> 0 < ih ->
      ImageOps.evaluate_suitability (iw, ih) (tw, th) tol ac au
        <> Raise ZeroDivisionError) <-> th <> 0) /\
  (forall iw ih tol ac au, iw <= 0 \/ ih <= 0 ->
     ImageOps.evaluate_suitability (iw, ih) (tw, th) tol ac au
       <> Raise ZeroDivisionError).
Proof.
  split; [ | split; [ | split; [ | split ] ] ].
  - intros iw ih tol ac au [Hiw Hbound] Hih.
    destruct (evaluate_suitability_zero_division iw ih tw th tol ac au
                Hiw Hih) as (Honly & _ & Hraise).
    split; [ exact Honly | ].
    intros Hth.
    destruct (aspect_ratio_returns iw ih ltac:(lia) ltac:(lia)) as [a Ha].
    exact (Hraise Hth a Ha).
  - intros iw ih tol ac au a Hiw Hih Ha.
    destruct (evaluate_suitability_zero_division iw ih tw th tol ac au
                Hiw Hih) as (Honly & _ & Hraise).
    split; [ exact Honly | ].
    intros Hth. exact (Hraise Hth a Ha).
  - intros iw ih tol ac au r Hiw Hih Hok Hth.
    destruct (evaluate_suitability_zero_division iw ih tw th tol ac au
                Hiw Hih) as (_ & Hnone & _).
    exact (Hnone Hth r Hok).
  - split.
    + intros Hnever Hth.
      destruct (evaluate_suitability_zero_division 1 1 tw th f0_1 true false
                  ltac:(lia) ltac:(lia)) as (_ & _ & Hraise).
      apply (Hnever 1 1 f0_1 true false ltac:(lia) ltac:(lia)).
      apply (Hraise Hth f1_0). reflexivity.
    + intros Hth iw ih tol ac au Hiw Hih Hzde.
      destruct (evaluate_suitability_zero_division iw ih tw th tol ac au
                  Hiw Hih) as (Honly & _ & _).
      exact (Hth (Honly Hzde)).
  - intros iw ih tol ac au Hbad.
    rewrite (evaluate_suitability_invalid iw ih tw th tol ac au Hbad).
    discriminate.
Qed.

End SuitabilityTheorems.

Lemma evaluate_suitability_outcomes_witness :
  exists r,
    ImageOps.evaluate_suitability (12000, 1440) (7680, 1440) f0_2 true false
      = Ok r /\
    In (ImageOps.category r, ImageOps.score r) Spec.outcomes.
Proof.
  pose proof (evaluate_suitability_outcomes 12000 1440 7680 1440 f0_2
                true false) as (_ & Hlist & Hreturns).
  destruct Hreturns as (a & t & Ha & Ht).
  - split; [ lia | reflexivity ].
  - lia.
  - discriminate.
  - reflexivity.
  - destruct (Hlist ltac:(lia) ltac:(lia) a t Ha Ht) as (r & Hr & Hin & _).
    exists r. split; [ exact Hr | exact Hin ].
Defined.

(** C4, as it is worded, fails: with a target height of zero and a picture
    with positive sides the evaluator raises and returns no score. *)
Lemma evaluate_suitability_outcomes_counterexample :
  ImageOps.evaluate_suitability (5760, 1080) (5760, 0) f0_1 true false
    = Raise ZeroDivisionError /\
  ~ exists r,
      ImageOps.evaluate_suitability (5760, 1080) (5760, 0) f0_1 true false
        = Ok r /\
      In (ImageOps.category r, ImageOps.score r) Spec.outcomes.
Proof.
  split; [ vm_compute; reflexivity | ].
  intros (r & Hr & _). vm_compute in Hr. discriminate.
Qed.

Lemma evaluate_suitability_total_iff_witness :
  ImageOps.evaluate_suitability (5760, 1080) (5760, 0) f0_1 true false
    = Raise ZeroDivisionError.
Proof.
  apply (proj1 (evaluate_suitability_total_iff 5760 0)
           5760 1080 f0_1 true false).
  - split; [ lia | reflexivity ].
  - lia.
  - reflexivity.
Defined.

(** C10, as it is worded, fails: a picture so wide that its own aspect
    ratio overflows raises [OverflowError] before the target is looked at,
    so a target height of zero does not lead to the division by zero. *)
Lemma evaluate_suitability_total_iff_counterexample :
  let r := ImageOps.evaluate_suitability (2 ^ 1024, 1) (7680, 0) f0_1
             true false in
  0 < 2 ^ 1024 /\ r = Raise OverflowError /\
  ~ (r = Raise ZeroDivisionError <-> 0 = 0).
Proof.
  assert (ImageOps.evaluate_suitability (2 ^ 1024, 1) (7680, 0) f0_1
            true false = Raise OverflowError) as Hr
    by (vm_compute; reflexivity).
  cbv zeta. rewrite Hr.
  split; [ reflexivity | ]. split; [ reflexivity | ].
  intros [_ Hback]. specialize (Hback eq_refl). discriminate.
Qed.

(** ** utils.py: human_size *)

Section HumanSizeFacts.

Lemma float_truediv_step (x : float) :
  float_truediv x Utils.step = Ok (fdiv x f1024_0).
Proof. reflexivity. Qed.

(** The loop once [num_bytes] has become a normal float. *)
Lemma human_size_loop_float (m : positive) (e : Z) :
  digits2_pos m = 53%positive -> -1043 <= e <= 971 ->
  Utils.human_size_loop ["KB"; "MB"; "GB"]
    (Utils.Float (S754_finite false m e)) =
  Ok (if e <? -42 then format_1f (S754_finite false m e) +:+ " KB"
      else if e - 10 <? -42 then
        format_1f (S754_finite false m (e - 10)) +:+ " MB"
      else if e - 20 <? -42 then
        format_1f (S754_finite false m (e - 20)) +:+ " GB"
      else format_1f (S754_finite false m (e - 30)) +:+ " TB").
Proof.
  intros Hd He.
  cbn [Utils.human_size_loop Utils.lt_step Utils.div_step Utils.fmt_1f].
  unfold Utils.step at 1. rewrite (flt_1024 m e Hd).
  destruct (e <? -42); [ reflexivity | ].
  rewrite float_truediv_step, (fdiv_1024 m e Hd) by lia.
  cbn [mbind result_bind Py.bind].
  unfold Utils.step at 1. rewrite (flt_1024 m (e - 10) Hd).
  destruct (e - 10 <? -42); [ reflexivity | ].
  rewrite float_truediv_step, (fdiv_1024 m (e - 10) Hd) by lia.
  cbn [mbind result_bind Py.bind].
  unfold Utils.step at 1. rewrite (flt_1024 m (e - 10 - 10) Hd).
  replace (e - 10 - 10) with (e - 20) by lia.
  destruct (e - 20 <? -42); [ reflexivity | ].
  rewrite float_truediv_step, (fdiv_1024 m (e - 20) Hd) by lia.
  cbn [mbind result_bind Py.bind].
  replace (e - 20 - 10) with (e - 30) by lia. reflexivity.
Qed.

Lemma human_size_unfold (n : Z) (x : float) :
  float_of_int n = Ok x ->
  Utils.human_size n =
  if n <? 1024 then Ok (format_1f x +:+ " B")
  else Utils.human_size_loop ["KB"; "MB"; "GB"] (Utils.Float (fdiv x f1024_0)).
Proof.
  intros Hx. unfold Utils.human_size.
  cbn [Utils.human_size_loop Utils.lt_step Utils.div_step Utils.fmt_1f].
  rewrite Hx. cbn [mbind result_bind Py.bind].
  rewrite float_truediv_step. cbn [Py.bind].
  destruct (n <? 1024); reflexivity.
Qed.

Lemma float_to_int_dyadic (m : positive) (e n : Z) :
  e <= 0 -> Zpos m = n * 2 ^ (- e) ->
  Spec.float_to_int (S754_finite false m e) = n.
Proof.
  intros He Hm. unfold Spec.float_to_int.
  destruct (Z.leb_spec 0 e) as [Hge | Hlt].
  - assert (e = 0) by lia. subst e.
    change (2 ^ (- 0)) with 1 in Hm. change (2 ^ 0) with 1. lia.
  - rewrite Hm. apply Z.div_mul.
    assert (0 < 2 ^ (- e)) by (apply Z.pow_pos_nonneg; lia). lia.
Qed.

Lemma float_of_int_large_returns (n : Z) :
  2 ^ 53 <= n < 2 ^ 1023 ->
  exists m e,
    float_of_int n = Ok (S754_finite false m e) /\
    digits2_pos m = 53%positive /\ 1 <= e <= 971.
Proof.
  intros [Hlo Hhi].
  destruct (float_of_int_large n Hlo) as [Hraise | Hok]; [ exfalso | exact Hok ].
  change (2 ^ 53) with 9007199254740992 in Hlo.
  destruct n as [| p | p]; try lia.
  assert (54 <= Zdigits2 (Zpos p)) as Hd.
  { pose proof (Zdigits2_lt_pow (Zpos p) ltac:(lia)) as Hlt.
    destruct (Z_le_gt_dec 54 (Zdigits2 (Zpos p))) as [Hle | Hgt];
      [ exact Hle | exfalso ].
    assert (2 ^ Zdigits2 (Zpos p) <= 2 ^ 53)
      by (apply Z.pow_le_mono_r; lia).
    change (2 ^ 53) with 9007199254740992 in *. lia. }
  assert (Zdigits2 (Zpos p) <= 1023) as Hd'
    by (apply Zdigits2_le; lia).
  revert Hraise.
  unfold float_of_int, binary_normalize, binary_round.
  rewrite fexp64_eq.
  change (Zpos (digits2_pos p)) with (Zdigits2 (Zpos p)) in *.
  replace (Spec.fexp64 (Zdigits2 (Zpos p) + 0)) with (Zdigits2 (Zpos p) - 53)
    by (unfold Spec.fexp64; lia).
  unfold shl_align.
  destruct (Zdigits2 (Zpos p) - 53 - 0) as [| k | k] eqn:Hk; try lia.
  destruct (binary_round_aux_finite false (Zpos p) 0 loc_Exact)
    as [(z & ->) | (m & e & ->)]; try lia; discriminate.
Qed.

Ltac thresholds :=
  change (2 ^ 53) with 9007199254740992 in *;
  change (2 ^ 40) with 1099511627776 in *;
  change (2 ^ 30) with 1073741824 in *;
  change (2 ^ 20) with 1048576 in *.

Ltac below_unit k :=
  let j := fresh "j" in
  let Hj := fresh "Hj" in
  intros j Hj;
  match k with
  | 0 => lia
  | 1 => assert (j = 0) as -> by lia;
         change (1024 * 1024 ^ 0) with 1024; lia
  | 2 => assert (j = 0 \/ j = 1) as [-> | ->] by lia;
         [ change (1024 * 1024 ^ 0) with 1024
         | change (1024 * 1024 ^ 1) with 1048576 ]; lia
  | 3 => assert (j = 0 \/ j = 1 \/ j = 2) as [-> | [-> | ->]] by lia;
         [ change (1024 * 1024 ^ 0) with 1024
         | change (1024 * 1024 ^ 1) with 1048576
         | change (1024 * 1024 ^ 2) with 1073741824 ]; lia
  | 4 => assert (j = 0 \/ j = 1 \/ j = 2 \/ j = 3)
           as [-> | [-> | [-> | ->]]] by lia;
         [ change (1024 * 1024 ^ 0) with 1024
         | change (1024 * 1024 ^ 1) with 1048576
         | change (1024 * 1024 ^ 2) with 1073741824
         | change (1024 * 1024 ^ 3) with 1099511627776 ]; lia
  end.

(** What [human_size] returns once [float(n)] is known to be [x]. *)
Lemma human_size_of_float (n : Z) (x0 : float) :
  0 <= n -> float_of_int n = Ok x0 ->
  exists (x : float) (k : Z),
    x0 = x /\
    (n < 2 ^ 53 -> Spec.float_to_int x = n) /\
    0 <= k <= 4 /\
    (k < 4 -> n < 1024 * 1024 ^ k) /\
    (forall j, 0 <= j < k -> 1024 * 1024 ^ j <= n) /\
    Utils.human_size n =
      Ok (decimal1 (Spec.float_to_int x) (1024 ^ k) +:+ " " +:+ Spec.unit_name k).
Proof.
  intros Hn0 Hx0.
  destruct (Z_lt_le_dec n (2 ^ 53)) as [Hsmall | Hlarge].
  - destruct (Z.eq_dec n 0) as [-> | Hnz].
    + injection Hx0 as <-.
      exists (S754_zero false), 0. repeat split; try lia; try reflexivity.
    + destruct (float_of_int_small n ltac:(lia))
        as (m & e & Hx & Hd & He & Hm).
      assert (x0 = S754_finite false m e) as Hsame by congruence.
      pose proof (float_to_int_dyadic m e n ltac:(lia) Hm) as Hint.
      pose proof (dyadic_threshold m e n 20 Hd ltac:(lia) ltac:(lia) Hm) as H20.
      pose proof (dyadic_threshold m e n 30 Hd ltac:(lia) ltac:(lia) Hm) as H30.
      pose proof (dyadic_threshold m e n 40 Hd ltac:(lia) ltac:(lia) Hm) as H40.
      thresholds.
      assert (forall k, 0 <= k ->
                format_1f (S754_finite false m (e - 10 * k))
                = decimal1 n (2 ^ (10 * k))) as Hfmt.
      { intros k Hk. apply format_1f_dyadic; [ lia | lia | ].
        rewrite Hm. f_equal; f_equal; lia. }
      rewrite (human_size_unfold n _ Hx).
      destruct (Z.ltb_spec n 1024) as [H10 | H10].
      * exists (S754_finite false m e), 0.
        split; [ exact Hsame | ]. split; [ intros _; exact Hint | ].
        split; [ lia | ]. split; [ intros _; exact H10 | ].
        split; [ below_unit 0 | ].
        rewrite Hint. change (1024 ^ 0) with (2 ^ (10 * 0)).
        rewrite <- Hfmt by lia.
        replace (e - 10 * 0) with e by lia. reflexivity.
      * rewrite (fdiv_1024 m e Hd) by lia.
        rewrite (human_size_loop_float m (e - 10) Hd) by lia.
        destruct (Z.ltb_spec (e - 10) (-42)) as [Hk1 | Hk1];
          [ | destruct (Z.ltb_spec (e - 10 - 10) (-42)) as [Hk2 | Hk2];
              [ | destruct (Z.ltb_spec (e - 10 - 20) (-42)) as [Hk3 | Hk3] ] ].
        -- exists (S754_finite false m e), 1.
           split; [ exact Hsame | ]. split; [ intros _; exact Hint | ].
           split; [ lia | ].
           split; [ intros _; change (1024 * 1024 ^ 1) with 1048576; lia | ].
           split; [ below_unit 1 | ].
           rewrite Hint. change (1024 ^ 1) with (2 ^ (10 * 1)).
           rewrite <- Hfmt by lia.
           replace (e - 10 * 1) with (e - 10) by lia. reflexivity.
        -- exists (S754_finite false m e), 2.
           split; [ exact Hsame | ]. split; [ intros _; exact Hint | ].
           split; [ lia | ].
           split; [ intros _; change (1024 * 1024 ^ 2) with 1073741824; lia | ].
           split; [ below_unit 2 | ].
           rewrite Hint. change (1024 ^ 2) with (2 ^ (10 * 2)).
           rewrite <- Hfmt by lia.
           replace (e - 10 * 2) with (e - 10 - 10) by lia. reflexivity.
        -- exists (S754_finite false m e), 3.
           split; [ exact Hsame | ]. split; [ intros _; exact Hint | ].
           split; [ lia | ].
           split; [ intros _; change (1024 * 1024 ^ 3) with 1099511627776; lia | ].
           split; [ below_unit 3 | ].
           rewrite Hint. change (1024 ^ 3) with (2 ^ (10 * 3)).
           rewrite <- Hfmt by lia.
           replace (e - 10 * 3) with (e - 10 - 20) by lia. reflexivity.
        -- exists (S754_finite false m e), 4.
           split; [ exact Hsame | ]. split; [ intros _; exact Hint | ].
           split; [ lia | ]. split; [ lia | ].
           split; [ below_unit 4 | ].
           rewrite Hint. change (1024 ^ 4) with (2 ^ (10 * 4)).
           rewrite <- Hfmt by lia.
           replace (e - 10 * 4) with (e - 10 - 30) by lia. reflexivity.
  - destruct (float_of_int_large n Hlarge)
      as [Hraise | (m & e & Hx & Hd & He)]; [ congruence | ].
    assert (x0 = S754_finite false m e) as Hsame by congruence.
    thresholds.
    exists (S754_finite false m e), 4.
    split; [ exact Hsame | ]. split; [ lia | ].
    split; [ lia | ]. split; [ lia | ].
    split; [ below_unit 4 | ].
    rewrite (human_size_unfold n _ Hx).
    destruct (Z.ltb_spec n 1024) as [H10 | H10]; [ lia | ].
    rewrite (fdiv_1024 m e Hd) by lia.
    rewrite (human_size_loop_float m (e - 10) Hd) by lia.
    destruct (Z.ltb_spec (e - 10) (-42)); [ lia | ].
    destruct (Z.ltb_spec (e - 10 - 10) (-42)); [ lia | ].
    destruct (Z.ltb_spec (e - 10 - 20) (-42)); [ lia | ].
    replace (e - 10 - 30) with (e - 40) by lia.
    rewrite (format_1f_scaled m e 40) by lia.
    unfold Spec.float_to_int.
    destruct (Z.leb_spec 0 e); [ reflexivity | lia ].
Qed.

Lemma decimal1_shape (num den : Z) :
  exists i d : Z,
    0 <= d <= 9 /\ decimal1 num den = pretty i +:+ "." +:+ pretty d.
Proof.
  unfold decimal1.
  exists (round_half_even (10 * num) den / 10),
         (round_half_even (10 * num) den mod 10).
  split; [ | reflexivity ].
  pose proof (Z.mod_pos_bound (round_half_even (10 * num) den) 10). lia.
Qed.

Lemma float_of_int_returns (n : Z) :
  0 <= n < 2 ^ 1023 -> exists x, float_of_int n = Ok x.
Proof.
  intros [Hn0 Hmax].
  destruct (Z_lt_le_dec n (2 ^ 53)) as [Hsmall | Hlarge].
  - destruct (Z.eq_dec n 0) as [-> | Hnz].
    + eexists. reflexivity.
    + destruct (float_of_int_small n ltac:(lia)) as (m & e & Hx & _).
      eexists. exact Hx.
  - destruct (float_of_int_large_returns n ltac:(lia)) as (m & e & Hx & _).
    eexists. exact Hx.
Qed.

Lemma human_size_raises (n : Z) (e : exn) :
  0 <= n -> float_of_int n = Raise e -> Utils.human_size n = Raise e.
Proof.
  intros Hn0 Hraise.
  assert (1024 <= n) as Hbig.
  { destruct (Z_lt_le_dec n 1024) as [Hlt | Hge]; [ exfalso | exact Hge ].
    destruct (float_of_int_returns n) as [x Hx]; [ | congruence ].
    split; [ exact Hn0 | ].
    apply Z.lt_trans with (m := 1024); [ exact Hlt | reflexivity ]. }
  unfold Utils.human_size.
  cbn [Utils.human_size_loop Utils.lt_step Utils.div_step].
  replace (n <? 1024) with false by (symmetry; apply Z.ltb_ge; exact Hbig).
  rewrite Hraise. reflexivity.
Qed.

(** C8, as the code has it.  Take a byte count [n >= 0].  Below [2 ^ 1023]
    the conversion [float(n)] returns.  Whenever it returns a float [x]
    (the integer itself when [n < 2 ^ 53]), [human_size n] returns the
    value [x / 1024 ^ k] rounded to one decimal, a space and the name of
    unit [k], where [k] is the first of B, KB, MB, GB for which [n] divided
    [k] times by 1024 is below 1024, and TB when there is none.  Whenever
    the conversion raises, so does [human_size]. *)
Theorem human_size_spec (n : Z) :
  0 <= n ->
  (n < 2 ^ 1023 -> exists x, float_of_int n = Ok x) /\
  (forall x, float_of_int n = Ok x ->
     exists k i d : Z,
       (n < 2 ^ 53 -> Spec.float_to_int x = n) /\
       0 <= k <= 4 /\
       (k < 4 -> n < 1024 * 1024 ^ k) /\
       (forall j, 0 <= j < k -> 1024 * 1024 ^ j <= n) /\
       0 <= d <= 9 /\
       decimal1 (Spec.float_to_int x) (1024 ^ k)
         = pretty i +:+ "." +:+ pretty d /\
       Utils.human_size n =
         Ok (decimal1 (Spec.float_to_int x) (1024 ^ k) +:+ " "
             +:+ Spec.unit_name k)) /\
  (forall e, float_of_int n = Raise e -> Utils.human_size n = Raise e).
Proof.
  intros Hn0. split; [ | split ].
  - intros Hmax. apply float_of_int_returns. lia.
  - intros x Hx.
    destruct (human_size_of_float n x Hn0 Hx)
      as (x' & k & <- & Hint & Hk & Hbelow & Habove & Hs).
    destruct (decimal1_shape (Spec.float_to_int x) (1024 ^ k))
      as (i & d & Hd & Hshape).
    exists k, i, d. repeat split; try assumption; lia.
  - intros e. apply human_size_raises. exact Hn0.
Qed.

End HumanSizeFacts.

(** The two sizes that the specification names. *)
Example human_size_500 : Utils.human_size 500 = Ok "500.0 B".
Proof. vm_compute. reflexivity. Qed.

Example human_size_2048 : Utils.human_size 2048 = Ok "2.0 KB".
Proof. vm_compute. reflexivity. Qed.

(** Just under a mebibyte the value shown rounds up to 1024.0 but the unit
    stays KB; 1024 GB and more are shown in TB. *)
Example human_size_edges :
  Utils.human_size 1048575 = Ok "1024.0 KB" /\
  Utils.human_size (2 ^ 40) = Ok "1.0 TB" /\
  Utils.human_size (2 ^ 60) = Ok "1048576.0 TB".
Proof. vm_compute. repeat split. Qed.

(** One decimal, ties to the even digit, on the exact binary value. *)
Example format_1f_rounding :
  (x ← int_truediv 1 4; Ok (format_1f x)) = Ok "0.2" /\
  (x ← int_truediv 3 4; Ok (format_1f x)) = Ok "0.8" /\
  (x ← int_truediv 1 20; Ok (format_1f x)) = Ok "0.1" /\
  (x ← int_truediv 7 20; Ok (format_1f x)) = Ok "0.3" /\
  (x ← int_truediv 5 2; Ok (format_1f x)) = Ok "2.5" /\
  (x ← int_truediv (-1) 25; Ok (format_1f x)) = Ok "-0.0".
Proof. vm_compute. repeat split. Qed.

(** The largest integer that converts, and the first that does not. *)
Example float_of_int_range :
  float_of_int (2 ^ 1024 - 2 ^ 970 - 1)
    = Ok (S754_finite false 9007199254740991 971) /\
  float_of_int (2 ^ 1024 - 2 ^ 970) = Raise OverflowError.
Proof. vm_compute. split; reflexivity. Qed.

Lemma human_size_spec_witness :
  exists k : Z,
    Utils.human_size 2048 =
      Ok (decimal1 (Spec.float_to_int (S754_finite false 4503599627370496 (-41)))
            (1024 ^ k) +:+ " " +:+ Spec.unit_name k).
Proof.
  destruct (proj1 (proj2 (human_size_spec 2048 ltac:(lia)))
              (S754_finite false 4503599627370496 (-41)))
    as (k & i & d & _ & _ & _ & _ & _ & _ & Hs).
  - vm_compute. reflexivity.
  - exists k. exact Hs.
Defined.

(** C8, as it is worded, fails twice.  The unit taken is the first, not the
    largest, whose scaled value is below 1024: 500 bytes are shown in B
    although 500 divided four times by 1024 is below 1024 as well.  And a
    count of [2 ^ 1024] bytes is not shown in TB: its conversion to a float
    raises. *)
Lemma human_size_largest_unit_counterexample :
  Utils.human_size 500 = Ok "500.0 B" /\
  ~ (exists (digits : string) (k : Z),
       Utils.human_size 500 = Ok (digits +:+ " " +:+ Spec.unit_name k) /\
       Spec.largest_unit_below 500 k) /\
  Utils.human_size (2 ^ 1024) = Raise OverflowError.
Proof.
  split; [ vm_compute; reflexivity | ].
  split; [ | vm_compute; reflexivity ].
  intros (digits & k & Hs & Hrange & _ & Hmax).
  assert (k = 4) as ->.
  { assert (4 <= k); [ | lia ].
    apply Hmax; [ lia | reflexivity ]. }
  rewrite human_size_500 in Hs. injection Hs as Hs.
  change (" " +:+ Spec.unit_name 4) with " TB" in Hs.
  repeat (destruct digits as [| ? digits]; cbn in Hs;
          [ discriminate Hs | first [ discriminate Hs | injection Hs as _ Hs ] ]).
Qed.

(* ===================================================================== *)
(** * Further properties *)
(* ===================================================================== *)

(** ** utils.py: merge_dicts *)

Section MergeDictsFacts.
Context {V : Type}.
Implicit Types base override : gmap string (option V).

Lemma merge_dicts_lookup base override (k : string) :
  Utils.merge_dicts base override !! k =
  match override !! k with
  | Some (Some v) => Some (Some v)
  | _ => base !! k
  end.
Proof.
  unfold Utils.merge_dicts, Utils.dict_update, Utils.not_none_items.
  rewrite lookup_union, map_lookup_filter.
  destruct (override !! k) as [[v|]|] eqn:Hk; simpl;
    destruct (base !! k); reflexivity.
Qed.

(** X1.  In the merged dict a key that [override] binds to a value other
    than [None] has that value; every other key is as in [base], a [None]
    value or an absence included.  So the keys of the result are those of
    [base] and those that [override] binds to a value, and a [None] of
    [override] neither erases nor adds anything. *)
Theorem merge_dicts_spec base override (k : string) :
  (forall v, override !! k = Some (Some v) ->
     Utils.merge_dicts base override !! k = Some (Some v)) /\
  (override !! k = None \/ override !! k = Some None ->
     Utils.merge_dicts base override !! k = base !! k) /\
  (is_Some (Utils.merge_dicts base override !! k) <->
     is_Some (base !! k) \/ exists v, override !! k = Some (Some v)) /\
  (Utils.merge_dicts base override !! k = Some None ->
     base !! k = Some None).
Proof.
  rewrite merge_dicts_lookup.
  destruct (override !! k) as [[v|]|] eqn:Hk.
  - split; [ intros v' [= ->]; reflexivity | ].
    split; [ intros [? | ?]; discriminate | ].
    split; [ | discriminate ].
    split; [ intros _; right; eauto | intros _; eauto ].
  - split; [ intros v' ?; discriminate | ].
    split; [ reflexivity | ].
    split; [ | auto ].
    split; [ auto | intros [? | [v' ?]]; [ assumption | discriminate ] ].
  - split; [ intros v' ?; discriminate | ].
    split; [ reflexivity | ].
    split; [ | auto ].
    split; [ auto | intros [? | [v' ?]]; [ assumption | discriminate ] ].
Qed.

(** X2.  Merging is associative, merging a dict with itself or with the
    empty dict gives the dict back, and merging into the empty dict keeps
    of [override] exactly the entries that are not [None]. *)
Theorem merge_dicts_algebra (a b c : gmap string (option V)) :
  Utils.merge_dicts (Utils.merge_dicts a b) c =
    Utils.merge_dicts a (Utils.merge_dicts b c) /\
  Utils.merge_dicts a a = a /\
  Utils.merge_dicts a ∅ = a /\
  (forall k, Utils.merge_dicts ∅ b !! k =
             match b !! k with Some (Some v) => Some (Some v) | _ => None end).
Proof.
  split; [ | split; [ | split ] ].
  - apply map_eq. intros k. rewrite !merge_dicts_lookup.
    destruct (c !! k) as [[v|]|]; try reflexivity;
      destruct (b !! k) as [[w|]|]; reflexivity.
  - apply map_eq. intros k. rewrite merge_dicts_lookup.
    destruct (a !! k) as [[v|]|]; reflexivity.
  - apply map_eq. intros k. rewrite merge_dicts_lookup, lookup_empty.
    reflexivity.
  - intros k. rewrite merge_dicts_lookup, lookup_empty. reflexivity.
Qed.

End MergeDictsFacts.

Lemma merge_dicts_spec_witness :
  let base : gmap string (option Z) :=
    {[ "monitor_count" := Some 3; "page_limit" := None ]} in
  let override : gmap string (option Z) :=
    {[ "monitor_count" := None; "page_limit" := Some 5 ]} in
  Utils.merge_dicts base override !! "monitor_count" = Some (Some 3) /\
  Utils.merge_dicts base override !! "page_limit" = Some (Some 5).
Proof.
  intros base override. split.
  - rewrite (proj1 (proj2 (merge_dicts_spec base override "monitor_count")))
      by (right; vm_compute; reflexivity).
    vm_compute. reflexivity.
  - apply (proj1 (merge_dicts_spec base override "page_limit")).
    vm_compute. reflexivity.
Defined.

(** ** db.py: the hashes and the keys of the table *)

Section TableFacts.
Context `{Externals}.

Lemma str_truthy_iff (s : string) : str_truthy s = true <-> s <> "".
Proof. destruct s; simpl; split; intros; congruence. Qed.

Lemma existing_hashes_iff (db : Db.Database) (h : string) :
  h ∈ Db.existing_hashes db <->
  h <> "" /\
  exists r, In r (Db.images db) /\ (Db.sha256 r = h \/ Db.phash r = Some h).
Proof.
  destruct db as [rows seq]. unfold Db.existing_hashes. cbn [Db.images].
  induction rows as [| r rows IH]; simpl.
  - rewrite elem_of_empty. split; [ tauto | intros (_ & r & [] & _) ].
  - set (rest := fold_right _ _ rows) in *.
    assert (h ∈ (match Db.phash r with
                 | Some ph => if str_truthy ph then {[ ph ]} ∪ rest else rest
                 | None => rest
                 end) <->
            (h <> "" /\ Db.phash r = Some h) \/ h ∈ rest) as Hph.
    { destruct (Db.phash r) as [ph|].
      - destruct (str_truthy ph) eqn:Hp.
        + rewrite elem_of_union, elem_of_singleton.
          apply str_truthy_iff in Hp.
          split.
          * intros [-> | Hin]; [ left; split; auto | right; exact Hin ].
          * intros [[_ Heq] | Hin]; [ left; congruence | right; exact Hin ].
        + split; [ auto | ].
          intros [[Hne Heq] | Hin]; [ | exact Hin ].
          injection Heq as ->. apply str_truthy_iff in Hne. congruence.
      - split; [ auto | ].
        intros [[_ Heq] | Hin]; [ discriminate | exact Hin ]. }
    destruct (str_truthy (Db.sha256 r)) eqn:Hs.
    + rewrite elem_of_union, elem_of_singleton, Hph, IH.
      apply str_truthy_iff in Hs.
      split.
      * intros [-> | [[Hne Heq] | (Hne & r' & Hin & Hr')]].
        -- split; [ exact Hs | ]. exists r. auto.
        -- split; [ exact Hne | ]. exists r. auto.
        -- split; [ exact Hne | ]. exists r'. auto.
      * intros (Hne & r' & [<- | Hin] & [Heq | Heq]); eauto 8.
    + rewrite Hph, IH.
      split.
      * intros [[Hne Heq] | (Hne & r' & Hin & Hr')].
        -- split; [ exact Hne | ]. exists r. auto.
        -- split; [ exact Hne | ]. exists r'. auto.
      * intros (Hne & r' & [<- | Hin] & [Heq | Heq]); eauto 8.
        apply str_truthy_iff in Hne. congruence.
Qed.

(** X3.  [existing_hashes] is the set of the non-empty texts that some
    row of the table carries as its content hash or as its perceptual
    hash: the empty text is never in it, and a row without a perceptual
    hash gives its content hash alone. *)
Theorem existing_hashes_spec (db : Db.Database) :
  (forall h, h ∈ Db.existing_hashes db <->
     h <> "" /\
     exists r, In r (Db.images db) /\
               (Db.sha256 r = h \/ Db.phash r = Some h)) /\
  ("" ∉ Db.existing_hashes db) /\
  (Db.images db = [] -> Db.existing_hashes db = ∅).
Proof.
  split; [ apply existing_hashes_iff | ]. split.
  - rewrite existing_hashes_iff. intros [Hne _]. apply Hne. reflexivity.
  - intros Hrows. apply set_eq. intros h.
    rewrite existing_hashes_iff, Hrows, elem_of_empty.
    split; [ intros (_ & r & [] & _) | tauto ].
Qed.










End TableFacts.


(** ** db.py: suitability_counts *)

Section TextOrder.

Lemma ascii_compare_refl (c : ascii) : Ascii.compare c c = Eq.
Proof. unfold Ascii.compare. apply N.compare_refl. Qed.

Lemma ascii_compare_lt_trans (a b c : ascii) :
  Ascii.compare a b = Lt -> Ascii.compare b c = Lt -> Ascii.compare a c = Lt.
Proof.
  unfold Ascii.compare. rewrite !N.compare_lt_iff. apply N.lt_trans.
Qed.

Lemma string_compare_refl (s : string) : String.compare s s = Eq.
Proof.
  induction s as [| c s IH]; simpl; [ reflexivity | ].
  rewrite ascii_compare_refl. exact IH.
Qed.

Lemma string_compare_lt_trans (a b c : string) :
  String.compare a b = Lt -> String.compare b c = Lt ->
  String.compare a c = Lt.
Proof.
  revert b c. induction a as [| x a IH]; intros [| y b] [| z c]; simpl;
    try discriminate; try reflexivity.
  destruct (Ascii.compare x y) eqn:Hxy; try discriminate.
  - apply Ascii.compare_eq_iff in Hxy. subst y.
    destruct (Ascii.compare x z); try discriminate; [ apply IH | reflexivity ].
  - intros _.
    destruct (Ascii.compare y z) eqn:Hyz; try discriminate.
    + apply Ascii.compare_eq_iff in Hyz. subst z. rewrite Hxy. reflexivity.
    + intros _. rewrite (ascii_compare_lt_trans x y z Hxy Hyz). reflexivity.
Qed.

Lemma compare_text_eq (a b : option string) :
  Db.compare_text a b = Eq <-> a = b.
Proof.
  destruct a as [x|], b as [y|]; simpl; split; try discriminate;
    try reflexivity.
  - intros Hc. apply String.compare_eq_iff in Hc. congruence.
  - intros [= ->]. apply string_compare_refl.
Qed.

Lemma compare_text_lt_trans (a b c : option string) :
  Db.compare_text a b = Lt -> Db.compare_text b c = Lt ->
  Db.compare_text a c = Lt.
Proof.
  destruct a as [x|], b as [y|], c as [z|]; simpl; try discriminate;
    try reflexivity.
  apply string_compare_lt_trans.
Qed.

Lemma compare_text_gt (a b : option string) :
  Db.compare_text a b = Gt -> Db.compare_text b a = Lt.
Proof.
  destruct a as [x|], b as [y|]; simpl; try discriminate; try reflexivity.
  rewrite (String.compare_antisym y x).
  destruct (String.compare x y); simpl; congruence.
Qed.

End TextOrder.

Section GroupFacts.


Lemma count_into_keys (P : option string -> Prop) (g : option string)
    (groups : list (option string * Z)) :
  P g -> Forall (fun x => P (fst x)) groups ->
  Forall (fun x => P (fst x)) (Db.count_into g groups).
Proof.
  intros Hg. induction 1 as [| [g' n] rest Hhd Htl IH]; simpl.
  - repeat constructor. exact Hg.
  - destruct (Db.compare_text g g'); repeat constructor; auto.
Qed.

Lemma count_into_sorted (g : option string)
    (groups : list (option string * Z)) :
  Spec.groups_sorted groups -> Spec.groups_sorted (Db.count_into g groups).
Proof.
  unfold Spec.groups_sorted.
  induction 1 as [| [g' n] rest Hs IH Hall]; simpl.
  - repeat constructor.
  - destruct (Db.compare_text g g') eqn:Hc.
    + constructor; [ exact Hs | exact Hall ].
    + constructor; [ constructor; assumption | ].
      constructor; [ exact Hc | ].
      eapply Forall_impl; [ exact Hall | ].
      intros [g'' m] Hlt. simpl in *.
      eapply compare_text_lt_trans; eassumption.
    + constructor; [ exact IH | ].
      apply (count_into_keys (fun k => Db.compare_text g' k = Lt)).
      * apply compare_text_gt. exact Hc.
      * exact Hall.
Qed.

Lemma group_by_sorted (rows : list Db.Row) :
  Spec.groups_sorted (Db.group_by_suitability rows).
Proof.
  induction rows as [| r rows IH]; simpl.
  - constructor.
  - apply count_into_sorted. exact IH.
Qed.

End GroupFacts.


Section CountFacts.

Lemma count_into_group_count (g g' : option string)
    (groups : list (option string * Z)) :
  Spec.group_count g (Db.count_into g' groups) =
  Spec.group_count g groups + (if bool_decide (g' = g) then 1 else 0).
Proof.
  induction groups as [| [g'' n] rest IH]; simpl.
  - destruct (bool_decide (g' = g)); lia.
  - destruct (Db.compare_text g' g'') eqn:Hc; simpl.
    + apply compare_text_eq in Hc. subst g''.
      destruct (bool_decide (g' = g)); lia.
    + destruct (bool_decide (g' = g)), (bool_decide (g'' = g)); lia.
    + rewrite IH. destruct (bool_decide (g'' = g)); lia.
Qed.

Lemma count_into_total (g : option string)
    (groups : list (option string * Z)) :
  Spec.groups_total (Db.count_into g groups) = Spec.groups_total groups + 1.
Proof.
  induction groups as [| [g' n] rest IH]; simpl; [ reflexivity | ].
  destruct (Db.compare_text g g'); simpl; try rewrite IH; lia.
Qed.

Lemma count_into_positive (g : option string)
    (groups : list (option string * Z)) :
  Forall (fun x => 0 < snd x) groups ->
  Forall (fun x => 0 < snd x) (Db.count_into g groups).
Proof.
  induction 1 as [| [g' n] rest Hhd Htl IH]; simpl.
  - repeat constructor.
  - simpl in Hhd.
    destruct (Db.compare_text g g'); repeat constructor; simpl;
      auto; lia.
Qed.

Lemma group_by_group_count (g : option string) (rows : list Db.Row) :
  Spec.group_count g (Db.group_by_suitability rows) = Spec.rows_in_group g rows.
Proof.
  unfold Spec.rows_in_group.
  induction rows as [| r rows IH]; simpl; [ reflexivity | ].
  rewrite count_into_group_count, IH.
  destruct (bool_decide (Db.suitability r = g)); simpl; lia.
Qed.

Lemma group_by_total (rows : list Db.Row) :
  Spec.groups_total (Db.group_by_suitability rows) = Z.of_nat (length rows).
Proof.
  induction rows as [| r rows IH]; simpl length; [ reflexivity | ].
  simpl. rewrite count_into_total, IH. lia.
Qed.

Lemma group_by_positive (rows : list Db.Row) :
  Forall (fun x => 0 < snd x) (Db.group_by_suitability rows).
Proof.
  induction rows as [| r rows IH]; simpl; [ constructor | ].
  apply count_into_positive. exact IH.
Qed.

Lemma group_by_keys (rows : list Db.Row) :
  Forall (fun x => exists r, In r rows /\ Db.suitability r = fst x)
    (Db.group_by_suitability rows).
Proof.
  induction rows as [| r rows IH]; simpl; [ constructor | ].
  apply (count_into_keys
           (fun g => exists r', (r = r' \/ In r' rows)
                                /\ Db.suitability r' = g)).
  - exists r. auto.
  - eapply Forall_impl; [ exact IH | ].
    intros x (r' & Hin & Heq). exists r'. auto.
Qed.

Lemma group_count_absent (g : option string)
    (groups : list (option string * Z)) :
  Forall (fun x => fst x <> g) groups -> Spec.group_count g groups = 0.
Proof.
  induction 1 as [| x rest Hne Htl IH]; simpl; [ reflexivity | ].
  rewrite bool_decide_eq_false_2 by exact Hne. exact IH.
Qed.

Lemma group_count_present (g : option string)
    (groups : list (option string * Z)) :
  Forall (fun x => 0 < snd x) groups ->
  Exists (fun x => fst x = g) groups -> 0 < Spec.group_count g groups.
Proof.
  intros Hpos. induction Hpos as [| x rest Hx Htl IH]; intros Hex.
  - inversion Hex.
  - simpl.
    assert (0 <= Spec.group_count g rest) as Hge.
    { clear -Htl. induction Htl as [| y l Hy _ IHl]; simpl; [ lia | ].
      destruct (bool_decide (fst y = g)); lia. }
    destruct (bool_decide (fst x = g)) eqn:Hd; [ lia | ].
    apply bool_decide_eq_false in Hd.
    inversion Hex as [? ? Hhd | ? ? Htl']; subst; [ contradiction | ].
    apply IH. exact Htl'.
Qed.

Lemma sorted_head_absent (g : option string) (n : Z)
    (rest : list (option string * Z)) :
  Spec.groups_sorted ((g, n) :: rest) -> Forall (fun x => fst x <> g) rest.
Proof.
  intros Hs. inversion Hs as [| ? ? _ Hall]; subst.
  eapply Forall_impl; [ exact Hall | ].
  intros [g' m] Hlt Heq. simpl in *. subst g'.
  rewrite (proj2 (compare_text_eq g g) eq_refl) in Hlt. discriminate.
Qed.


Lemma counts_lookup (groups : list (option string * Z)) (d : gmap string Z)
    (k : string) (g0 : option string) :
  Spec.groups_sorted groups ->
  Db.suitability_key g0 = k ->
  Forall (fun x => Db.suitability_key (fst x) = k -> fst x = g0) groups ->
  fold_left (fun d gn => <[ Db.suitability_key (fst gn) := snd gn ]> d)
    groups d !! k =
  if bool_decide (Exists (fun x => fst x = g0) groups)
  then Some (Spec.group_count g0 groups) else d !! k.
Proof.
  intros Hs Hk Huniq. revert d.
  induction groups as [| [g n] rest IH]; intros d.
  - reflexivity.
  - cbn [fold_left fst snd].
    pose proof (sorted_head_absent g n rest Hs) as Habs.
    inversion Hs as [| ? ? Hs' _]; subst.
    inversion Huniq as [| ? ? Hhd Htl]; subst. simpl in Hhd.
    rewrite (IH Hs' Htl).
    destruct (decide (g = g0)) as [-> | Hne].
    + rewrite (bool_decide_eq_false_2 (Exists _ rest)).
      2:{ rewrite Exists_exists. intros (x & Hin & Hx).
          rewrite Forall_forall in Habs. exact (Habs x Hin Hx). }
      rewrite lookup_insert_eq.
      rewrite (bool_decide_eq_true_2 (Exists _ (_ :: rest)))
        by (left; reflexivity).
      cbn [Spec.group_count fold_right fst snd].
      rewrite bool_decide_eq_true_2 by reflexivity.
      fold (Spec.group_count g0 rest).
      rewrite (group_count_absent g0 rest Habs). f_equal. lia.
    + cbn [Spec.group_count fold_right fst snd].
      rewrite (bool_decide_eq_false_2 (g = g0)) by exact Hne.
      fold (Spec.group_count g0 rest).
      assert (Db.suitability_key g <> Db.suitability_key g0) as Hkey.
      { intros Heq. apply Hne, Hhd. exact Heq. }
      rewrite lookup_insert_ne by exact Hkey.
      destruct (bool_decide (Exists (fun x => fst x = g0) rest)) eqn:Hd.
      * apply bool_decide_eq_true in Hd.
        rewrite bool_decide_eq_true_2 by (right; exact Hd). reflexivity.
      * apply bool_decide_eq_false in Hd.
        rewrite bool_decide_eq_false_2; [ reflexivity | ].
        intros Hex. inversion Hex; subst; simpl in *; auto.
Qed.

End CountFacts.

Section CountTheorems.

Lemma dict_total_insert (d : gmap string Z) (k : string) (n : Z) :
  d !! k = None -> Spec.dict_total (<[ k := n ]> d) = n + Spec.dict_total d.
Proof.
  intros Hk. unfold Spec.dict_total.
  apply (map_fold_insert_L (fun (_ : string) (n acc : Z) => n + acc)
           0 k n d); [ | exact Hk ].
  intros. lia.
Qed.

Lemma counts_total (groups : list (option string * Z)) (d : gmap string Z) :
  NoDup (map (fun x => Db.suitability_key (fst x)) groups) ->
  Forall (fun x => d !! Db.suitability_key (fst x) = None) groups ->
  Spec.dict_total
    (fold_left (fun d gn => <[ Db.suitability_key (fst gn) := snd gn ]> d)
       groups d) =
  Spec.groups_total groups + Spec.dict_total d.
Proof.
  revert d. induction groups as [| [g n] rest IH]; intros d Hnd Hfresh.
  - reflexivity.
  - cbn [fold_left fst snd map] in *.
    apply NoDup_cons in Hnd. destruct Hnd as [Hnotin Hnd].
    inversion Hfresh as [| ? ? Hhd Htl]; subst. simpl in Hhd.
    rewrite IH.
    + rewrite dict_total_insert by exact Hhd.
      cbn [Spec.groups_total fold_right snd]. fold (Spec.groups_total rest). lia.
    + exact Hnd.
    + rewrite Forall_forall in *. intros x Hin.
      rewrite lookup_insert_ne; [ apply Htl; exact Hin | ].
      intros Heq. apply Hnotin. rewrite Heq.
      rewrite list_elem_of_In, in_map_iff. exists x. split; [ reflexivity | ].
      apply list_elem_of_In. exact Hin.
Qed.

Lemma sorted_keys_nodup (groups : list (option string * Z)) :
  Spec.groups_sorted groups -> NoDup (map fst groups).
Proof.
  induction groups as [| [g n] rest IH]; intros Hs; simpl.
  - constructor.
  - pose proof (sorted_head_absent g n rest Hs) as Habs.
    inversion Hs as [| ? ? Hs' _]; subst.
    constructor; [ | apply IH; exact Hs' ].
    rewrite list_elem_of_In, in_map_iff. intros (x & Heq & Hin).
    rewrite List.Forall_forall in Habs. exact (Habs x Hin Heq).
Qed.

(** X6.  For a key other than the empty text and [unknown],
    [suitability_counts] holds the number of rows with that suitability,
    and no entry when there is none.  Rows without a suitability and rows
    with an empty one both go under [unknown]: when one value alone of the
    table is shown as [unknown], the entry is the number of rows with that
    value.  The empty text is never a key. *)
Theorem suitability_counts_spec (db : Db.Database) :
  (forall k, k <> "" -> k <> "unknown" ->
     Db.suitability_counts db !! k =
       if Spec.rows_in_group (Some k) (Db.images db) =? 0 then None
       else Some (Spec.rows_in_group (Some k) (Db.images db))) /\
  (forall g0,
     Db.suitability_key g0 = "unknown" ->
     (forall r, In r (Db.images db) ->
        Db.suitability_key (Db.suitability r) = "unknown" ->
        Db.suitability r = g0) ->
     Db.suitability_counts db !! "unknown" =
       if Spec.rows_in_group g0 (Db.images db) =? 0 then None
       else Some (Spec.rows_in_group g0 (Db.images db))) /\
  Db.suitability_counts db !! "" = None.
Proof.
  assert (forall k g0,
            Db.suitability_key g0 = k ->
            (forall r, In r (Db.images db) ->
               Db.suitability_key (Db.suitability r) = k ->
               Db.suitability r = g0) ->
            Db.suitability_counts db !! k =
              if Spec.rows_in_group g0 (Db.images db) =? 0 then None
              else Some (Spec.rows_in_group g0 (Db.images db))) as Hgen.
  { intros k g0 Hk Huniq. unfold Db.suitability_counts.
    rewrite (counts_lookup _ ∅ k g0 (group_by_sorted _) Hk).
    2:{ eapply Forall_impl; [ apply group_by_keys | ].
        intros x (r & Hin & Heq) Hkey. rewrite <- Heq in *.
        apply Huniq; assumption. }
    rewrite group_by_group_count.
    destruct (bool_decide (Exists _ _)) eqn:Hd.
    - apply bool_decide_eq_true in Hd.
      apply (group_count_present _ _ (group_by_positive _)) in Hd.
      rewrite group_by_group_count in Hd.
      destruct (Z.eqb_spec (Spec.rows_in_group g0 (Db.images db)) 0);
        [ lia | reflexivity ].
    - apply bool_decide_eq_false in Hd.
      rewrite <- group_by_group_count, group_count_absent.
      + rewrite lookup_empty. reflexivity.
      + rewrite Forall_forall. intros x Hin Heq. apply Hd.
        rewrite Exists_exists. exists x. auto. }
  split; [ | split ].
  - intros k Hne Hunk. apply Hgen.
    + destruct k; [ contradiction | reflexivity ].
    + intros r _. destruct (Db.suitability r) as [[| c s]|]; simpl;
        congruence.
  - intros g0. apply Hgen.
  - unfold Db.suitability_counts.
    generalize (Db.group_by_suitability (Db.images db)).
    intros groups.
    assert (forall d : gmap string Z, d !! "" = None ->
              fold_left
                (fun d gn => <[ Db.suitability_key (fst gn) := snd gn ]> d)
                groups d !! "" = None) as Hfold.
    { induction groups as [| [g n] rest IH]; intros d Hd; [ exact Hd | ].
      cbn [fold_left fst snd]. apply IH.
      rewrite lookup_insert_ne; [ exact Hd | ].
      destruct g as [[| c s]|]; simpl; discriminate. }
    apply Hfold. apply lookup_empty.
Qed.

(** X7.  When no two different values of the column are shown under the
    same key, the counts of [suitability_counts] add up to [count], the
    total that [report] prints above them. *)
Theorem suitability_counts_total (db : Db.Database) :
  (forall r r', In r (Db.images db) -> In r' (Db.images db) ->
     Db.suitability_key (Db.suitability r) =
       Db.suitability_key (Db.suitability r') ->
     Db.suitability r = Db.suitability r') ->
  Spec.dict_total (Db.suitability_counts db) = Db.count db.
Proof.
  intros Hinj. unfold Db.suitability_counts, Db.count.
  rewrite counts_total.
  - rewrite group_by_total. unfold Spec.dict_total. rewrite map_fold_empty. lia.
  - pose proof (sorted_keys_nodup _ (group_by_sorted (Db.images db))) as Hnd.
    pose proof (group_by_keys (Db.images db)) as Hkeys.
    revert Hnd Hkeys.
    generalize (Db.group_by_suitability (Db.images db)). intros groups.
    induction groups as [| [g n] rest IH]; intros Hnd Hkeys; cbn [map fst].
    + constructor.
    + cbn [map fst] in Hnd.
      apply NoDup_cons in Hnd. destruct Hnd as [Hnotin Hnd].
      inversion Hkeys as [| ? ? (r & Hr & Hg) Htl]; subst.
      apply NoDup_cons. split; [ | apply IH; assumption ].
      rewrite list_elem_of_In, in_map_iff.
      intros ([g' m] & Heq & Hin). cbn [fst] in *.
      rewrite List.Forall_forall in Htl.
      destruct (Htl _ Hin) as (r' & Hr' & Hg'). cbn [fst] in Hg'.
      assert (g' = g) as ->.
      { rewrite <- Hg', <- Hg. apply Hinj; try assumption.
        rewrite Hg', Hg. exact Heq. }
      apply Hnotin. rewrite list_elem_of_In, in_map_iff.
      exists (g, m). split; [ reflexivity | exact Hin ].
  - rewrite Forall_forall. intros x _. apply lookup_empty.
Qed.

End CountTheorems.

Lemma suitability_counts_spec_witness :
  let db := Spec.record_all (H := Demo.demo_externals)
              [ (Demo.demo_info "3a7bd3e2" "library/a.jpg", Some "lake");
                (Demo.demo_info "77c1f0aa" "library/b.jpg", None) ]
              Db.empty in
  Db.suitability_counts db !! "perfect" = Some 2.
Proof.
  intros db.
  exact (proj1 (suitability_counts_spec db) "perfect"
           ltac:(discriminate) ltac:(discriminate)).
Defined.

Lemma suitability_counts_total_witness :
  let db := Spec.record_all (H := Demo.demo_externals)
              [ (Demo.demo_info "3a7bd3e2" "library/a.jpg", Some "lake");
                (Demo.demo_info "77c1f0aa" "library/b.jpg", None) ]
              Db.empty in
  Spec.dict_total (Db.suitability_counts db) = 2.
Proof.
  intros db. apply (suitability_counts_total db).
  intros r r' [<- | [<- | []]] [<- | [<- | []]] _; reflexivity.
Defined.

(** Rows without a suitability and rows with an empty one are not added
    up: the later group takes the place of the earlier one. *)
Example suitability_counts_unknown :
  let row := fun (n : Z) (s : option string) =>
    Db.mkRow n "unsplash" "https://example.org/p" None None None None
      None None None (pretty n) None "library/a.jpg" s None None None in
  let db := Db.mkDatabase [row 1 None; row 2 None; row 3 (Some "")] 3 in
  Db.suitability_counts db !! "unknown" = Some 1 /\ Db.count db = 3.
Proof. split; vm_compute; reflexivity. Qed.

(** ** cli.py: what download_candidate leaves behind *)

Section PipelineFacts.
Context `{Externals}.

Lemma evaluate_suitability_categories (img target : Z * Z) (tol : float)
    (ac au : bool) (s : ImageOps.SuitabilityResult) :
  ImageOps.evaluate_suitability img target tol ac au = Ok s ->
  In (ImageOps.category s) ["perfect"; "croppable"; "upscalable"; "reject"].
Proof.
  destruct img as [iw ih], target as [tw th].
  unfold ImageOps.evaluate_suitability.
  destruct ((iw <=? 0) || (ih <=? 0)).
  - intros [= <-]. simpl. auto.
  - unfold mbind, result_bind, Py.bind.
    destruct (ImageOps.aspect_ratio iw ih) as [a|]; [ | discriminate ].
    destruct (ImageOps.aspect_ratio tw th) as [b|]; [ | discriminate ].
    repeat match goal with
           | |- context [if ?b then _ else _] => destruct b
           end; intros [= <-]; simpl; auto.
Qed.

Lemma stored_world_hashes (fs' : Fs.FileSystem) (sha ph : string)
    (w : Cli.World) (h : string) :
  h ∈ Cli.hashes (Spec.stored_world fs' sha ph w) <->
  h = sha \/ (h = ph /\ ph <> "") \/ h ∈ Cli.hashes w.
Proof.
  unfold Spec.stored_world. cbn [Cli.hashes].
  destruct ph as [| a ph]; cbn [str_truthy].
  - rewrite elem_of_union, elem_of_singleton. intuition congruence.
  - rewrite !elem_of_union, !elem_of_singleton.
    split.
    + intros [-> | [-> | Hin]]; auto.
    + intros [-> | [[-> _] | Hin]]; auto.
Qed.

(** The files once the directory is made and the picture and its sidecar
    are written. *)
Lemma stored_files (dir file_path meta_path : string) (data : bytes)
    (text : string) (fs fs1 fs2 fs3 : Fs.FileSystem) (u1 u2 u3 : unit) :
  Fs.mkdir dir fs = (fs1, Ok u1) ->
  Fs.write_bytes file_path data fs1 = (fs2, Ok u2) ->
  Fs.write_text meta_path text fs2 = (fs3, Ok u3) ->
  Fs.files fs3 =
    <[ meta_path := list_byte_of_string text ]>
      (<[ file_path := data ]> (Fs.files fs)) /\
  Fs.directories fs3 = Fs.directories fs1.
Proof.
  intros Hmk Hwr Hmeta.
  unfold Fs.write_text in Hmeta.
  rewrite (write_bytes_ok _ _ _ _ _ Hmeta), (write_bytes_ok _ _ _ _ _ Hwr).
  cbn [Fs.files Fs.directories].
  pose proof (mkdir_files dir fs) as Hf. rewrite Hmk in Hf. cbn [fst] in Hf.
  rewrite Hf. split; reflexivity.
Qed.

(** The one way to a [DownloadInfo]. *)
Lemma download_stored_inversion (c : Models.Candidate)
    (cfg : Config.Config) (out : Models.Path) (w w' : Cli.World)
    (info : Models.DownloadInfo) :
  Cli.download_candidate c cfg out w = (w', Ok (Some info)) ->
  exists (url : string) (data : bytes) (ph : string)
         (s : ImageOps.SuitabilityResult),
    Models.direct_url c = Some url /\ url <> "" /\
    http_get url = Ok data /\
    (Dedup.compute_sha256 data ∉ Cli.hashes w) /\
    image_size data = Ok (Models.info_width info, Models.info_height info) /\
    ImageOps.evaluate_suitability
      (Models.info_width info, Models.info_height info)
      (Config.target_resolution cfg) (Config.tolerance cfg)
      (Config.allow_crop cfg) (Config.allow_upscale cfg) = Ok s /\
    In (ImageOps.category s) ["perfect"; "croppable"; "upscalable"] /\
    image_phash data = Ok ph /\
    info = Models.mkDownloadInfo c
             (joinpath (joinpath out (Models.source c))
                (Cli.candidate_filename c))
             (Dedup.compute_sha256 data) (Some ph)
             (Models.info_width info) (Models.info_height info)
             (Z.of_nat (length data))
             (ImageOps.category s) (ImageOps.reason s) (Cli.clock w) /\
    exists fs1 fs2 fs3 : Fs.FileSystem,
      Fs.mkdir (Spec.target_dir out c) (Cli.fs w) = (fs1, Ok tt) /\
      Fs.write_bytes (Spec.picture_path out c) data fs1 = (fs2, Ok tt) /\
      Fs.write_text (Spec.sidecar_path out c)
        (sidecar_json c (Models.info_width info) (Models.info_height info)
           (ImageOps.category s) (ImageOps.reason s)) fs2 = (fs3, Ok tt) /\
      w' = Spec.stored_world fs3 (Dedup.compute_sha256 data) ph w.
Proof.
  rewrite download_candidate_cases.
  destruct (Models.direct_url c) as [url|]; [ | congruence ].
  destruct (str_truthy url) eqn:Hurl; [ | congruence ].
  destruct (http_get url) as [data | e] eqn:Hget; [ | congruence ].
  destruct (bool_decide _) eqn:Hdup; [ congruence | ].
  apply bool_decide_eq_false in Hdup.
  rewrite store_candidate_cases.
  destruct (image_size data) as [[width height] | e] eqn:Hsize;
    [ | congruence ].
  destruct (ImageOps.evaluate_suitability _ _ _ _ _) as [s | e] eqn:Hs;
    [ | congruence ].
  destruct (String.eqb _ _) eqn:Hrej; [ congruence | ].
  cbn zeta.
  destruct (Fs.mkdir _ _) as [fs1 [[] | e]] eqn:Hmk; [ | congruence ].
  destruct (Fs.write_bytes _ _ fs1) as [fs2 [[] | e]] eqn:Hwr;
    [ | congruence ].
  destruct (image_phash data) as [ph | e] eqn:Hph; [ | congruence ].
  destruct (Fs.write_text _ _ fs2) as [fs3 [[] | e]] eqn:Hmeta;
    [ | congruence ].
  intros [= <- <-]. cbn [Models.info_width Models.info_height].
  exists url, data, ph, s.
  split; [ reflexivity | ].
  split; [ destruct url; [ discriminate | congruence ] | ].
  split; [ exact Hget | ]. split; [ exact Hdup | ].
  split; [ exact Hsize | ]. split; [ exact Hs | ].
  split.
  { apply String.eqb_neq in Hrej.
    pose proof (evaluate_suitability_categories _ _ _ _ _ _ Hs) as Hin.
    simpl in Hin. simpl. intuition congruence. }
  split; [ exact Hph | ]. split; [ reflexivity | ].
  exists fs1, fs2, fs3. auto.
Qed.

(** A stored picture adds to the set of hashes and takes nothing away. *)
Lemma download_stored_hashes (c : Models.Candidate)
    (cfg : Config.Config) (out : Models.Path) (w w' : Cli.World)
    (info : Models.DownloadInfo) :
  Cli.download_candidate c cfg out w = (w', Ok (Some info)) ->
  (Models.sha256 info ∉ Cli.hashes w) /\
  Models.sha256 info ∈ Cli.hashes w' /\
  Cli.hashes w ⊆ Cli.hashes w'.
Proof.
  intros Hrun.
  destruct (download_stored_inversion c cfg out w w' info Hrun)
    as (url & data & ph & s & _ & _ & _ & Hfresh & _ & _ & _ & _ & Hinfo
        & fs1 & fs2 & fs3 & _ & _ & _ & Hw).
  assert (Models.sha256 info = Dedup.compute_sha256 data) as Hsha
    by (rewrite Hinfo; reflexivity).
  rewrite Hsha. split; [ exact Hfresh | ]. split.
  - rewrite Hw. apply stored_world_hashes. auto.
  - intros h Hh. rewrite Hw. apply stored_world_hashes. auto.
Qed.

Lemma download_none_world (c : Models.Candidate) (cfg : Config.Config)
    (out : Models.Path) (w w' : Cli.World) :
  Cli.download_candidate c cfg out w = (w', Ok None) -> w' = w.
Proof.
  rewrite download_candidate_cases.
  destruct (Models.direct_url c) as [url|]; [ | congruence ].
  destruct (str_truthy url); [ | congruence ].
  destruct (http_get url) as [data | e]; [ | congruence ].
  destruct (bool_decide _); [ congruence | ].
  rewrite store_candidate_cases.
  destruct (image_size data) as [[width height] | e]; [ | congruence ].
  destruct (ImageOps.evaluate_suitability _ _ _ _ _) as [s | e];
    [ | congruence ].
  destruct (String.eqb _ _); [ congruence | ].
  cbn zeta.
  destruct (Fs.mkdir _ _) as [fs1 [[] | e]]; [ | congruence ].
  destruct (Fs.write_bytes _ _ fs1) as [fs2 [[] | e]]; [ | congruence ].
  destruct (image_phash data) as [ph | e]; [ | congruence ].
  destruct (Fs.write_text _ _ fs2) as [fs3 [[] | e]]; congruence.
Qed.

(** What a download that raises can have done: [mkdir], and perhaps the
    write of the picture. *)
Lemma download_raises_inversion (c : Models.Candidate)
    (cfg : Config.Config) (out : Models.Path) (w w' : Cli.World) (e : exn) :
  Cli.download_candidate c cfg out w = (w', Raise e) ->
  w' = w \/
  exists fs1 r1,
    Fs.mkdir (Spec.target_dir out c) (Cli.fs w) = (fs1, r1) /\
    (w' = Cli.with_fs fs1 w \/
     exists url data fs2,
       Models.direct_url c = Some url /\ http_get url = Ok data /\
       (Dedup.compute_sha256 data ∉ Cli.hashes w) /\
       Fs.write_bytes (Spec.picture_path out c) data fs1 = (fs2, Ok tt) /\
       w' = Cli.with_fs fs2 w /\
       (image_phash data = Raise e \/
        exists ph text,
          image_phash data = Ok ph /\
          Fs.write_text (Spec.sidecar_path out c) text fs2
            = (fs2, Raise e))).
Proof.
  rewrite download_candidate_cases.
  destruct (Models.direct_url c) as [url|]; [ | congruence ].
  destruct (str_truthy url); [ | congruence ].
  destruct (http_get url) as [data | e0] eqn:Hget;
    [ | intros [= <- _]; auto ].
  destruct (bool_decide _) eqn:Hdup; [ congruence | ].
  apply bool_decide_eq_false in Hdup.
  rewrite store_candidate_cases.
  destruct (image_size data) as [[width height] | e0];
    [ | intros [= <- _]; auto ].
  destruct (ImageOps.evaluate_suitability _ _ _ _ _) as [s | e0];
    [ | intros [= <- _]; auto ].
  destruct (String.eqb _ _); [ congruence | ].
  cbn zeta.
  destruct (Fs.mkdir _ _) as [fs1 [[] | e0]] eqn:Hmk;
    [ | intros [= <- _]; right; eauto ].
  destruct (Fs.write_bytes _ _ fs1) as [fs2 [[] | e0]] eqn:Hwr.
  2: { intros [= <- _]. right. exists fs1, (Ok tt). split; [ reflexivity | ].
       left. rewrite (write_bytes_raise _ _ _ _ _ Hwr). reflexivity. }
  destruct (image_phash data) as [ph | e0] eqn:Hph.
  2: { intros [= <- <-]. right. exists fs1, (Ok tt).
       split; [ reflexivity | ]. right. exists url, data, fs2. auto 10. }
  destruct (Fs.write_text _ _ fs2) as [fs3 [[] | e0]] eqn:Hmeta;
    [ congruence | ].
  intros [= <- <-]. right. exists fs1, (Ok tt). split; [ reflexivity | ].
  right. exists url, data, fs2.
  unfold Fs.write_text in Hmeta.
  pose proof (write_bytes_raise _ _ _ _ _ Hmeta) as ->.
  split; [ reflexivity | ]. split; [ exact Hget | ].
  split; [ exact Hdup | ]. split; [ exact Hwr | ].
  split; [ reflexivity | ]. right. eexists ph, _.
  split; [ exact Hph | ]. exact Hmeta.
Qed.

Lemma download_raises_frame (c : Models.Candidate)
    (cfg : Config.Config) (out : Models.Path) (w w' : Cli.World) (e : exn) :
  Cli.download_candidate c cfg out w = (w', Raise e) ->
  Cli.hashes w' = Cli.hashes w /\
  Cli.clock w' = Cli.clock w /\
  (forall p,
     p <> joinpath (joinpath out (Models.source c))
            (Cli.candidate_filename c) ->
     Fs.files (Cli.fs w') !! p = Fs.files (Cli.fs w) !! p) /\
  Fs.directories (Cli.fs w) ⊆ Fs.directories (Cli.fs w') /\
  (forall d,
     d ∈ Fs.directories (Cli.fs w') ->
     d ∈ Fs.directories (Cli.fs w) \/ d = Spec.target_dir out c \/
     In d (parents (Spec.target_dir out c))).
Proof.
  intros Hrun.
  destruct (download_raises_inversion c cfg out w w' e Hrun)
    as [-> | (fs1 & r1 & Hmk & Hcases)].
  { repeat split; auto. }
  pose proof (mkdir_files (Spec.target_dir out c) (Cli.fs w)) as Hf.
  pose proof (mkdir_grows (Spec.target_dir out c) (Cli.fs w)) as Hg.
  pose proof (mkdir_directories (Spec.target_dir out c) (Cli.fs w)) as Hd.
  rewrite Hmk in Hf, Hg, Hd. cbn [fst] in Hf, Hg, Hd.
  destruct Hcases
    as [-> | (url & data & fs2 & _ & _ & _ & Hwr & -> & _)];
    cbn [Cli.with_fs Cli.fs Cli.hashes Cli.clock].
  - rewrite Hf. repeat split; auto.
  - rewrite (write_bytes_ok _ _ _ _ _ Hwr). cbn [Fs.files Fs.directories].
    rewrite Hf.
    split; [ reflexivity | ]. split; [ reflexivity | ].
    split; [ | split; [ exact Hg | exact Hd ] ].
    intros p Hp. apply lookup_insert_ne.
    unfold Spec.picture_path, Spec.target_dir. congruence.
Qed.

(** X8.  When [download_candidate] returns [None] nothing has changed: no
    file, no directory, no hash.  And it returns [None] for one of three
    reasons only: the candidate has no direct URL (or an empty one), the
    SHA-256 of the fetched bytes is already in the set, or the picture is
    rejected by [evaluate_suitability]. *)
Theorem download_candidate_none (c : Models.Candidate) (cfg : Config.Config)
    (out : Models.Path) (w w' : Cli.World) :
  Cli.download_candidate c cfg out w = (w', Ok None) ->
  w' = w /\
  (Models.direct_url c = None \/ Models.direct_url c = Some "" \/
   exists url data,
     Models.direct_url c = Some url /\ http_get url = Ok data /\
     (Dedup.compute_sha256 data ∈ Cli.hashes w \/
      exists size s,
        image_size data = Ok size /\
        ImageOps.evaluate_suitability size
          (Config.target_resolution cfg) (Config.tolerance cfg)
          (Config.allow_crop cfg) (Config.allow_upscale cfg) = Ok s /\
        ImageOps.category s = "reject")).
Proof.
  intros Hrun. split; [ exact (download_none_world _ _ _ _ _ Hrun) | ].
  revert Hrun. rewrite download_candidate_cases.
  destruct (Models.direct_url c) as [url|]; [ | auto ].
  destruct (str_truthy url) eqn:Hurl;
    [ | destruct url; [ auto | discriminate ] ].
  destruct (http_get url) as [data | e] eqn:Hget; [ | congruence ].
  destruct (bool_decide _) eqn:Hdup.
  - apply bool_decide_eq_true in Hdup. intros _. right. right.
    exists url, data. auto.
  - rewrite store_candidate_cases.
    destruct (image_size data) as [[width height] | e] eqn:Hsize;
      [ | congruence ].
    destruct (ImageOps.evaluate_suitability _ _ _ _ _) as [s | e] eqn:Hs;
      [ | congruence ].
    destruct (String.eqb _ _) eqn:Hrej.
    + apply String.eqb_eq in Hrej. intros _. right. right.
      exists url, data. split; [ reflexivity | ]. split; [ exact Hget | ].
      right. exists (width, height), s. auto.
    + cbn zeta.
      destruct (Fs.mkdir _ _) as [fs1 [[] | e]]; [ | congruence ].
      destruct (Fs.write_bytes _ _ fs1) as [fs2 [[] | e]]; [ | congruence ].
      destruct (image_phash data) as [ph | e]; [ | congruence ].
      destruct (Fs.write_text _ _ fs2) as [fs3 [[] | e]]; congruence.
Qed.

(** X9.  A [DownloadInfo] that [download_candidate] returns describes what
    was fetched: its candidate is the one given, its content hash is the
    SHA-256 of the bytes served at the candidate's URL and was not in the
    set, its size is their number, its width and height are those read
    from the bytes, its perceptual hash is the one computed (never
    absent), its path is [output_dir/source/file name], its suitability
    is what [evaluate_suitability] answers for that size, which is not
    [reject], and its time is the clock's. *)
Theorem download_candidate_stored (c : Models.Candidate)
    (cfg : Config.Config) (out : Models.Path) (w w' : Cli.World)
    (info : Models.DownloadInfo) :
  Cli.download_candidate c cfg out w = (w', Ok (Some info)) ->
  exists (url : string) (data : bytes),
    Models.direct_url c = Some url /\ url <> "" /\
    http_get url = Ok data /\
    Models.candidate info = c /\
    Models.sha256 info = Dedup.compute_sha256 data /\
    (Models.sha256 info ∉ Cli.hashes w) /\
    Models.file_size info = Z.of_nat (length data) /\
    image_size data = Ok (Models.info_width info, Models.info_height info) /\
    (exists ph, Models.phash info = Some ph /\ image_phash data = Ok ph) /\
    Models.file_path info =
      joinpath (joinpath out (Models.source c)) (Cli.candidate_filename c) /\
    (exists s,
       ImageOps.evaluate_suitability
         (Models.info_width info, Models.info_height info)
         (Config.target_resolution cfg) (Config.tolerance cfg)
         (Config.allow_crop cfg) (Config.allow_upscale cfg) = Ok s /\
       Models.suitability info = ImageOps.category s /\
       Models.suitability_reason info = ImageOps.reason s) /\
    In (Models.suitability info) ["perfect"; "croppable"; "upscalable"] /\
    Models.downloaded_at info = Cli.clock w.
Proof.
  intros Hrun.
  destruct (download_stored_inversion c cfg out w w' info Hrun)
    as (url & data & ph & s & Hurl & Hne & Hget & Hfresh & Hsize & Hs
        & Hcat & Hph & Hinfo & _).
  exists url, data.
  split; [ exact Hurl | ]. split; [ exact Hne | ]. split; [ exact Hget | ].
  rewrite Hinfo in Hsize, Hs |- *.
  cbn [Models.candidate Models.sha256 Models.file_size Models.info_width
       Models.info_height Models.phash Models.file_path Models.suitability
       Models.suitability_reason Models.downloaded_at] in *.
  split; [ reflexivity | ]. split; [ reflexivity | ].
  split; [ exact Hfresh | ]. split; [ reflexivity | ].
  split; [ exact Hsize | ]. split; [ exists ph; auto | ].
  split; [ reflexivity | ]. split; [ exists s; auto | ].
  split; [ exact Hcat | reflexivity ].
Qed.

(** X10.  After a download that returned a [DownloadInfo], and the sidecar
    path being another path than the picture's, the file at the info's
    path holds the bytes that the info describes (their SHA-256 and their
    number are the info's), [compute_phash] of [dedup.py] on that file
    gives the info's perceptual hash, the sidecar holds the JSON text of
    the candidate, every other file is as before, the set has gained the
    content hash and the non-empty perceptual hash and nothing else, and
    the clock has not been touched. *)
Theorem download_candidate_on_disk (c : Models.Candidate)
    (cfg : Config.Config) (out : Models.Path) (w w' : Cli.World)
    (info : Models.DownloadInfo) :
  Cli.download_candidate c cfg out w = (w', Ok (Some info)) ->
  let file_path := Models.file_path info in
  let meta_path := with_suffix file_path ".json" in
  meta_path <> file_path ->
  exists data : bytes,
    Fs.files (Cli.fs w') !! file_path = Some data /\
    Models.sha256 info = Dedup.compute_sha256 data /\
    Models.file_size info = Z.of_nat (length data) /\
    Dedup.compute_phash (Cli.fs w') file_path = Models.phash info /\
    Fs.files (Cli.fs w') !! meta_path =
      Some (list_byte_of_string
              (sidecar_json c (Models.info_width info)
                 (Models.info_height info) (Models.suitability info)
                 (Models.suitability_reason info))) /\
    (forall p, p <> file_path -> p <> meta_path ->
       Fs.files (Cli.fs w') !! p = Fs.files (Cli.fs w) !! p) /\
    (forall h, h ∈ Cli.hashes w' <->
       h = Models.sha256 info \/
       (Models.phash info = Some h /\ h <> "") \/
       h ∈ Cli.hashes w) /\
    Cli.clock w' = Cli.clock w.
Proof.
  intros Hrun file_path meta_path Hmeta.
  destruct (download_stored_inversion c cfg out w w' info Hrun)
    as (url & data & ph & s & _ & _ & _ & _ & _ & _ & _ & Hph & Hinfo
        & fs1 & fs2 & fs3 & Hmk & Hwr & Hside & Hw).
  destruct (stored_files _ _ _ _ _ _ _ _ _ _ _ _ Hmk Hwr Hside)
    as [Hfiles _].
  subst file_path meta_path. rewrite Hinfo in *.
  cbn [Models.file_path Models.sha256 Models.file_size Models.phash
       Models.info_width Models.info_height Models.suitability
       Models.suitability_reason] in *.
  unfold Spec.sidecar_path, Spec.picture_path, Spec.target_dir in Hfiles.
  set (file_path := joinpath (joinpath out (Models.source c))
                      (Cli.candidate_filename c)) in *.
  exists data.
  assert (Fs.files (Cli.fs w') !! file_path = Some data) as Hfile.
  { rewrite Hw. cbn [Spec.stored_world Cli.fs]. rewrite Hfiles.
    rewrite lookup_insert_ne by exact Hmeta.
    apply lookup_insert_eq. }
  split; [ exact Hfile | ]. split; [ reflexivity | ].
  split; [ reflexivity | ].
  split.
  { unfold Dedup.compute_phash, Dedup.phash_of_file, Fs.read_bytes.
    rewrite Hfile. unfold mbind, result_bind, Py.bind.
    rewrite Hph. reflexivity. }
  split.
  { rewrite Hw. cbn [Spec.stored_world Cli.fs]. rewrite Hfiles.
    apply lookup_insert_eq. }
  split.
  { intros p Hp Hp'. rewrite Hw. cbn [Spec.stored_world Cli.fs].
    rewrite Hfiles.
    rewrite !lookup_insert_ne by congruence. reflexivity. }
  split.
  { intros h. rewrite Hw, stored_world_hashes.
    split; intros [Hh | [Hh | Hh]]; auto.
    - destruct Hh as [-> Hne]. auto.
    - destruct Hh as [[= ->] Hne]. auto. }
  rewrite Hw. reflexivity.
Qed.

(** X11.  Once a picture is stored, the same bytes are not stored again
    in the run: any candidate whose URL serves bytes with the content hash
    of the stored picture is dropped, and the world stays as it is. *)
Theorem download_candidate_not_twice (c c2 : Models.Candidate)
    (cfg : Config.Config) (out : Models.Path) (w w' : Cli.World)
    (info : Models.DownloadInfo) (url2 : string) (data : bytes) :
  Cli.download_candidate c cfg out w = (w', Ok (Some info)) ->
  Models.direct_url c2 = Some url2 ->
  http_get url2 = Ok data ->
  Dedup.compute_sha256 data = Models.sha256 info ->
  Cli.download_candidate c2 cfg out w' = (w', Ok None).
Proof.
  intros Hrun Hurl Hget Hsha.
  destruct (download_stored_hashes c cfg out w w' info Hrun)
    as (_ & Hknown & _).
  rewrite download_candidate_cases, Hurl.
  destruct (str_truthy url2); [ | reflexivity ].
  rewrite Hget, Hsha.
  rewrite bool_decide_eq_true_2; [ reflexivity | exact Hknown ].
Qed.


End PipelineFacts.

Lemma download_candidate_none_witness :
  let c := Demo.demo_candidate "https://img.example/full.jpg" in
  let sha := Dedup.compute_sha256 (H := Demo.demo_externals)
               [Byte.x06; Byte.x02; Byte.xff] in
  let w := Demo.demo_world ({[ sha ]} : gset string) in
  fst (Cli.download_candidate (H := Demo.demo_externals)
         c Demo.demo_config "library" w) = w.
Proof.
  intros c sha w.
  refine (proj1 (download_candidate_none (H := Demo.demo_externals)
                   c Demo.demo_config "library" w _ _)).
  vm_compute. reflexivity.
Defined.

Lemma download_candidate_stored_witness :
  In (Models.suitability Demo.demo_stored_info)
    ["perfect"; "croppable"; "upscalable"].
Proof.
  pose (c := Demo.demo_candidate "https://img.example/full.jpg").
  pose (r := Cli.download_candidate (H := Demo.demo_externals)
               c Demo.demo_config "library" (Demo.demo_world ∅)).
  assert (Cli.download_candidate (H := Demo.demo_externals)
            c Demo.demo_config "library" (Demo.demo_world ∅)
          = (fst r, Ok (Some Demo.demo_stored_info))) as Hrun
    by (vm_compute; reflexivity).
  destruct (download_candidate_stored (H := Demo.demo_externals)
              c Demo.demo_config "library" (Demo.demo_world ∅) (fst r)
              Demo.demo_stored_info Hrun)
    as (url & data & _ & _ & _ & _ & _ & _ & _ & _ & _ & _ & _ & Hcat & _).
  exact Hcat.
Defined.

Lemma download_candidate_on_disk_witness :
  let c := Demo.demo_candidate "https://img.example/full.jpg" in
  let r := Cli.download_candidate (H := Demo.demo_externals)
             c Demo.demo_config "library" (Demo.demo_world ∅) in
  exists data : bytes,
    Fs.files (Cli.fs (fst r)) !! "library/unsplash/abc123-blue-lake.jpg"
      = Some data /\
    Models.sha256 Demo.demo_stored_info
      = Dedup.compute_sha256 (H := Demo.demo_externals) data.
Proof.
  intros c r.
  assert (Cli.download_candidate (H := Demo.demo_externals)
            c Demo.demo_config "library" (Demo.demo_world ∅)
          = (fst r, Ok (Some Demo.demo_stored_info))) as Hrun
    by (vm_compute; reflexivity).
  destruct (download_candidate_on_disk (H := Demo.demo_externals)
              c Demo.demo_config "library" (Demo.demo_world ∅) (fst r)
              Demo.demo_stored_info Hrun)
    as (data & Hfile & Hsha & _).
  - vm_compute. discriminate.
  - exists data. split; [ exact Hfile | exact Hsha ].
Defined.

Lemma download_candidate_not_twice_witness :
  let c := Demo.demo_candidate "https://img.example/full.jpg" in
  let r := Cli.download_candidate (H := Demo.demo_externals)
             c Demo.demo_config "library" (Demo.demo_world ∅) in
  Cli.download_candidate (H := Demo.demo_externals)
    c Demo.demo_config "library" (fst r) = (fst r, Ok None).
Proof.
  intros c r.
  refine (download_candidate_not_twice (H := Demo.demo_externals)
            c c Demo.demo_config "library" (Demo.demo_world ∅) (fst r)
            Demo.demo_stored_info "https://img.example/full.jpg"
            [Byte.x06; Byte.x02; Byte.xff] _ _ _ _).
  - vm_compute. reflexivity.
  - reflexivity.
  - reflexivity.
  - reflexivity.
Defined.


(** ** cli.py: the loop of fetch *)

Section RunnerFacts.
Context `{Externals}.
Variable unsplash_discover :
  Unsplash.UnsplashAdapter -> string -> Z -> result (list Models.Candidate).
Variables (cfg : Config.Config) (query : string) (limit : Z).

Section Invariant.
Variable dry_run : bool.
Variable Q : Models.Candidate -> Prop.
Variable P : Cli.World -> Db.Database -> list Models.DownloadInfo -> Prop.
Hypothesis P_stored :
  forall c w db d w' info db',
    Q c -> P w db d ->
    Cli.download_candidate c cfg (Config.output_dir cfg) w
      = (w', Ok (Some info)) ->
    Db.record_download db info (Some query) = Ok db' ->
    P w' db' (d ++ [info]).
Hypothesis P_unrecorded :
  forall c w db d w' info e,
    Q c -> P w db d ->
    Cli.download_candidate c cfg (Config.output_dir cfg) w
      = (w', Ok (Some info)) ->
    Db.record_download db info (Some query) = Raise e ->
    P w' db d.
Hypothesis P_failed :
  forall c w db d w' e,
    Q c -> P w db d ->
    Cli.download_candidate c cfg (Config.output_dir cfg) w = (w', Raise e) ->
    P w' db d.

(** What holds at the start, is kept by every stored picture and is not
    broken by a failed download or a failed recording, holds at the end
    of the inner loop. *)
Lemma run_candidates_invariant (candidates : list Models.Candidate)
    (st : Spec.run_state) :
  Forall Q candidates ->
  P (Spec.run_world st) (Spec.run_db st) (Spec.run_downloaded st) ->
  let st' := fst (Cli.run_candidates candidates cfg query limit dry_run st) in
  P (Spec.run_world st') (Spec.run_db st') (Spec.run_downloaded st').
Proof.
  intros HQ. revert st.
  induction HQ as [| cand rest Hc Hrest IH]; intros st HP.
  - exact HP.
  - destruct st as [[w db] d]. cbn [Cli.run_candidates].
    destruct (opt_truthy _); [ apply IH; exact HP | ].
    destruct dry_run; [ apply IH; exact HP | ].
    unfold Spec.run_world, Spec.run_db, Spec.run_downloaded in HP.
    cbn [fst snd] in HP.
    destruct (Cli.download_candidate cand cfg _ w) as [w' [[info|] | e]]
      eqn:Hrun.
    + destruct (Db.record_download db info (Some query)) as [db' | e]
        eqn:Hrec.
      * pose proof (P_stored _ _ _ _ _ _ _ Hc HP Hrun Hrec) as HP'.
        cbn zeta.
        destruct (Utils.human_size _).
        -- destruct (_ >=? limit); [ exact HP' | apply IH; exact HP' ].
        -- apply IH. exact HP'.
      * apply IH. exact (P_unrecorded _ _ _ _ _ _ _ Hc HP Hrun Hrec).
    + apply download_none_world in Hrun. subst w'.
      apply IH. exact HP.
    + apply IH. exact (P_failed _ _ _ _ _ _ Hc HP Hrun).
Qed.

(** And at the end of the run. *)
Lemma runner_invariant (adapters : list Cli.Adapter) (st : Spec.run_state) :
  (forall c,
     Spec.discovered unsplash_discover adapters query (Config.page_limit cfg)
       c -> Q c) ->
  P (Spec.run_world st) (Spec.run_db st) (Spec.run_downloaded st) ->
  let st' :=
    fst (Cli.runner unsplash_discover adapters cfg query limit dry_run st) in
  P (Spec.run_world st') (Spec.run_db st') (Spec.run_downloaded st').
Proof.
  revert st. induction adapters as [| a rest IH]; intros st HQ HP.
  - exact HP.
  - cbn [Cli.runner].
    destruct (Cli.adapter_discover _ _ _ _) as [candidates | e] eqn:Hdisc;
      [ | exact HP ].
    assert (Forall Q candidates) as Hcands.
    { apply List.Forall_forall. intros c Hc. apply HQ.
      exists a, candidates. split; [ left; reflexivity | auto ]. }
    pose proof (run_candidates_invariant candidates st Hcands HP) as HP'.
    cbn zeta in HP'.
    destruct (Cli.run_candidates candidates cfg query limit dry_run st)
      as [st' returned].
    cbn [fst] in HP'.
    destruct returned; [ exact HP' | ].
    apply IH; [ | exact HP' ].
    intros c (a' & cands & Hin & Hd & Hc). apply HQ.
    exists a', cands. split; [ right; exact Hin | auto ].
Qed.

End Invariant.

(** X13.  A dry run stores nothing: whatever the adapters find, the files,
    the set of hashes, the database and the list of downloads are at the
    end of [runner] what they were at the start. *)
Theorem runner_dry_run (adapters : list Cli.Adapter) (st : Spec.run_state) :
  fst (Cli.runner unsplash_discover adapters cfg query limit true st) = st.
Proof.
  assert (forall candidates st,
            Cli.run_candidates candidates cfg query limit true st
            = (st, false)) as Hcands.
  { induction candidates as [| cand rest IH]; intros [[w db] d].
    - reflexivity.
    - cbn [Cli.run_candidates]. destruct (opt_truthy _); apply IH. }
  revert st. induction adapters as [| a rest IH]; intros st.
  - reflexivity.
  - cbn [Cli.runner].
    destruct (Cli.adapter_discover _ _ _ _) as [candidates | e];
      [ | reflexivity ].
    rewrite Hcands. apply IH.
Qed.

(** Candidates that have no direct URL leave the run as it is. *)
Lemma run_candidates_nothing (candidates : list Models.Candidate)
    (dry_run : bool) (st : Spec.run_state) :
  Forall (fun c => Models.direct_url c = None) candidates ->
  Cli.run_candidates candidates cfg query limit dry_run st = (st, false).
Proof.
  induction 1 as [| cand rest Hurl Htl IH]; destruct st as [[w db] d].
  - reflexivity.
  - cbn [Cli.run_candidates].
    destruct (opt_truthy _); [ exact IH | ].
    destruct dry_run; [ exact IH | ].
    rewrite download_candidate_cases, Hurl. exact IH.
Qed.

(** One stub adapter whose homepage is parsed: the run goes on to the
    next adapter with the state it had. *)
Lemma stub_runner_step (a : StubSources.DisallowedAdapter)
    (rest : list Cli.Adapter) (dry_run : bool) (st : Spec.run_state)
    (allowed : bool) :
  Robots.can_fetch (StubSources.homepage a) = Ok allowed ->
  Cli.runner unsplash_discover (Cli.StubSource a :: rest)
    cfg query limit dry_run st =
  Cli.runner unsplash_discover rest cfg query limit dry_run st.
Proof.
  intros Hcan. cbn [Cli.runner Cli.adapter_discover].
  rewrite discover_unfold, Hcan.
  rewrite run_candidates_nothing; [ reflexivity | ].
  repeat constructor.
Qed.

Lemma stub_runner_nothing (stubs : list StubSources.DisallowedAdapter)
    (dry_run : bool) (st : Spec.run_state) :
  Forall (fun a => exists allowed,
            Robots.can_fetch (StubSources.homepage a) = Ok allowed) stubs ->
  Cli.runner unsplash_discover (map Cli.StubSource stubs)
    cfg query limit dry_run st = (st, Ok tt).
Proof.
  induction 1 as [| a rest [allowed Hcan] Hrest IH]; [ reflexivity | ].
  cbn [map]. rewrite (stub_runner_step _ _ _ _ _ Hcan). exact IH.
Qed.




Section Limit.
Hypothesis sizes :
  forall url data, http_get url = Ok data ->
                   Z.of_nat (length data) < 2 ^ 1023.

Lemma human_size_returns (n : Z) :
  0 <= n < 2 ^ 1023 -> exists s, Utils.human_size n = Ok s.
Proof.
  intros Hn. destruct (float_of_int_returns n Hn) as [x Hx].
  destruct (human_size_of_float n x (proj1 Hn) Hx)
    as (x' & k & _ & _ & _ & _ & _ & Hs).
  eexists. exact Hs.
Qed.

Lemma stored_size_formats (c : Models.Candidate) (out : Models.Path)
    (w w' : Cli.World) (info : Models.DownloadInfo) :
  Cli.download_candidate c cfg out w = (w', Ok (Some info)) ->
  exists s, Utils.human_size (Models.file_size info) = Ok s.
Proof.
  intros Hrun.
  destruct (download_stored_inversion c cfg out w w' info Hrun)
    as (url & data & ph & s & _ & _ & Hget & _ & _ & _ & _ & _ & Hinfo & _).
  rewrite Hinfo. cbn [Models.file_size].
  apply human_size_returns. split; [ lia | ].
  exact (sizes url data Hget).
Qed.

Lemma run_candidates_limit (candidates : list Models.Candidate)
    (dry_run : bool) (st : Spec.run_state) :
  let r := Cli.run_candidates candidates cfg query limit dry_run st in
  let n := Z.of_nat (length (Spec.run_downloaded st)) in
  let n' := Z.of_nat (length (Spec.run_downloaded (fst r))) in
  n' <= Z.max limit (n + 1) /\
  (snd r = false -> n' = n \/ n' < limit) /\
  (snd r = true -> limit <= n').
Proof.
  revert st. induction candidates as [| cand rest IH]; intros st.
  - cbn. split; [ lia | ]. split; [ auto | discriminate ].
  - destruct st as [[w db] d]. cbn [Cli.run_candidates].
    destruct (opt_truthy _); [ apply IH | ].
    destruct dry_run; [ apply IH | ].
    destruct (Cli.download_candidate cand cfg _ w) as [w' [[info|] | e]]
      eqn:Hrun; try apply (IH (w', db, d)).
    destruct (Db.record_download db info (Some query)) as [db' | e];
      [ | apply (IH (w', db, d)) ].
    destruct (stored_size_formats _ _ _ _ _ Hrun) as [txt ->].
    cbn zeta.
    destruct (Z.geb_spec (Z.of_nat (length (d ++ [info]))) limit)
      as [Hge | Hlt].
    + unfold Spec.run_downloaded. cbn [fst snd].
      rewrite length_app in *. cbn [length] in *.
      split; [ lia | ]. split; [ discriminate | lia ].
    + specialize (IH (w', db', d ++ [info])).
      cbn zeta in IH. unfold Spec.run_downloaded in *. cbn [fst snd] in *.
      rewrite length_app in *. cbn [length] in *.
      destruct IH as (IH1 & IH2 & IH3).
      split; [ lia | ]. split; [ | exact IH3 ].
      intros Hret. specialize (IH2 Hret). lia.
Qed.

(** X15.  No response being so long that its size cannot be formatted, a
    run that starts with [n] downloads ends with at most [limit] of them,
    or with at most [n + 1] when [n] had already reached the limit.  The
    limit is tested only after a picture is stored: a run from an empty
    list never stores more than [limit] pictures when the limit is at
    least one, and never more than one when it is zero or negative. *)
Theorem runner_respects_limit (adapters : list Cli.Adapter)
    (dry_run : bool) (st : Spec.run_state) :
  let n := Z.of_nat (length (Spec.run_downloaded st)) in
  let n' :=
    Z.of_nat
      (length (Spec.run_downloaded
                 (fst (Cli.runner unsplash_discover adapters cfg query limit
                         dry_run st)))) in
  n' <= Z.max limit (n + 1).
Proof.
  revert st. induction adapters as [| a rest IH]; intros st.
  - cbn. lia.
  - cbn [Cli.runner].
    destruct (Cli.adapter_discover _ _ _ _) as [candidates | e];
      [ | cbn; lia ].
    pose proof (run_candidates_limit candidates dry_run st) as Hc.
    cbn zeta in Hc.
    destruct (Cli.run_candidates candidates cfg query limit dry_run st)
      as [st' returned].
    cbn [fst snd] in Hc. destruct Hc as (Hc1 & Hc2 & Hc3).
    destruct returned; [ exact Hc1 | ].
    specialize (IH st'). cbn zeta in *.
    destruct (Hc2 eq_refl) as [Heq | Hlt]; lia.
Qed.

End Limit.

(** X16.  The pictures downloaded in one run have pairwise different
    content hashes, none of which was in the set at the start and all of
    which are in the set at the end; the set only grows. *)
Theorem runner_no_duplicates (adapters : list Cli.Adapter) (dry_run : bool)
    (w : Cli.World) (db : Db.Database) :
  let st' :=
    fst (Cli.runner unsplash_discover adapters cfg query limit dry_run
           (w, db, [])) in
  NoDup (map Models.sha256 (Spec.run_downloaded st')) /\
  (forall info, In info (Spec.run_downloaded st') ->
     (Models.sha256 info ∉ Cli.hashes w) /\
     Models.sha256 info ∈ Cli.hashes (Spec.run_world st')) /\
  Cli.hashes w ⊆ Cli.hashes (Spec.run_world st').
Proof.
  pose (P := fun (w1 : Cli.World) (_ : Db.Database)
                 (d : list Models.DownloadInfo) =>
               NoDup (map Models.sha256 d) /\
               (forall info, In info d ->
                  (Models.sha256 info ∉ Cli.hashes w) /\
                  Models.sha256 info ∈ Cli.hashes w1) /\
               Cli.hashes w ⊆ Cli.hashes w1).
  apply (runner_invariant dry_run (fun _ => True) P).
  - intros c w1 db1 d w2 info db2 _ (Hnd & Hin & Hsub) Hrun _.
    destruct (download_stored_hashes c cfg _ w1 w2 info Hrun)
      as (Hfresh & Hknown & Hgrow).
    split; [ | split ].
    + rewrite map_app. apply NoDup_app. split; [ exact Hnd | ].
      split; [ | apply NoDup_singleton ].
      intros h Hh Hh'. cbn [map] in Hh'.
      apply list_elem_of_singleton in Hh'. subst h.
      apply list_elem_of_In, in_map_iff in Hh.
      destruct Hh as (info' & Heq & Hin').
      apply Hfresh. rewrite <- Heq. apply Hin. exact Hin'.
    + intros info' Hin'. apply in_app_iff in Hin'.
      destruct Hin' as [Hin' | [<- | []]].
      * destruct (Hin info' Hin') as [Hnew Hold].
        split; [ exact Hnew | apply Hgrow; exact Hold ].
      * split; [ | exact Hknown ].
        intros Hold. apply Hfresh, Hsub. exact Hold.
    + intros h Hh. apply Hgrow, Hsub. exact Hh.
  - intros c w1 db1 d w2 info e _ (Hnd & Hin & Hsub) Hrun _.
    destruct (download_stored_hashes c cfg _ w1 w2 info Hrun)
      as (_ & _ & Hgrow).
    split; [ exact Hnd | ]. split.
    + intros info' Hin'. destruct (Hin info' Hin') as [Hnew Hold].
      split; [ exact Hnew | apply Hgrow; exact Hold ].
    + intros h Hh. apply Hgrow, Hsub. exact Hh.
  - intros c w1 db1 d w2 e _ (Hnd & Hin & Hsub) Hrun.
    destruct (download_raises_frame c cfg _ w1 w2 e Hrun) as (Hh & _).
    unfold P. rewrite Hh. repeat split; try assumption; apply Hin; assumption.
  - intros c _. exact I.
  - unfold P, Spec.run_world, Spec.run_db, Spec.run_downloaded.
    cbn [fst snd map].
    split; [ constructor | ]. split; [ intros info [] | reflexivity ].
Qed.

(** X17.  When the set of hashes is the one that [existing_hashes] reads
    from the table, as [fetch] has it, and no row has an empty content
    hash, the table grows in a run by exactly the number of pictures
    downloaded: the total that [fetch] prints is the total before plus the
    number it prints before it.  Every download of the run has its row,
    with its content hash, its path and the query of the run. *)
Theorem runner_database_total (adapters : list Cli.Adapter) (dry_run : bool)
    (w : Cli.World) (db : Db.Database) :
  Cli.hashes w = Db.existing_hashes db ->
  (forall r, In r (Db.images db) -> Db.sha256 r <> "") ->
  let st' :=
    fst (Cli.runner unsplash_discover adapters cfg query limit dry_run
           (w, db, [])) in
  Db.count (Spec.run_db st') =
    Db.count db + Z.of_nat (length (Spec.run_downloaded st')) /\
  (forall info, In info (Spec.run_downloaded st') ->
     exists r, In r (Db.images (Spec.run_db st')) /\
               Db.sha256 r = Models.sha256 info /\
               Db.file_path r = Models.file_path info /\
               Db.query r = Some query).
Proof.
  intros Hset Hnonempty.
  assert (forall r, In r (Db.images db) -> Db.sha256 r ∈ Cli.hashes w)
    as Hknown.
  { intros r Hr. rewrite Hset. apply existing_hashes_iff.
    split; [ apply Hnonempty; exact Hr | ]. exists r. auto. }
  pose (P := fun (w1 : Cli.World) (db1 : Db.Database)
                 (d : list Models.DownloadInfo) =>
               (forall r, In r (Db.images db1) ->
                          Db.sha256 r ∈ Cli.hashes w1) /\
               Db.count db1 = Db.count db + Z.of_nat (length d) /\
               (forall info, In info d ->
                  exists r, In r (Db.images db1) /\
                            Db.sha256 r = Models.sha256 info /\
                            Db.file_path r = Models.file_path info /\
                            Db.query r = Some query)).
  apply (runner_invariant dry_run (fun _ => True) P).
  - intros c w1 db1 d w2 info db2 _ (Hrows & Hcount & Hrec) Hrun Hok.
    destruct (download_stored_hashes c cfg _ w1 w2 info Hrun)
      as (Hfresh & Hnow & Hgrow).
    assert (Db.sha256_present (Models.sha256 info) (Db.images db1) = false)
      as Habsent.
    { apply not_true_iff_false. intros Hp.
      apply sha256_present_iff in Hp. destruct Hp as (r & Hr & Heq).
      apply Hfresh. rewrite <- Heq. apply Hrows. exact Hr. }
    pose proof (record_download_images _ _ _ _ Hok) as Himg.
    rewrite Habsent in Himg.
    split; [ | split ].
    + intros r Hr. rewrite Himg in Hr. apply in_app_iff in Hr.
      destruct Hr as [Hr | [<- | []]].
      * apply Hgrow, Hrows. exact Hr.
      * exact Hnow.
    + unfold Db.count in *. rewrite Himg, !length_app. cbn [length]. lia.
    + intros info' Hin'. apply in_app_iff in Hin'.
      destruct Hin' as [Hin' | [<- | []]].
      * destruct (Hrec info' Hin') as (r & Hr & Hr').
        exists r. split; [ | exact Hr' ].
        rewrite Himg. apply in_app_iff. left. exact Hr.
      * eexists. split; [ rewrite Himg; apply in_app_iff; right; left;
                          reflexivity | ].
        repeat split.
  - intros c w1 db1 d w2 info e _ (Hrows & Hcount & Hrec) Hrun _.
    destruct (download_stored_hashes c cfg _ w1 w2 info Hrun)
      as (_ & _ & Hgrow).
    split; [ | split; assumption ].
    intros r Hr. apply Hgrow, Hrows. exact Hr.
  - intros c w1 db1 d w2 e _ (Hrows & Hcount & Hrec) Hrun.
    destruct (download_raises_frame c cfg _ w1 w2 e Hrun) as (Hh & _).
    unfold P. rewrite Hh. repeat split; assumption.
  - intros c _. exact I.
  - unfold P, Spec.run_world, Spec.run_db, Spec.run_downloaded.
    cbn [fst snd length].
    split; [ exact Hknown | ]. split; [ lia | intros info [] ].
Qed.

End RunnerFacts.

(** ** cli.py: build_adapters *)

Section AdapterFacts.
Context `{Externals}.

(** X18.  With no source named, [build_adapters] gives the seven stub
    adapters, after the Unsplash adapter when the access key is a
    non-empty text; with [unsplash] named it gives the Unsplash adapter
    alone, or nothing without a key; with any other source named it gives
    nothing, key or no key.  So the list is empty, and [fetch] exits,
    exactly when a source is named and it is not [unsplash] with a key.
    The [ValueError] of the adapter is never met. *)
Theorem build_adapters_spec (config : Config.Settings)
    (source : option string) :
  let key := opt_truthy (Config.unsplash_access_key config) in
  let unsplash :=
    if key then [Cli.UnsplashSource (Unsplash.mkUnsplashAdapter config)]
    else [] in
  (source = None ->
     Cli.build_adapters config source =
       unsplash ++
       List.map Cli.StubSource StubSources.build_default_stub_adapters) /\
  (source = Some "unsplash" -> Cli.build_adapters config source = unsplash) /\
  (forall s, source = Some s -> s <> "unsplash" ->
     Cli.build_adapters config source = []) /\
  (Cli.build_adapters config source = [] <->
     exists s, source = Some s /\ (s = "unsplash" -> key = false)) /\
  (key = true -> exists a, Unsplash.init config = inr a).
Proof.
  intros key unsplash. subst unsplash key.
  unfold Cli.build_adapters, Unsplash.init.
  destruct (opt_truthy (Config.unsplash_access_key config)) eqn:Hkey;
    cbn [negb andb app].
  - split; [ intros ->; reflexivity | ].
    split; [ intros ->; reflexivity | ].
    split.
    { intros s -> Hs. apply String.eqb_neq in Hs. rewrite Hs. reflexivity. }
    split; [ | eauto ].
    destruct source as [s|].
    + destruct (String.eqb_spec s "unsplash") as [-> | Hne]; cbn [andb].
      * split; [ discriminate | ].
        intros (s & [= <-] & Hs). discriminate (Hs eq_refl).
      * split; [ | reflexivity ]. intros _. exists s.
        split; [ reflexivity | ]. intros Heq. contradiction.
    + split; [ discriminate | ]. intros (s & Hs & _). discriminate.
  - rewrite andb_false_r.
    split; [ intros ->; reflexivity | ].
    split; [ intros ->; reflexivity | ].
    split; [ intros s -> _; reflexivity | ].
    split; [ | discriminate ].
    destruct source as [s|].
    + split; [ | reflexivity ]. intros _. exists s. auto.
    + split; [ discriminate | ]. intros (s & Hs & _). discriminate.
Qed.

(** X19.  Without an Unsplash access key, a run of [fetch] over every
    source stores nothing: the adapters are the stubs alone, and the run
    ends with the state it started from. *)
Theorem no_key_stores_nothing
    (unsplash_discover :
       Unsplash.UnsplashAdapter -> string -> Z ->
       result (list Models.Candidate))
    (config : Config.Settings) (query : string) (limit : Z)
    (dry_run : bool) (st : Spec.run_state) :
  opt_truthy (Config.unsplash_access_key config) = false ->
  Cli.build_adapters config None =
    List.map Cli.StubSource StubSources.build_default_stub_adapters /\
  Cli.runner unsplash_discover (Cli.build_adapters config None)
    (Config.pipeline config) query limit dry_run st = (st, Ok tt).
Proof.
  intros Hkey.
  assert (Cli.build_adapters config None =
            List.map Cli.StubSource StubSources.build_default_stub_adapters)
    as Hstubs.
  { unfold Cli.build_adapters. rewrite Hkey. reflexivity. }
  split; [ exact Hstubs | ].
  rewrite Hstubs. apply stub_runner_nothing.
  eapply Forall_impl; [ exact default_stub_adapters_plain | ].
  intros a. apply can_fetch_plain.
Qed.

End AdapterFacts.

(** ** cli.py: spaces in file names *)

Section NameFacts.

Lemma has_space_app (a b : string) :
  Spec.has_space (a +:+ b) = Spec.has_space a || Spec.has_space b.
Proof.
  induction a as [| c a IH]; simpl; [ reflexivity | ].
  rewrite IH. apply orb_assoc.
Qed.

Lemma str_replace_no_space (s : string) :
  Spec.has_space (str_replace " " "-" s) = false.
Proof.
  induction s as [| c s IH]; simpl; [ reflexivity | ].
  rewrite IH, orb_false_r.
  destruct (Ascii.eqb c " ") eqn:Hc; [ reflexivity | exact Hc ].
Qed.

(** X22.  The file name of a candidate holds a space exactly when its id
    does: the spaces of the title never reach the name. *)
Theorem candidate_filename_no_space (c : Models.Candidate) :
  Spec.has_space (Cli.candidate_filename c) = Spec.has_space (Models.id c).
Proof.
  unfold Cli.candidate_filename.
  rewrite !has_space_app.
  destruct (str_truthy (Models.title c)).
  - rewrite str_replace_no_space. cbn. rewrite !orb_false_r. reflexivity.
  - cbn. rewrite !orb_false_r. apply orb_diag.
Qed.

End NameFacts.


Lemma demo_sizes (url : string) (data : bytes) :
  http_get (Externals := Demo.demo_externals) url = Ok data ->
  Z.of_nat (length data) < 2 ^ 1023.
Proof.
  cbn [http_get Demo.demo_externals]. unfold Demo.demo_http_get.
  destruct (String.eqb url _); [ intros [= <-]; reflexivity | ].
  destruct (String.eqb url _); [ intros [= <-]; reflexivity | discriminate ].
Defined.

Lemma runner_respects_limit_witness :
  let adapters :=
    [Cli.UnsplashSource (Unsplash.mkUnsplashAdapter
                           (Demo.demo_settings (Some "key")))] in
  let st := (Demo.demo_world ∅, Db.empty, []) in
  Z.of_nat
    (length (Spec.run_downloaded
               (fst (Cli.runner (H := Demo.demo_externals)
                       Demo.demo_unsplash_discover adapters
                       Demo.demo_config "lake" 0 false st)))) <= 1.
Proof.
  intros adapters st.
  exact (runner_respects_limit (H := Demo.demo_externals)
           Demo.demo_unsplash_discover Demo.demo_config "lake" 0
           demo_sizes adapters false st).
Defined.

Lemma runner_database_total_witness :
  let adapters :=
    [Cli.UnsplashSource (Unsplash.mkUnsplashAdapter
                           (Demo.demo_settings (Some "key")))] in
  let st' := fst (Cli.runner (H := Demo.demo_externals)
                    Demo.demo_unsplash_discover adapters
                    Demo.demo_config "lake" 20 false
                    (Demo.demo_world ∅, Db.empty, [])) in
  Db.count (Spec.run_db st') =
    Db.count Db.empty + Z.of_nat (length (Spec.run_downloaded st')).
Proof.
  intros adapters st'.
  refine (proj1 (runner_database_total (H := Demo.demo_externals)
                   Demo.demo_unsplash_discover Demo.demo_config "lake" 20
                   adapters false (Demo.demo_world ∅) Db.empty _ _)).
  - reflexivity.
  - intros r [].
Defined.

Lemma build_adapters_spec_witness :
  Cli.build_adapters (Demo.demo_settings (Some "key")) (Some "4kwallpapers")
  = [].
Proof.
  refine (proj1 (proj2 (proj2 (build_adapters_spec
                                 (Demo.demo_settings (Some "key"))
                                 (Some "4kwallpapers"))))
            "4kwallpapers" eq_refl _).
  discriminate.
Defined.

Lemma no_key_stores_nothing_witness :
  let st := (Demo.demo_world ∅, Db.empty, []) in
  Cli.runner (H := Demo.demo_externals) Demo.demo_unsplash_discover
    (Cli.build_adapters (Demo.demo_settings None) None)
    Demo.demo_config "lake" 20 false st = (st, Ok tt).
Proof.
  intros st.
  refine (proj2 (no_key_stores_nothing (H := Demo.demo_externals)
                   Demo.demo_unsplash_discover (Demo.demo_settings None)
                   "lake" 20 false st _)).
  reflexivity.
Defined.

(** With a limit of zero the first picture that can be stored is stored,
    and the run ends there; with a limit of twenty the second copy of the
    picture is dropped as a duplicate. *)
Example runner_limit_zero :
  let adapters :=
    [Cli.UnsplashSource (Unsplash.mkUnsplashAdapter
                           (Demo.demo_settings (Some "key")))] in
  let run := fun limit =>
    fst (Cli.runner (H := Demo.demo_externals)
           Demo.demo_unsplash_discover adapters
           Demo.demo_config "lake" limit false
           (Demo.demo_world ∅, Db.empty, [])) in
  Spec.run_downloaded (run 0) = [Demo.demo_stored_info] /\
  Spec.run_downloaded (run 20) = [Demo.demo_stored_info] /\
  Db.count (Spec.run_db (run 20)) = 1.
Proof. repeat split; vm_compute; reflexivity. Qed.

(** ** image_ops.py: a picture of the target size *)

Section SameSize.

Lemma binary_round_aux_shape (s : bool) (mx ex : Z) (lx : location) :
  0 <= mx ->
  binary_round_aux prec emax s mx ex lx = S754_zero s \/
  (exists m e, binary_round_aux prec emax s mx ex lx = S754_finite s m e) \/
  binary_round_aux prec emax s mx ex lx = S754_infinity s.
Proof.
  intros Hmx. rewrite binary_round_aux_eq. cbn zeta.
  set (r1 := fst (shr_fexp prec emax mx ex lx)).
  set (e1 := snd (shr_fexp prec emax mx ex lx)).
  set (m2 := round_nearest_even (shr_m r1) (loc_of_shr_record r1)).
  assert (0 <= m2) as Hm2.
  { pose proof (round_nearest_even_bounds (shr_m r1) (loc_of_shr_record r1))
      as Hb.
    subst m2 r1. rewrite shr_fexp_m in * by exact Hmx.
    pose proof (Z.pow_pos_nonneg 2 (Spec.shift_count mx ex) ltac:(lia)
                  ltac:(unfold Spec.shift_count; lia)) as Hp.
    pose proof (Z.div_pos mx _ Hmx Hp). lia. }
  pose proof (shr_fexp_m m2 e1 loc_Exact Hm2) as Hm.
  destruct (shr_m (fst (shr_fexp prec emax m2 e1 loc_Exact))) as [| m | m].
  - left. reflexivity.
  - right. destruct (_ <=? _); [ left; eauto | right; reflexivity ].
  - exfalso.
    pose proof (Z.pow_pos_nonneg 2 (Spec.shift_count m2 e1) ltac:(lia)
                  ltac:(unfold Spec.shift_count; lia)) as Hp.
    pose proof (Z.div_pos m2 _ Hm2 Hp). lia.
Qed.

Lemma fsub_self (q : float) :
  Spec.nonneg_finite q -> fsub q q = S754_zero false.
Proof.
  destruct q as [[|] | | | [|] m e]; simpl; try tauto; intros _;
    try reflexivity.
  unfold fsub, SFsub. cbn zeta. cbn [cond_Zopp].
  rewrite Z.sub_diag. reflexivity.
Qed.

Lemma fmul_nonneg (q tol : float) :
  Spec.nonneg_finite q -> Spec.nonneg_finite tol ->
  fle (S754_zero false) (fmul q tol) = true.
Proof.
  destruct q as [sq | | | [|] mq eq]; simpl; try tauto; intros _;
    destruct tol as [st | | | [|] mt et]; simpl; try tauto; intros _;
    try reflexivity.
  unfold fmul, SFmul. cbn [xorb].
  destruct (binary_round_aux_shape false (Zpos (mq * mt)) (eq + et)
              loc_Exact ltac:(lia)) as [-> | [(m & e & ->) | ->]];
    reflexivity.
Qed.

Lemma within_tolerance_self (q tol : float) :
  Spec.nonneg_finite q -> Spec.nonneg_finite tol ->
  ImageOps.within_tolerance q q tol = true.
Proof.
  intros Hq Ht. unfold ImageOps.within_tolerance.
  rewrite (fsub_self q Hq). apply fmul_nonneg; assumption.
Qed.

Lemma int_truediv_positive (a b : Z) :
  0 < a < 2 ^ 1023 -> 0 < b ->
  exists q, int_truediv a b = Ok q /\ Spec.nonneg_finite q.
Proof.
  intros [Ha Hmax] Hb.
  destruct a as [| pa | pa]; try lia. destruct b as [| pb | pb]; try lia.
  unfold int_truediv. cbn [Z.eqb raw_of_int].
  destruct (fdiv_finite false false pa pb Hmax) as [[z ->] | (m & e & ->)].
  - eexists. split; [ reflexivity | exact I ].
  - eexists. split; [ reflexivity | exact I ].
Qed.

(** X20.  A picture of exactly the target size is [perfect], whatever the
    two flags, for every tolerance that is zero or positive (and finite),
    the width being below 2^1023 so that the aspect ratio is a float. *)
Theorem evaluate_suitability_same_size (tw th : Z) (tol : float)
    (ac au : bool) :
  0 < tw < 2 ^ 1023 -> 0 < th -> Spec.nonneg_finite tol ->
  ImageOps.evaluate_suitability (tw, th) (tw, th) tol ac au =
  Ok (ImageOps.mkSuitabilityResult "perfect" f1_0
        "Matches target within tolerance").
Proof.
  intros Htw Hth Htol.
  rewrite evaluate_suitability_valid by lia.
  destruct (int_truediv_positive tw th Htw Hth) as (q & Hq & Hnn).
  unfold ImageOps.aspect_ratio. rewrite Hq.
  cbn [mbind result_bind Py.bind].
  rewrite (within_tolerance_self q tol Hnn Htol).
  replace (tw >=? tw) with true by (symmetry; apply Z.geb_le; lia).
  replace (th >=? th) with true by (symmetry; apply Z.geb_le; lia).
  reflexivity.
Qed.

End SameSize.

(** ** utils.py: sizes below 1024 *)

Section SmallSizes.

Lemma float_of_int_neg (p m : positive) (e : Z) :
  float_of_int (Zpos p) = Ok (S754_finite false m e) ->
  float_of_int (Zneg p) = Ok (S754_finite true m e).
Proof.
  unfold float_of_int, binary_normalize, binary_round.
  destruct (shl_align p 0 _) as [mz ez].
  rewrite !binary_round_aux_eq. cbn zeta.
  destruct (shr_m _) as [| m' | m']; try discriminate.
  destruct (_ <=? _); try discriminate.
  intros [= -> ->]. reflexivity.
Qed.

Lemma string_app_assoc (a b c : string) : (a +:+ b) +:+ c = a +:+ (b +:+ c).
Proof.
  induction a as [| x a IH]; [ reflexivity | ].
  change (String x ((a +:+ b) +:+ c) = String x (a +:+ (b +:+ c))).
  rewrite IH. reflexivity.
Qed.

Lemma decimal1_integer (n : Z) :
  0 <= n -> decimal1 n 1 = pretty n +:+ ".0".
Proof.
  intros Hn. unfold decimal1, round_half_even.
  rewrite Z.mod_1_r, Z.div_1_r.
  change (2 * 0 ?= 1) with Lt. cbv iota.
  rewrite (Z.mul_comm 10 n), Z.div_mul, Z.mod_mul by lia.
  reflexivity.
Qed.

Lemma format_1f_integer (s : bool) (m : positive) (e n : Z) :
  e <= 0 -> 0 <= n -> Zpos m = n * 2 ^ (- e) ->
  format_1f (S754_finite s m e) = sign_str s +:+ pretty n +:+ ".0".
Proof.
  intros He Hn Hm.
  assert (format_1f (S754_finite false m e) = pretty n +:+ ".0") as Hpos.
  { rewrite (format_1f_dyadic m e n 0); [ | lia | lia | ].
    - apply decimal1_integer. exact Hn.
    - rewrite Z.add_0_r. exact Hm. }
  destruct s; [ | exact Hpos ].
  change (format_1f (S754_finite true m e))
    with ("-" +:+ format_1f (S754_finite false m e)).
  rewrite Hpos. reflexivity.
Qed.

(** X21.  A count below 1024 is shown in bytes as the integer followed by
    [.0]; this holds for negative counts too, whatever their magnitude up
    to 2^53: they are never scaled to a larger unit. *)
Theorem human_size_below_1024 (n : Z) :
  Z.opp (2 ^ 53) < n < 1024 ->
  Utils.human_size n = Ok (pretty n +:+ ".0 B").
Proof.
  intros [Hlo Hhi].
  assert ((n <? 1024) = true) as Hlt by (apply Z.ltb_lt; exact Hhi).
  destruct n as [| p | p].
  - reflexivity.
  - destruct (float_of_int_small (Zpos p)) as (m & e & Hx & _ & He & Hm).
    { split; [ lia | ].
      apply Z.lt_trans with (m := 1024); [ exact Hhi | reflexivity ]. }
    rewrite (human_size_unfold _ _ Hx), Hlt.
    rewrite (format_1f_integer false m e (Zpos p)) by lia.
    cbn [sign_str]. f_equal.
    change ("" +:+ pretty (Zpos p)) with (pretty (Zpos p)).
    rewrite !string_app_assoc. reflexivity.
  - destruct (float_of_int_small (Zpos p)) as (m & e & Hx & _ & He & Hm).
    { split; [ lia | ]. lia. }
    apply float_of_int_neg in Hx.
    rewrite (human_size_unfold _ _ Hx), Hlt.
    rewrite (format_1f_integer true m e (Zpos p)) by lia.
    cbn [sign_str]. f_equal.
    change (pretty (Zneg p)) with ("-" +:+ pretty (Zpos p)).
    rewrite !string_app_assoc. reflexivity.
Qed.

End SmallSizes.

Lemma evaluate_suitability_same_size_witness :
  ImageOps.evaluate_suitability (7680, 1440) (7680, 1440) f0_2 false false =
  Ok (ImageOps.mkSuitabilityResult "perfect" f1_0
        "Matches target within tolerance").
Proof.
  apply evaluate_suitability_same_size.
  - split; reflexivity.
  - reflexivity.
  - exact I.
Defined.

Lemma human_size_below_1024_witness :
  Utils.human_size (-2048) = Ok "-2048.0 B".
Proof.
  apply (human_size_below_1024 (-2048)). split; reflexivity.
Defined.

(** ** adapters/unsplash.py: reading the answer of the search *)

Section UnsplashFacts.
Import Unsplash.



Ltac step_bind H :=
  match type of H with
  | (mbind _ ?c) = Returns _ =>
      let E := fresh "E" in
      destruct c eqn:E; cbn [mbind outcome_bind] in H; [ | discriminate H ]
  end.





Lemma candidates_of_items_shape (items : list json)
    (candidates : list RawCandidate) :
  candidates_of_items items = Returns candidates ->
  Forall2 (fun item r => candidate_of_item item = Returns r) items candidates.
Proof.
  revert candidates. induction items as [| item rest IH]; intros cs Hrun.
  - injection Hrun as <-. constructor.
  - cbn [candidates_of_items] in Hrun. step_bind Hrun. step_bind Hrun.
    injection Hrun as <-. constructor; [ assumption | apply IH; reflexivity ].
Qed.





Lemma title_returns (entries : list (string * json)) (alt : json) :
  exists title,
    (if truthy alt then Returns alt
     else
       description ← get (JDict entries) "description" JNull;
       Returns (if truthy description then description
                else JStr "unsplash"))
    = Returns title.
Proof.
  destruct (truthy alt); [ eauto | ]. cbn [get mbind outcome_bind]. eauto.
Qed.

(** X24.  Reading one photo of the answer: a photo that is not an object
    raises [TypeError], an object without [id] raises [KeyError]; a
    [links] or [urls] entry that is [null] (or anything but an object)
    raises [AttributeError], the default applying to a missing key only,
    whereas a [null] user is read as no user; and an object that has an
    [id] and nothing else gives the candidate with the title [unsplash],
    the page [https://unsplash.com], and no URL, author, size or tag. *)
Theorem unsplash_item_fields (entries : list (string * json)) :
  (forall item, Spec.is_dict item = false ->
     candidate_of_item item = Raises TypeError) /\
  (lookup_key "id" entries = None ->
     candidate_of_item (JDict entries) = Raises (KeyError "id")) /\
  (forall id key v,
     lookup_key "id" entries = Some id ->
     key = "links" \/
     (key = "urls" /\
      forall links, lookup_key "links" entries = Some links ->
                    Spec.is_dict links = true) ->
     lookup_key key entries = Some v -> Spec.is_dict v = false ->
     candidate_of_item (JDict entries) = Raises AttributeError) /\
  (forall id user,
     lookup_key "id" entries = Some id ->
     (forall key, In key ["alt_description"; "description"; "links"; "urls";
                          "width"; "height"; "tags"] ->
                  lookup_key key entries = None) ->
     lookup_key "user" entries = user ->
     user = None \/ user = Some JNull ->
     candidate_of_item (JDict entries) =
       Returns (mkRawCandidate id "unsplash" (JStr "unsplash")
                  (JStr "https://unsplash.com") JNull JNull
                  "Unsplash License" JNull JNull [])).
Proof.
  split; [ | split; [ | split ] ].
  - intros item Hd. destruct item; try reflexivity. discriminate.
  - intros Hid. unfold candidate_of_item. cbn [getitem]. rewrite Hid.
    reflexivity.
  - intros id key v Hid Hkey Hv Hd.
    unfold candidate_of_item. cbn [getitem]. rewrite Hid.
    cbn [mbind outcome_bind].
    change (get (JDict entries) "alt_description" JNull)
      with (Returns (match lookup_key "alt_description" entries with
                     | Some x => x | None => JNull end)).
    cbn [mbind outcome_bind].
    destruct (title_returns entries
                (match lookup_key "alt_description" entries with
                 | Some x => x | None => JNull end)) as [title ->].
    cbn [mbind outcome_bind get].
    destruct Hkey as [-> | [-> Hlinks]].
    + rewrite Hv. destruct v; try reflexivity. discriminate.
    + destruct (lookup_key "links" entries) as [links|] eqn:Hl.
      * specialize (Hlinks links eq_refl).
        destruct links; try discriminate.
        cbn [mbind outcome_bind get]. rewrite Hv.
        destruct v; try reflexivity. discriminate.
      * cbn [lookup_key mbind outcome_bind get]. rewrite Hv.
        destruct v; try reflexivity. discriminate.
  - intros id user Hid Habsent Huser Hnull.
    unfold candidate_of_item. cbn [getitem get]. rewrite Hid.
    rewrite (Habsent "alt_description"), (Habsent "description"),
      (Habsent "links"), (Habsent "urls"), (Habsent "width"),
      (Habsent "height"), (Habsent "tags") by (cbn; tauto).
    rewrite Huser.
    destruct Hnull as [-> | ->]; reflexivity.
Qed.

(** X25.  Reading the answer: an answer that is not an object raises
    [AttributeError]; one without [results] gives no candidate; one whose
    [results] is [null] raises [TypeError]; one whose [results] is a list
    gives, when every photo can be read, one candidate for each photo. *)
Theorem unsplash_answer_results (entries : list (string * json)) :
  (forall data, Spec.is_dict data = false ->
     candidates_of_answer data = Raises AttributeError) /\
  (lookup_key "results" entries = None ->
     candidates_of_answer (JDict entries) = Returns []) /\
  (lookup_key "results" entries = Some JNull ->
     candidates_of_answer (JDict entries) = Raises TypeError) /\
  (forall items, lookup_key "results" entries = Some (JList items) ->
     candidates_of_answer (JDict entries) = candidates_of_items items /\
     forall candidates,
       candidates_of_items items = Returns candidates ->
       length candidates = length items).
Proof.
  split; [ | split; [ | split ] ].
  - intros data Hd. destruct data; try reflexivity. discriminate.
  - intros Hr. unfold candidates_of_answer. cbn [get]. rewrite Hr.
    reflexivity.
  - intros Hr. unfold candidates_of_answer. cbn [get]. rewrite Hr.
    reflexivity.
  - intros items Hr. split.
    + unfold candidates_of_answer. cbn [get]. rewrite Hr. reflexivity.
    + intros cs Hcs. apply candidates_of_items_shape in Hcs.
      symmetry. eapply Forall2_length. exact Hcs.
Qed.

Section Discover.
Variable search_photos : string -> Z -> outcome json.

Lemma pages_spec (page_limit : Z) :
  length (pages page_limit) = Z.to_nat page_limit /\
  forall i, (i < Z.to_nat page_limit)%nat ->
            nth i (pages page_limit) 0 = Z.of_nat i + 1.
Proof.
  unfold pages. split.
  - rewrite length_map, length_seq. reflexivity.
  - intros i Hi.
    rewrite (nth_indep _ 0 (Z.of_nat 0))
      by (rewrite length_map, length_seq; exact Hi).
    rewrite map_nth, seq_nth by exact Hi. lia.
Qed.

(** X26.  [discover] asks for the pages 1 to [page_limit] and for no
    other: with a page limit of zero or less it returns the empty list; it
    returns a list exactly when every page can be fetched and read, and
    the list then is the candidates of the pages put end to end in the
    order of the pages; it fails exactly when one of these pages fails. *)
Theorem unsplash_discover_pages (query : string) (page_limit : Z) :
  (page_limit <= 0 -> discover search_photos query page_limit = Some []) /\
  (forall candidates,
     discover search_photos query page_limit = Some candidates <->
     exists per_page,
       Forall2 (fun page cs => _fetch_page search_photos query page
                               = Returns cs)
         (pages page_limit) per_page /\
       candidates = concat per_page) /\
  (discover search_photos query page_limit = None <->
   exists page e, 1 <= page <= page_limit /\
     _fetch_page search_photos query page = Raises e).
Proof.
  split; [ | split ].
  - intros Hle. unfold discover, pages.
    replace (Z.to_nat page_limit) with 0%nat by lia. reflexivity.
  - intros candidates. unfold discover. split.
    + intros Hrun.
      destruct (mapM _ (pages page_limit)) as [per_page|] eqn:Hm;
        [ | discriminate ].
      cbn in Hrun. injection Hrun as <-.
      exists per_page. split; [ | reflexivity ].
      apply mapM_Some in Hm.
      eapply Forall2_impl; [ exact Hm | ].
      intros page cs. cbn beta.
      destruct (_fetch_page search_photos query page); congruence.
    + intros (per_page & Hall & ->).
      assert (mapM (fun page =>
                      match _fetch_page search_photos query page with
                      | Returns cs => Some cs
                      | Raises _ => None
                      end) (pages page_limit) = Some per_page) as ->.
      { apply mapM_Some. eapply Forall2_impl; [ exact Hall | ].
        intros page cs ->. reflexivity. }
      reflexivity.
  - unfold discover.
    set (f := fun page =>
                match _fetch_page search_photos query page with
                | Returns cs => Some cs
                | Raises _ => None
                end).
    assert (forall page, In page (pages page_limit) <->
                         1 <= page <= page_limit) as Hpages.
    { intros page. unfold pages. rewrite in_map_iff. split.
      - intros (i & <- & Hi). apply in_seq in Hi. lia.
      - intros Hp. exists (Z.to_nat page). split; [ lia | ].
        apply in_seq. lia. }
    pose proof (mapM_is_Some f (pages page_limit)) as Hsome.
    destruct (mapM f (pages page_limit)) as [per_page|] eqn:Hm.
    + split; [ discriminate | ].
      intros (page & e & Hpage & He). exfalso.
      assert (Forall (is_Some ∘ f) (pages page_limit)) as Hall
        by (apply Hsome; eauto).
      rewrite List.Forall_forall in Hall.
      specialize (Hall page (proj2 (Hpages page) Hpage)).
      unfold f, compose in Hall. rewrite He in Hall.
      destruct Hall as [? ?]. discriminate.
    + split; [ intros _ | reflexivity ].
      assert (~ Forall (is_Some ∘ f) (pages page_limit)) as Hnot.
      { intros Hall. apply Hsome in Hall. destruct Hall as [? ?].
        discriminate. }
      apply not_Forall_Exists in Hnot; [ | intros x; apply _ ].
      apply List.Exists_exists in Hnot.
      destruct Hnot as (page & Hin & Hfail).
      unfold f, compose in Hfail.
      destruct (_fetch_page search_photos query page) as [cs | e] eqn:He.
      * exfalso. apply Hfail. eauto.
      * exists page, e. split; [ apply Hpages; exact Hin | exact He ].
Qed.

End Discover.

End UnsplashFacts.


Lemma unsplash_item_fields_witness :
  Unsplash.candidate_of_item
    (Unsplash.JDict [ ("id", Unsplash.JStr "abc123");
                      ("links", Unsplash.JNull) ])
  = Unsplash.Raises Unsplash.AttributeError.
Proof.
  refine (proj1 (proj2 (proj2 (unsplash_item_fields
                                 [ ("id", Unsplash.JStr "abc123");
                                   ("links", Unsplash.JNull) ])))
            (Unsplash.JStr "abc123") "links" Unsplash.JNull _ _ _ _).
  - reflexivity.
  - left. reflexivity.
  - reflexivity.
  - reflexivity.
Defined.

Lemma unsplash_answer_results_witness :
  Unsplash.candidates_of_answer
    (Unsplash.JDict [("total", Unsplash.JInt 0)]) = Unsplash.Returns [].
Proof.
  apply (proj1 (proj2 (unsplash_answer_results
                         [("total", Unsplash.JInt 0)]))).
  reflexivity.
Defined.

Lemma unsplash_discover_pages_witness :
  Unsplash.discover Demo.demo_search_photos "mountain" 0 = Some [].
Proof.
  apply (proj1 (unsplash_discover_pages Demo.demo_search_photos
                  "mountain" 0)).
  discriminate.
Defined.

(** The answer that the test of the adapter mocks gives its one
    candidate on the first page; a second page that fails makes the whole
    search fail. *)
Example unsplash_discover_demo :
  (exists r, Unsplash.discover Demo.demo_search_photos "mountain" 1
             = Some [r] /\
             Unsplash.raw_direct_url r
             = Unsplash.JStr "https://images.unsplash.com/photo.jpg") /\
  Unsplash.discover Demo.demo_search_photos "mountain" 2 = None.
Proof. split; [ eexists; split; reflexivity | reflexivity ]. Qed.

(** ** cli.py: what a run may touch *)

Section RunnerFrame.
Context `{Externals}.
Variable unsplash_discover :
  Unsplash.UnsplashAdapter -> string -> Z -> result (list Models.Candidate).
Variables (cfg : Config.Config) (query : string) (limit : Z).

(** X27.  A run only adds.  The files that differ at its end from what
    they were at its start are pictures and sidecars of candidates that
    the adapters of the run answered with: their paths are
    [output_dir/source/file name] of such a candidate, or that path with
    the suffix [.json].  No directory is gone, and a directory that is new
    is [output_dir/source] of such a candidate or a directory above it.
    The rows that were in the table are still its first rows, unchanged,
    and the downloads listed before are still the first of the list. *)
Theorem runner_only_adds (adapters : list Cli.Adapter) (dry_run : bool)
    (w : Cli.World) (db : Db.Database) (d : list Models.DownloadInfo) :
  let st' :=
    fst (Cli.runner unsplash_discover adapters cfg query limit dry_run
           (w, db, d)) in
  let out := Config.output_dir cfg in
  let found :=
    Spec.discovered unsplash_discover adapters query (Config.page_limit cfg) in
  (forall p,
     Fs.files (Cli.fs (Spec.run_world st')) !! p <> Fs.files (Cli.fs w) !! p ->
     exists c, found c /\
               (p = Spec.picture_path out c \/ p = Spec.sidecar_path out c)) /\
  Fs.directories (Cli.fs w) ⊆ Fs.directories (Cli.fs (Spec.run_world st')) /\
  (forall p,
     p ∈ Fs.directories (Cli.fs (Spec.run_world st')) ->
     p ∈ Fs.directories (Cli.fs w) \/
     exists c, found c /\
               (p = Spec.target_dir out c \/
                In p (parents (Spec.target_dir out c)))) /\
  (exists rows, Db.images (Spec.run_db st') = Db.images db ++ rows) /\
  (exists infos, Spec.run_downloaded st' = d ++ infos).
Proof.
  intros st' out found. subst st'.
  pose (P := fun (w1 : Cli.World) (db1 : Db.Database)
                 (d1 : list Models.DownloadInfo) =>
               (forall p,
                  Fs.files (Cli.fs w1) !! p <> Fs.files (Cli.fs w) !! p ->
                  exists c, found c /\
                            (p = Spec.picture_path out c \/
                             p = Spec.sidecar_path out c)) /\
               Fs.directories (Cli.fs w) ⊆ Fs.directories (Cli.fs w1) /\
               (forall p,
                  p ∈ Fs.directories (Cli.fs w1) ->
                  p ∈ Fs.directories (Cli.fs w) \/
                  exists c, found c /\
                            (p = Spec.target_dir out c \/
                             In p (parents (Spec.target_dir out c)))) /\
               (exists rows, Db.images db1 = Db.images db ++ rows) /\
               (exists infos, d1 = d ++ infos)).
  assert (forall c w1 db1 d1 w2 info,
            found c -> P w1 db1 d1 ->
            Cli.download_candidate c cfg out w1 = (w2, Ok (Some info)) ->
            P w2 db1 d1) as Hstored.
  { intros c w1 db1 d1 w2 info Hc (Hfiles & Hgrow & Hdirs & Hrows & Hd) Hrun.
    destruct (download_stored_inversion c cfg _ w1 w2 info Hrun)
      as (url & data & ph & s & _ & _ & _ & _ & _ & _ & _ & _ & _
          & fs1 & fs2 & fs3 & Hmk & Hwr & Hside & Hw).
    destruct (stored_files _ _ _ _ _ _ _ _ _ _ _ _ Hmk Hwr Hside)
      as [Hf3 Hd3].
    pose proof (mkdir_grows (Spec.target_dir out c) (Cli.fs w1)) as Hg1.
    pose proof (mkdir_directories (Spec.target_dir out c) (Cli.fs w1))
      as Hd1.
    rewrite Hmk in Hg1, Hd1. cbn [fst] in Hg1, Hd1.
    unfold P. rewrite Hw. cbn [Spec.stored_world Cli.fs]. rewrite Hf3, Hd3.
    split; [ | split; [ | split; [ | split; assumption ] ] ].
    - intros p Hp.
      destruct (decide (p = Spec.picture_path out c)) as [-> | Hne1];
        [ eauto | ].
      destruct (decide (p = Spec.sidecar_path out c)) as [-> | Hne2];
        [ eauto | ].
      apply Hfiles. intros Heq. apply Hp. rewrite <- Heq.
      rewrite !lookup_insert_ne by congruence. reflexivity.
    - etransitivity; [ exact Hgrow | exact Hg1 ].
    - intros p Hp. destruct (Hd1 p Hp) as [Hold | Hnew].
      + apply Hdirs. exact Hold.
      + right. exists c. auto. }
  apply (runner_invariant unsplash_discover cfg query limit dry_run found P).
  - intros c w1 db1 d1 w2 info db2 Hc HP Hrun Hok.
    destruct (Hstored c w1 db1 d1 w2 info Hc HP Hrun)
      as (Hfiles & Hgrow & Hdirs & [rows Hrows] & [infos Hd]).
    split; [ exact Hfiles | ]. split; [ exact Hgrow | ].
    split; [ exact Hdirs | ]. split.
    + rewrite (record_download_images _ _ _ _ Hok), Hrows.
      destruct (Db.sha256_present _ _); [ eauto | ].
      rewrite <- app_assoc. eauto.
    + rewrite Hd, <- app_assoc. eauto.
  - intros c w1 db1 d1 w2 info e Hc HP Hrun _.
    exact (Hstored c w1 db1 d1 w2 info Hc HP Hrun).
  - intros c w1 db1 d1 w2 e Hc (Hfiles & Hgrow & Hdirs & Hrows & Hd) Hrun.
    destruct (download_raises_frame c cfg _ w1 w2 e Hrun)
      as (_ & _ & Hframe & Hg1 & Hd1).
    split; [ | split; [ | split; [ | split; assumption ] ] ].
    + intros p Hp.
      destruct (decide (p = Spec.picture_path out c)) as [-> | Hne];
        [ eauto | ].
      apply Hfiles. intros Heq. apply Hp.
      etransitivity; [ exact (Hframe p Hne) | exact Heq ].
    + etransitivity; [ exact Hgrow | exact Hg1 ].
    + intros p Hp. destruct (Hd1 p Hp) as [Hold | Hnew].
      * apply Hdirs. exact Hold.
      * right. exists c. auto.
  - intros c Hc. exact Hc.
  - unfold P, Spec.run_world, Spec.run_db, Spec.run_downloaded.
    cbn [fst snd].
    split; [ intros p Hp; contradiction | ].
    split; [ reflexivity | ].
    split; [ auto | ].
    split; exists []; rewrite app_nil_r; reflexivity.
Qed.

End RunnerFrame.

Lemma runner_only_adds_witness :
  let adapters :=
    [Cli.UnsplashSource (Unsplash.mkUnsplashAdapter
                           (Demo.demo_settings (Some "key")))] in
  let st' := fst (Cli.runner (H := Demo.demo_externals)
                    Demo.demo_unsplash_discover adapters
                    Demo.demo_config "lake" 20 false
                    (Demo.demo_world ∅, Db.empty, [])) in
  Fs.directories (Cli.fs (Demo.demo_world ∅))
    ⊆ Fs.directories (Cli.fs (Spec.run_world st')) /\
  exists rows, Db.images (Spec.run_db st') = Db.images Db.empty ++ rows.
Proof.
  intros adapters st'.
  pose proof (runner_only_adds (H := Demo.demo_externals)
                Demo.demo_unsplash_discover Demo.demo_config "lake" 20
                adapters false (Demo.demo_world ∅) Db.empty []) as Hall.
  cbv zeta in Hall. destruct Hall as (_ & Hdirs & _ & Hrows & _).
  split; [ exact Hdirs | exact Hrows ].
Defined.

(** ** db.py and cli.py: the most recent picture *)

Section RecentFacts.

Lemma compare_text_antisym (a b : option string) :
  Db.compare_text a b = CompOpp (Db.compare_text b a).
Proof.
  destruct a as [x|], b as [y|]; simpl; try reflexivity.
  apply String.compare_antisym.
Qed.

Lemma compare_text_ge_trans (a b c : option string) :
  Db.compare_text a b <> Lt -> Db.compare_text b c <> Lt ->
  Db.compare_text a c <> Lt.
Proof.
  intros Hab Hbc Hac.
  destruct (Db.compare_text b c) eqn:Hc; [ | contradiction | ].
  - apply compare_text_eq in Hc. subst c. contradiction.
  - apply compare_text_gt in Hc.
    apply Hab. eapply compare_text_lt_trans; eassumption.
Qed.

Lemma insert_recent_perm (r : Db.Row) (sorted : list Db.Row) :
  Permutation (Db.insert_recent r sorted) (r :: sorted).
Proof.
  induction sorted as [| r' rest IH]; simpl; [ reflexivity | ].
  destruct (Db.compare_text _ _); try reflexivity.
  rewrite IH. apply perm_swap.
Qed.

Lemma order_by_perm (rows : list Db.Row) :
  Permutation (Db.order_by_downloaded_at_desc rows) rows.
Proof.
  induction rows as [| r rows IH]; simpl; [ reflexivity | ].
  rewrite insert_recent_perm, IH. reflexivity.
Qed.

Lemma insert_recent_sorted (r : Db.Row) (sorted : list Db.Row) :
  Spec.recent_first sorted -> Spec.recent_first (Db.insert_recent r sorted).
Proof.
  unfold Spec.recent_first.
  induction 1 as [| r' rest Hs IH Hall]; simpl.
  - repeat constructor.
  - destruct (Db.compare_text (Db.downloaded_at r') (Db.downloaded_at r))
      eqn:Hc.
    + assert (Db.compare_text (Db.downloaded_at r) (Db.downloaded_at r')
              <> Lt) as Hge.
      { rewrite compare_text_antisym, Hc. discriminate. }
      constructor; [ constructor; assumption | ].
      constructor; [ exact Hge | ].
      eapply List.Forall_impl; [ | exact Hall ].
      intros x Hx. eapply compare_text_ge_trans; eassumption.
    + assert (Db.compare_text (Db.downloaded_at r) (Db.downloaded_at r')
              <> Lt) as Hge.
      { rewrite compare_text_antisym, Hc. discriminate. }
      constructor; [ constructor; assumption | ].
      constructor; [ exact Hge | ].
      eapply List.Forall_impl; [ | exact Hall ].
      intros x Hx. eapply compare_text_ge_trans; eassumption.
    + constructor; [ exact IH | ].
      rewrite List.Forall_forall. intros x Hx.
      apply (Permutation_in _ (insert_recent_perm r rest)) in Hx.
      destruct Hx as [<- | Hx].
      * rewrite Hc. discriminate.
      * rewrite List.Forall_forall in Hall. apply Hall. exact Hx.
Qed.

Lemma order_by_sorted (rows : list Db.Row) :
  Spec.recent_first (Db.order_by_downloaded_at_desc rows).
Proof.
  induction rows as [| r rows IH]; simpl; [ constructor | ].
  apply insert_recent_sorted. exact IH.
Qed.

Lemma firstn_in (n : nat) (rows : list Db.Row) (x : Db.Row) :
  In x (firstn n rows) -> In x rows.
Proof.
  revert n. induction rows as [| r rows IH]; intros [| n]; simpl;
    try tauto.
  intros [-> | Hx]; [ auto | right; eapply IH; exact Hx ].
Qed.

Lemma recent_first_firstn (n : nat) (rows : list Db.Row) :
  Spec.recent_first rows -> Spec.recent_first (firstn n rows).
Proof.
  unfold Spec.recent_first. intros Hs. revert n.
  induction Hs as [| r rest Hs IH Hall]; intros [| n]; simpl;
    try constructor.
  - apply IH.
  - rewrite List.Forall_forall in *. intros x Hx. apply Hall.
    eapply firstn_in. eassumption.
Qed.


Lemma list_recent_rows (db : Db.Database) (limit : Z) :
  (limit < - 2 ^ 63 \/ 2 ^ 63 <= limit ->
     Db.list_recent db limit = Raise OverflowError) /\
  (- 2 ^ 63 <= limit < 2 ^ 63 ->
     exists rows,
       Db.list_recent db limit =
         Ok (map (fun r => (Db.file_path r, Db.downloaded_at r)) rows) /\
       Z.of_nat (length rows) =
         (if limit <? 0 then Db.count db else Z.min limit (Db.count db)) /\
       (forall r, In r rows -> In r (Db.images db)) /\
       Spec.recent_first rows /\
       (forall first rest r, rows = first :: rest -> In r (Db.images db) ->
          Db.compare_text (Db.downloaded_at first) (Db.downloaded_at r)
          <> Lt)).
Proof.
  unfold Db.list_recent. split.
  - intros Hout.
    replace ((limit <? - 2 ^ 63) || (2 ^ 63 <=? limit)) with true;
      [ reflexivity | ].
    symmetry. apply orb_true_iff.
    destruct Hout as [Hlo | Hhi];
      [ left; apply Z.ltb_lt; exact Hlo | right; apply Z.leb_le; exact Hhi ].
  - intros [Hlo Hhi].
    replace ((limit <? - 2 ^ 63) || (2 ^ 63 <=? limit)) with false.
    2:{ symmetry. apply orb_false_iff.
        split; [ apply Z.ltb_ge; exact Hlo | apply Z.leb_gt; exact Hhi ]. }
    cbn zeta.
    set (sorted := Db.order_by_downloaded_at_desc (Db.images db)).
    pose proof (order_by_perm (Db.images db)) as Hperm. fold sorted in Hperm.
    pose proof (order_by_sorted (Db.images db)) as Hsorted.
    fold sorted in Hsorted.
    exists (if limit <? 0 then sorted else firstn (Z.to_nat limit) sorted).
    split; [ reflexivity | ].
    assert (forall r, In r sorted -> In r (Db.images db)) as Hin.
    { intros r Hr. eapply Permutation_in; eassumption. }
    assert (forall first rest r,
              sorted = first :: rest -> In r (Db.images db) ->
              Db.compare_text (Db.downloaded_at first) (Db.downloaded_at r)
              <> Lt) as Hmax.
    { intros first rest r Heq Hr.
      apply (Permutation_in _ (Permutation_sym Hperm)) in Hr.
      rewrite Heq in Hr, Hsorted.
      inversion Hsorted as [| ? ? _ Hall]; subst.
      destruct Hr as [<- | Hr].
      - rewrite (proj2 (compare_text_eq _ _) eq_refl). discriminate.
      - rewrite List.Forall_forall in Hall. apply Hall. exact Hr. }
    unfold Db.count. rewrite <- (Permutation_length Hperm).
    destruct (Z.ltb_spec limit 0) as [Hneg | Hnn].
    + split; [ reflexivity | ]. split; [ exact Hin | ].
      split; [ exact Hsorted | exact Hmax ].
    + split; [ rewrite length_firstn; lia | ].
      split; [ intros r Hr; apply Hin; eapply firstn_in; exact Hr | ].
      split; [ apply recent_first_firstn; exact Hsorted | ].
      intros first rest r Heq Hr.
      destruct sorted as [| s0 sorted'] eqn:Hs.
      * destruct (Z.to_nat limit); discriminate.
      * destruct (Z.to_nat limit) as [| n]; [ discriminate | ].
        cbn [firstn] in Heq. injection Heq as <- _.
        eapply Hmax; [ reflexivity | exact Hr ].
Qed.


(** X29.  [set] chooses the path it is given, whatever [latest] and the
    table; without a path and without [latest] it finds no picture, even
    when the table has rows; without a path and with [latest] it finds no
    picture exactly when the table is empty, and otherwise takes the path
    of a row whose [downloaded_at] is the greatest of the table. *)
Theorem set_target_spec (latest : bool) (path : option Models.Path)
    (db : Db.Database) :
  (forall p, path = Some p -> Cli.set_target latest path db = Ok (Some p)) /\
  (path = None -> latest = false -> Cli.set_target latest path db = Ok None) /\
  (path = None -> latest = true -> Db.images db = [] ->
     Cli.set_target latest path db = Ok None) /\
  (path = None -> latest = true -> Db.images db <> [] ->
     exists r, In r (Db.images db) /\
       Cli.set_target latest path db = Ok (Some (Db.file_path r)) /\
       forall r', In r' (Db.images db) ->
         Db.compare_text (Db.downloaded_at r) (Db.downloaded_at r') <> Lt).
Proof.
  unfold Cli.set_target. cbn zeta.
  split; [ | split; [ | split ] ].
  - intros p ->. rewrite bool_decide_eq_true_2 by eauto.
    rewrite andb_false_r. reflexivity.
  - intros -> ->. reflexivity.
  - intros -> -> Hempty.
    rewrite bool_decide_eq_false_2 by (intros [? ?]; discriminate).
    cbn [andb negb].
    unfold Db.list_recent. cbn [Z.ltb Z.leb Z.compare orb Z.to_nat].
    change ((1 <? - 2 ^ 63) || (2 ^ 63 <=? 1)) with false. cbn iota zeta.
    rewrite Hempty. reflexivity.
  - intros -> -> Hrows.
    rewrite bool_decide_eq_false_2 by (intros [? ?]; discriminate).
    cbn [andb negb].
    destruct (proj2 (list_recent_rows db 1))
      as (rows & -> & Hlen & Hin & _ & Hmax).
    { split; [ discriminate | reflexivity ]. }
    cbn [Z.ltb Z.compare] in Hlen.
    assert (0 < Db.count db) as Hpos.
    { unfold Db.count. destruct (Db.images db); [ contradiction | ].
      cbn [length]. lia. }
    destruct rows as [| first rest]; [ cbn [length] in Hlen; lia | ].
    exists first. split; [ apply Hin; left; reflexivity | ].
    split; [ reflexivity | ].
    intros r' Hr'. eapply Hmax; [ reflexivity | exact Hr' ].
Qed.

End RecentFacts.


Lemma set_target_spec_witness :
  Cli.set_target true (Some "wall.jpg") Db.empty = Ok (Some "wall.jpg").
Proof.
  exact (proj1 (set_target_spec true (Some "wall.jpg") Db.empty)
           "wall.jpg" eq_refl).
Defined.
